(** * Training loop of [train.py]: partition, resumption, checkpoints

    A shallow embedding of [main] of [train.py].  The script drives an
    autoencoder through epochs, logs every [log_interval] epochs, saves a
    checkpoint every [save_interval] epochs and once more after the loop, and
    can resume from the latest checkpoint of [model_saved/].

    The numeric work of torch (forward and backward passes, the optimizer
    update, the pseudo random generator, state dictionaries) is kept abstract
    in the class [Torch]; everything that decides control flow is modelled
    concretely: the float arithmetic of the split sizes, [glob] and
    [natsort.natsorted] over the checkpoint directory, the dictionary read
    back by [torch.load], Python's unbound local variables and exceptions. *)

From Stdlib Require Import ZArith Zpower Lia Ascii String.
From Stdlib Require Import DecimalString DecimalZ DecimalN.
From Stdlib Require Import Floats.SpecFloat Sorting.Sorted.
From stdpp Require Import gmap strings list.

Local Open Scope Z_scope.

(** ** Python floats

    [int(len(all_set) * 0.8)] multiplies an [int] by a binary64 float and
    truncates.  The arithmetic is the IEEE 754 one of the Standard Library's
    [SpecFloat], at precision 53 and maximal exponent 1024. *)
Module PyFloat.

(** [float(n)]: the integer operand of a mixed product is converted first,
    correctly rounded. *)
Definition float_of_int (n : Z) : spec_float := binary_normalize 53 1024 n 0 false.

(** The literals [0.8] and [0.1]: both have mantissa [0x1999999999999A]. *)
Definition lit_0_8 : spec_float := S754_finite false 7205759403792794 (-53).
Definition lit_0_1 : spec_float := S754_finite false 7205759403792794 (-56).

Definition mul : spec_float -> spec_float -> spec_float := SFmul 53 1024.

(** [int(x)] truncates towards zero; it raises on infinities and NaN
    ([None] here). *)
Definition trunc (x : spec_float) : option Z :=
  match x with
  | S754_zero _ => Some 0
  | S754_finite s m e =>
      let a := if 0 <=? e then Zpos m * 2 ^ e else Zpos m / 2 ^ (- e) in
      Some (if s then - a else a)
  | _ => None
  end.

(** [int(n * c)] for an integer [n] and a float [c]. *)
Definition int_mul_float (n : Z) (c : spec_float) : option Z :=
  trunc (mul (float_of_int n) c).

End PyFloat.

(** ** Strings, paths and [natsort]

    [natsort.natsorted] with its default algorithm sorts by a key that splits
    a string into maximal runs of decimal digits, read as integers, and the
    text between them; a key always starts with a text chunk, the empty one
    when the string starts with a digit. *)
Module Natsort.

Inductive chunk := Text (s : string) | Num (n : N).

Definition is_digit (c : ascii) : bool :=
  match DecimalString.uint_of_char c (Some Decimal.Nil) with
  | Some _ => true
  | None => false
  end.

(** [int(ds)] on a run of digits. *)
Definition int_of_digits (ds : string) : N :=
  match NilEmpty.uint_of_string ds with
  | Some u => N.of_uint u
  | None => 0%N
  end.

(** The run being read while a string is scanned from left to right. *)
Inductive run := InText (t : string) | InNum (ds : string).

Definition close (r : run) : list chunk :=
  match r with
  | InText EmptyString => []
  | InText t => [Text t]
  | InNum ds => [Num (int_of_digits ds)]
  end.

Fixpoint scan (r : run) (s : string) : list chunk :=
  match s with
  | EmptyString => close r
  | String c s' =>
      if is_digit c then
        match r with
        | InNum ds => scan (InNum (ds +:+ String c EmptyString)) s'
        | InText t => Text t :: scan (InNum (String c EmptyString)) s'
        end
      else
        match r with
        | InText t => scan (InText (t +:+ String c EmptyString)) s'
        | InNum ds => Num (int_of_digits ds) :: scan (InText (String c EmptyString)) s'
        end
  end.

Definition natsort_key (s : string) : list chunk := scan (InText EmptyString) s.

(** Python compares the key tuples position by position; text with text by
    code points, numbers with numbers.  Keys alternate text and numbers from
    a text chunk on, so the mixed cases are never reached. *)
Definition chunk_compare (a b : chunk) : comparison :=
  match a, b with
  | Text s, Text t => String.compare s t
  | Num m, Num n => N.compare m n
  | Text _, Num _ => Lt
  | Num _, Text _ => Gt
  end.

Fixpoint key_compare (k1 k2 : list chunk) : comparison :=
  match k1, k2 with
  | [], [] => Eq
  | [], _ :: _ => Lt
  | _ :: _, [] => Gt
  | a :: k1', b :: k2' =>
      match chunk_compare a b with
      | Eq => key_compare k1' k2'
      | c => c
      end
  end.

Definition key_leb (s t : string) : bool :=
  match key_compare (natsort_key s) (natsort_key t) with
  | Gt => false
  | _ => true
  end.

(** [sorted] is stable: an element goes in front of the first later element
    that is not smaller. *)
Fixpoint insert_sorted {A} (leb : A -> A -> bool) (x : A) (l : list A) : list A :=
  match l with
  | [] => [x]
  | y :: l' => if leb x y then x :: y :: l' else y :: insert_sorted leb x l'
  end.

Definition sorted_by {A} (leb : A -> A -> bool) (l : list A) : list A :=
  foldr (insert_sorted leb) [] l.

Definition natsorted (l : list string) : list string := sorted_by key_leb l.

(** Plain [sorted] on strings, for comparison. *)
Definition str_leb (s t : string) : bool :=
  match String.compare s t with
  | Gt => false
  | _ => true
  end.

Definition sorted (l : list string) : list string := sorted_by str_leb l.

(** Every character of a string satisfies a test. *)
Fixpoint all_chars (P : ascii -> bool) (s : string) : bool :=
  match s with
  | EmptyString => true
  | String c s' => P c && all_chars P s'
  end.

End Natsort.

(** ** Exceptions and the state-and-exception monad *)

Inductive exn :=
| FileNotFoundError
| ValueError
| KeyError (k : string)
| TypeError
| AttributeError
| RuntimeError
| OverflowError
| ZeroDivisionError
| UnboundLocalError (x : string).

Inductive outcome (A : Type) :=
| Ok (a : A)
| Raise (e : exn).
Arguments Ok {A} a.
Arguments Raise {A} e.

(** A statement runs on a state [S]; it returns or raises, and the state it
    leaves is kept in both cases (what was mutated before a [raise] stays
    mutated). *)
Definition M (S A : Type) : Type := S -> outcome A * S.

#[global] Instance M_ret {S} : MRet (M S) := fun A a s => (Ok a, s).
#[global] Instance M_bind {S} : MBind (M S) := fun A B f m s =>
  match m s with
  | (Ok a, s') => f a s'
  | (Raise e, s') => (Raise e, s')
  end.

Definition raise {S A} (e : exn) : M S A := fun s => (Raise e, s).
(** A computation that does not touch the state. *)
Definition lift {S A} (o : outcome A) : M S A := fun s => (o, s).
Definition raises {A} (o : outcome A) : Prop :=
  match o with
  | Raise _ => True
  | Ok _ => False
  end.
Definition gets {S A} (f : S -> A) : M S A := fun s => (Ok (f s), s).
Definition modify {S} (f : S -> S) : M S unit := fun s => (Ok tt, f s).

(** [try: body except: handler]; a bare [except] catches everything. *)
Definition try_except {S A} (body : M S A) (handler : exn -> M S A) : M S A :=
  fun s =>
    match body s with
    | (Ok a, s') => (Ok a, s')
    | (Raise e, s') => handler e s'
    end.

(** [for x in l: body x] *)
Fixpoint for_each {S A} (l : list A) (body : A -> M S unit) : M S unit :=
  match l with
  | [] => mret tt
  | x :: l' => body x ;; for_each l' body
  end.

(** [range(a, b)] *)
Definition range (a b : Z) : list Z :=
  (fun i : nat => a + Z.of_nat i) <$> seq 0 (Z.to_nat (b - a)).

(** [a % b] on integers: Python's remainder has the sign of the divisor, as
    [Z.modulo] does, and raises on a zero divisor. *)
Definition py_mod {S} (a b : Z) : M S Z :=
  if decide (b = 0) then raise ZeroDivisionError else mret (a mod b).

(** [str(z)] of an integer, as an f-string formats it. *)
Definition str_of_int (z : Z) : string := NilZero.string_of_int (Z.to_int z).

(** ** Weakest preconditions

    [wp m Q R s]: run from [s], [m] returns in a state satisfying [Q] or raises
    in a state satisfying [R]. *)
Definition wp {S A} (m : M S A) (Q : A -> S -> Prop) (R : exn -> S -> Prop) (s : S) : Prop :=
  match m s with
  | (Ok a, s') => Q a s'
  | (Raise e, s') => R e s'
  end.

(** ** Command line arguments: the namespace [parse_args] returns *)

Record Args := {
  epoch : Z;
  batch_size : Z;
  lr : option Z;               (* [None]: the default [0.0001] *)
  log_interval : Z;
  save_interval : Z;
  signal_len : Z;
  latent_dim : Z;
  eval_val : bool;
  continue_training : bool;
  use_gpu : bool;
  num_workers : Z;
}.

Definition default_args : Args := {|
  epoch := 100000; batch_size := 1000; lr := None;
  log_interval := 10; save_interval := 100;
  signal_len := 60; latent_dim := 6;
  eval_val := true; continue_training := false; use_gpu := true;
  num_workers := 0;
|}.

(** ** The torch interface *)

(** The types of the objects torch hands out. *)
Class TorchTypes := {
  (** one signal window of the data set *)
  sample : Type;
  (** the value of a float tensor without dimensions, such as a loss *)
  tensor0 : Type;
  state_dict : Type;
  Module_ : Type;
  Optimizer : Type;
  (** the state of torch's default random generator *)
  generator : Type;
}.

(** The operations on them. *)
Class Torch {TT : TorchTypes} := {
  (** [torch.manual_seed(s)] *)
  manual_seed : Z -> generator;
  (** [torch.randperm(n)] *)
  randperm : generator -> nat -> list nat * generator;
  randperm_Permutation : forall g n, Permutation (randperm g n).1 (seq 0 n);
  (** [AutoEncoder(args)]: the weights are drawn from the generator *)
  AutoEncoder : Args -> generator -> Module_ * generator;
  (** [torch.optim.Adam(model.parameters(), lr=args.lr)] for a learning rate
      it accepts; [main] below raises on the negative ones it rejects *)
  Adam : Module_ -> option Z -> Optimizer;
  (** [model.train()] and [model.eval()] *)
  train_mode : Module_ -> Module_;
  eval_mode : Module_ -> Module_;
  (** one step that returns: forward pass, [loss_func], [zero_grad],
      [backward], [step].  A step that raises ends the run with its
      exception; what is stated of an epoch, a loop or a run that returned is
      stated of steps that returned *)
  train_step : Module_ -> Optimizer -> list sample -> Module_ * Optimizer * tensor0;
  (** [loss_func(model(x)[1], x)] without gradient *)
  forward_loss : Module_ -> list sample -> tensor0;
  model_state_dict : Module_ -> state_dict;
  optimizer_state_dict : Optimizer -> state_dict;
  (** [load_state_dict] works in place: the object it leaves, and the
      exception it raised, if any *)
  model_load_state_dict : Module_ -> state_dict -> Module_ * option exn;
  optimizer_load_state_dict : Optimizer -> state_dict -> Optimizer * option exn;
}.

Section Train.
Context {TT : TorchTypes} {T : Torch}.

(** *** Values stored in a checkpoint, files, log records *)

Inductive pyval :=
| VInt (z : Z)
| VTensor (t : tensor0)
| VStateDict (sd : state_dict)
| VStr (s : string)
| VNone.

(** What [torch.load] returns: a dictionary with string keys, or anything
    else. *)
Inductive pyobj :=
| ODict (d : gmap string pyval)
| OOther (v : pyval).

(** A file of [model_saved/]: a pickled object, or bytes that do not
    unpickle. *)
Inductive file :=
| Corrupt
| Pickled (o : pyobj).

(** [normal.npy] *)
Inductive npy :=
| NpyMissing
| NpyArray (rows : list sample).

(** A tensor without dimensions: a float one, or the integer one that
    [torch.tensor(-1)] builds. *)
Inductive scalar :=
| FloatScalar (t : tensor0)
| IntScalar (z : Z).

Inductive log_record :=
| LogArgs (a : Args)
| LogTrainLen (n : nat)
| LogValLen (n : nat)
| LogTestLen (n : nat)
| LogModel (m : Module_)
| LogLoadCheckpoint (fp : string)
| LogContinue (continue_epoch : pyval) (train_loss : tensor0)
| LogLoadFailed (e : exn)
| LogContinueFrom (continue_epoch : pyval)
| LogEpoch (epoch : Z) (total_step : Z) (train_loss : tensor0) (val_loss : scalar).

(** *** The directory [model_saved/]: entries in directory order *)

Definition directory : Type := list (string * file).

Fixpoint dir_lookup (name : string) (d : directory) : option file :=
  match d with
  | [] => None
  | (n, f) :: d' => if String.eqb n name then Some f else dir_lookup name d'
  end.

(** Writing replaces the content of an existing entry and appends a new
    entry otherwise. *)
Fixpoint dir_write (name : string) (f : file) (d : directory) : directory :=
  match d with
  | [] => [(name, f)]
  | (n, f') :: d' =>
      if String.eqb n name then (n, f) :: d' else (n, f') :: dir_write name f d'
  end.

Definition ends_with (suffix s : string) : bool :=
  String.eqb
    (String.substring (String.length s - String.length suffix)
       (String.length suffix) s)
    suffix.

(** [fnmatch(name, 'checkpoint_*.pt')] *)
Definition fnmatch_checkpoint (name : string) : bool :=
  String.prefix "checkpoint_" name && ends_with ".pt" name
  && (14 <=? String.length name)%nat.

(** [glob.glob('model_saved/checkpoint_*.pt')] *)
Definition glob_checkpoints (d : directory) : list string :=
  (fun e => "model_saved/" +:+ e.1) <$> List.filter (fun e => fnmatch_checkpoint e.1) d.

Fixpoint strip_prefix (p s : string) : option string :=
  match p, s with
  | EmptyString, _ => Some s
  | String a p', String b s' => if Ascii.eqb a b then strip_prefix p' s' else None
  | String _ _, EmptyString => None
  end.

(** The entry a path of [model_saved/] names. *)
Definition open_path (d : directory) (fp : string) : option file :=
  name ← strip_prefix "model_saved/" fp; dir_lookup name d.

(** [f'model_saved/checkpoint_epoch_{epoch}.pt'] *)
Definition checkpoint_name (epoch : Z) : string :=
  "checkpoint_epoch_" +:+ str_of_int epoch +:+ ".pt".
Definition checkpoint_path (epoch : Z) : string :=
  "model_saved/" +:+ checkpoint_name epoch.

(** *** Partition of the data set (lines 66 to 75) *)

(** [train_len], [val_len] and [test_len] of a data set of [n] rows. *)
Definition split_shape (n : Z) : outcome (Z * Z * Z) :=
  match PyFloat.int_mul_float n PyFloat.lit_0_8,
        PyFloat.int_mul_float n PyFloat.lit_0_1 with
  | Some train_len, Some val_len =>
      Ok (train_len, val_len, n - train_len - val_len)
  | _, _ => Raise OverflowError
  end.

(** [indices[offset - length : offset]] for every length, as
    [random_split] cuts the permutation. *)
Fixpoint slices (indices : list nat) (lengths : list nat) : list (list nat) :=
  match lengths with
  | [] => []
  | n :: lengths' => take n indices :: slices (drop n indices) lengths'
  end.

(** [torch.utils.data.random_split(dataset, lengths)], on the default
    generator; a subset is the list of the indices it keeps. *)
Definition random_split (n : nat) (lengths : list Z) : M generator (list (list nat)) :=
  if decide (foldr Z.add 0 lengths = Z.of_nat n) then
    g ← gets id;
    let '(indices, g') := randperm g (Z.to_nat (foldr Z.add 0 lengths)) in
    modify (fun _ => g');;
    mret (slices indices (Z.to_nat <$> lengths))
  else raise ValueError.

Record split := {
  train_set : list nat;
  val_set : list nat;
  test_set : list nat;
}.

(** Lines 69 to 75 on a data set of [n] rows; [entropy] is the number the
    operating system hands to [torch.seed()]. *)
Definition partition (n : nat) (entropy : Z) : M generator split :=
  match split_shape (Z.of_nat n) with
  | Raise e => raise e
  | Ok (train_len, val_len, test_len) =>
      modify (fun _ => manual_seed 0);;
      parts ← random_split n [train_len; val_len; test_len];
      modify (fun _ => manual_seed entropy);;
      match parts with
      | [tr; va; te] => mret {| train_set := tr; val_set := va; test_set := te |}
      | _ => raise ValueError
      end
  end.

(** *** Data loaders *)

Record DataLoader := {
  dl_dataset : list sample;
  dl_batch_size : nat;
  dl_shuffle : bool;
}.

(** The constructor rejects a batch size that is not positive and a negative
    number of workers.  (Releases of torch that also reject an empty data
    set under [shuffle=True] raise the same [ValueError]; a run with an
    empty training subset has an empty validation subset too and is rejected
    here in either case.) *)
Definition new_DataLoader (dataset : list sample) (batch_size : Z) (shuffle : bool)
    (num_workers : Z) : outcome DataLoader :=
  if decide (num_workers < 0) then Raise ValueError
  else if decide (batch_size <= 0) then Raise ValueError
  else Ok {| dl_dataset := dataset; dl_batch_size := Z.to_nat batch_size;
             dl_shuffle := shuffle |}.

Fixpoint chunks {A} (fuel : nat) (b : nat) (l : list A) : list (list A) :=
  match fuel, l with
  | _, [] => []
  | O, _ => []
  | S fuel', _ => take b l :: chunks fuel' b (drop b l)
  end.

(** Consecutive batches, the last one possibly shorter. *)
Definition batches {A} (b : nat) (l : list A) : list (list A) :=
  chunks (length l) b l.

(** [len(loader)] *)
Definition loader_len (dl : DataLoader) : Z :=
  (Z.of_nat (length (dl_dataset dl)) + Z.of_nat (dl_batch_size dl) - 1)
  / Z.of_nat (dl_batch_size dl).

Definition subset (all_set : list sample) (indices : list nat) : list sample :=
  omap (fun i => all_set !! i) indices.

(** *** The state of a run from line 94 on *)

Record state := {
  fs : directory;
  gen : generator;
  log : list log_record;          (* newest record first *)
  model : Module_;
  optimizer : Optimizer;
  continue_epoch : pyval;
  (** locals of [main] that are bound inside the loop only *)
  v_epoch : option Z;
  v_step : option Z;
  v_loss : option tensor0;
  v_val_loss : option scalar;
  (** the names [torch.save] has written so far, the last one first *)
  saves : list string;
}.

Definition set_fs (x : directory) (s : state) : state :=
  {| fs := x; gen := gen s; log := log s; model := model s; optimizer := optimizer s;
     continue_epoch := continue_epoch s; v_epoch := v_epoch s; v_step := v_step s;
     v_loss := v_loss s; v_val_loss := v_val_loss s; saves := saves s |}.
Definition set_gen (x : generator) (s : state) : state :=
  {| fs := fs s; gen := x; log := log s; model := model s; optimizer := optimizer s;
     continue_epoch := continue_epoch s; v_epoch := v_epoch s; v_step := v_step s;
     v_loss := v_loss s; v_val_loss := v_val_loss s; saves := saves s |}.
Definition set_log (x : list log_record) (s : state) : state :=
  {| fs := fs s; gen := gen s; log := x; model := model s; optimizer := optimizer s;
     continue_epoch := continue_epoch s; v_epoch := v_epoch s; v_step := v_step s;
     v_loss := v_loss s; v_val_loss := v_val_loss s; saves := saves s |}.
Definition set_model (x : Module_) (s : state) : state :=
  {| fs := fs s; gen := gen s; log := log s; model := x; optimizer := optimizer s;
     continue_epoch := continue_epoch s; v_epoch := v_epoch s; v_step := v_step s;
     v_loss := v_loss s; v_val_loss := v_val_loss s; saves := saves s |}.
Definition set_optimizer (x : Optimizer) (s : state) : state :=
  {| fs := fs s; gen := gen s; log := log s; model := model s; optimizer := x;
     continue_epoch := continue_epoch s; v_epoch := v_epoch s; v_step := v_step s;
     v_loss := v_loss s; v_val_loss := v_val_loss s; saves := saves s |}.
Definition set_continue_epoch (x : pyval) (s : state) : state :=
  {| fs := fs s; gen := gen s; log := log s; model := model s; optimizer := optimizer s;
     continue_epoch := x; v_epoch := v_epoch s; v_step := v_step s;
     v_loss := v_loss s; v_val_loss := v_val_loss s; saves := saves s |}.
Definition set_epoch (x : Z) (s : state) : state :=
  {| fs := fs s; gen := gen s; log := log s; model := model s; optimizer := optimizer s;
     continue_epoch := continue_epoch s; v_epoch := Some x; v_step := v_step s;
     v_loss := v_loss s; v_val_loss := v_val_loss s; saves := saves s |}.
Definition set_step (x : Z) (s : state) : state :=
  {| fs := fs s; gen := gen s; log := log s; model := model s; optimizer := optimizer s;
     continue_epoch := continue_epoch s; v_epoch := v_epoch s; v_step := Some x;
     v_loss := v_loss s; v_val_loss := v_val_loss s; saves := saves s |}.
Definition set_loss (x : tensor0) (s : state) : state :=
  {| fs := fs s; gen := gen s; log := log s; model := model s; optimizer := optimizer s;
     continue_epoch := continue_epoch s; v_epoch := v_epoch s; v_step := v_step s;
     v_loss := Some x; v_val_loss := v_val_loss s; saves := saves s |}.
Definition set_val_loss (x : scalar) (s : state) : state :=
  {| fs := fs s; gen := gen s; log := log s; model := model s; optimizer := optimizer s;
     continue_epoch := continue_epoch s; v_epoch := v_epoch s; v_step := v_step s;
     v_loss := v_loss s; v_val_loss := Some x; saves := saves s |}.
Definition set_saves (x : list string) (s : state) : state :=
  {| fs := fs s; gen := gen s; log := log s; model := model s; optimizer := optimizer s;
     continue_epoch := continue_epoch s; v_epoch := v_epoch s; v_step := v_step s;
     v_loss := v_loss s; v_val_loss := v_val_loss s; saves := x |}.

(** [logging.info] and [logging.exception] *)
Definition logging (r : log_record) : M state unit :=
  modify (fun s => set_log (r :: log s) s).

(** Reading a local of [main] that no statement has bound yet. *)
Definition local {A} (x : string) (v : state -> option A) : M state A :=
  fun s =>
    match v s with
    | Some a => (Ok a, s)
    | None => (Raise (UnboundLocalError x), s)
    end.

(** *** Resumption (lines 94 to 115) *)

(** [torch.load(fp)] *)
Definition torch_load (fp : string) : M state pyobj :=
  d ← gets fs;
  match open_path d fp with
  | None => raise FileNotFoundError
  | Some Corrupt => raise RuntimeError
  | Some (Pickled o) => mret o
  end.

(** [checkpoint[key]] *)
Definition getitem (checkpoint : pyobj) (key : string) : M state pyval :=
  match checkpoint with
  | ODict d =>
      match d !! key with
      | Some v => mret v
      | None => raise (KeyError key)
      end
  | OOther _ => raise TypeError
  end.

(** [model.load_state_dict(v)] *)
Definition load_model (v : pyval) : M state unit :=
  match v with
  | VStateDict sd =>
      m ← gets model;
      let '(m', err) := model_load_state_dict m sd in
      modify (set_model m');;
      match err with
      | Some e => raise e
      | None => mret tt
      end
  | _ => raise AttributeError
  end.

(** [optimizer.load_state_dict(v)] *)
Definition load_optimizer (v : pyval) : M state unit :=
  match v with
  | VStateDict sd =>
      o ← gets optimizer;
      let '(o', err) := optimizer_load_state_dict o sd in
      modify (set_optimizer o');;
      match err with
      | Some e => raise e
      | None => mret tt
      end
  | _ => raise AttributeError
  end.

(** [continue_loss.data.cpu().numpy()] *)
Definition tensor_data (v : pyval) : M state tensor0 :=
  match v with
  | VTensor t => mret t
  | _ => raise AttributeError
  end.

(** Lines 97 to 100 on a directory: the path of the latest checkpoint. *)
Definition latest_path (d : directory) : outcome string :=
  let checkpoint_fps := glob_checkpoints d in
  if decide (length checkpoint_fps = 0%nat) then Raise FileNotFoundError
  else
    match last (Natsort.natsorted checkpoint_fps) with
    | Some checkpoint_fp => Ok checkpoint_fp
    | None => Raise FileNotFoundError
    end.

Definition latest_checkpoint : M state string :=
  d ← gets fs;
  lift (latest_path d).

(** Lines 97 to 104: find and read the latest checkpoint, restore the model
    and the optimizer from it. *)
Definition restore_state : M state (string * pyobj) :=
  checkpoint_fp ← latest_checkpoint;
  checkpoint ← torch_load checkpoint_fp;
  v ← getitem checkpoint "model_state_dict";
  load_model v;;
  v ← getitem checkpoint "optimizer_state_dict";
  load_optimizer v;;
  mret (checkpoint_fp, checkpoint).

(** Lines 105 to 112: the epoch to continue from, the loss, two records. *)
Definition restore_position (r : string * pyobj) : M state unit :=
  e ← getitem r.2 "epoch";
  modify (set_continue_epoch e);;
  continue_loss ← getitem r.2 "loss";
  logging (LogLoadCheckpoint r.1);;
  l ← tensor_data continue_loss;
  logging (LogContinue e l).

(** The body of the [try] (lines 97 to 112). *)
Definition restore : M state unit :=
  r ← restore_state;
  restore_position r.

(** Lines 94 to 115. *)
Definition resume (args : Args) : M state unit :=
  modify (set_continue_epoch (VInt 0));;
  if continue_training args then
    try_except restore (fun e => logging (LogLoadFailed e));;
    e ← gets continue_epoch;
    logging (LogContinueFrom e)
  else mret tt.

(** *** The loop (lines 117 to 154) and the last save (lines 155 to 160) *)

Record env := {
  all_set : list sample;
  parts : split;
  train_loader : DataLoader;
  val_loader : DataLoader;
}.

(** One pass over a loader that returns: the batches, in a fresh random
    order when the loader shuffles.  (A batch size beyond [sys.maxsize]
    makes the pass of the real loader raise; such a pass has not returned.) *)
Definition iterate (dl : DataLoader) : M state (list (list sample)) :=
  if dl_shuffle dl then
    g ← gets gen;
    let '(perm, g') := randperm g (length (dl_dataset dl)) in
    modify (set_gen g');;
    mret (batches (dl_batch_size dl) (subset (dl_dataset dl) perm))
  else mret (batches (dl_batch_size dl) (dl_dataset dl)).

(** Lines 119 to 126, for one batch. *)
Definition train_batch (step_x : nat * list sample) : M state unit :=
  modify (set_step (Z.of_nat step_x.1));;
  m ← gets model;
  o ← gets optimizer;
  let '(m', o', loss) := train_step m o step_x.2 in
  modify (set_loss loss);;
  modify (set_model m');;
  modify (set_optimizer o').

(** Lines 132 to 139, for one batch of the validation loader. *)
Definition validate_batch (val_x : list sample) : M state unit :=
  m ← gets model;
  modify (set_val_loss (FloatScalar (forward_loss m val_x))).

(** The dictionary a checkpoint holds. *)
Definition checkpoint_of (epoch : Z) (loss : tensor0) (m : Module_) (o : Optimizer)
    : file :=
  Pickled (ODict
    (<["epoch" := VInt epoch]>
      (<["loss" := VTensor loss]>
        (<["model_state_dict" := VStateDict (model_state_dict m)]>
          (<["optimizer_state_dict" := VStateDict (optimizer_state_dict o)]> ∅))))).

(** [torch.save({...}, f'model_saved/checkpoint_epoch_{epoch}.pt')] *)
Definition save_checkpoint : M state unit :=
  epoch ← local "epoch" v_epoch;
  loss ← local "loss" v_loss;
  m ← gets model;
  o ← gets optimizer;
  modify (fun s =>
    set_saves (checkpoint_name epoch :: saves s)
      (set_fs (dir_write (checkpoint_name epoch) (checkpoint_of epoch loss m o) (fs s)) s)).

(** The body of the loop over epochs. *)
Definition train_epoch (args : Args) (E : env) (epoch : Z) : M state unit :=
  modify (set_epoch epoch);;
  bs ← iterate (train_loader E);
  for_each (zip (seq 0 (length bs)) bs) train_batch;;
  r ← py_mod epoch (log_interval args);
  (if decide (r = 0) then
     (if negb (eval_val args) then modify (set_val_loss (IntScalar (-1)))
      else
        modify (fun s => set_model (eval_mode (model s)) s);;
        vbs ← iterate (val_loader E);
        for_each vbs validate_batch;;
        modify (fun s => set_model (train_mode (model s)) s));;
     step ← local "step" v_step;
     loss ← local "loss" v_loss;
     val_loss ← local "val_loss" v_val_loss;
     logging (LogEpoch epoch (epoch * loader_len (train_loader E) + step) loss val_loss)
   else mret tt);;
  r ← py_mod epoch (save_interval args);
  if decide (r = 0) then save_checkpoint else mret tt.

(** Lines 117 to 154. *)
Definition train_loop (args : Args) (E : env) : M state unit :=
  modify (fun s => set_model (train_mode (model s)) s);;
  e ← gets continue_epoch;
  match e with
  | VInt continue_epoch => for_each (range continue_epoch (epoch args)) (train_epoch args E)
  | _ => raise TypeError
  end.

(** *** The whole of [main] *)

Record world := {
  train_file : npy;
  model_saved : directory;
  default_generator : generator;
  os_entropy : Z;
}.

(** What a run leaves behind. *)
Record final := {
  f_result : outcome unit;
  f_model_saved : directory;
  f_log : list log_record;
}.

(** Lines 66 to 87: the data set, its partition and the two loaders. *)
Definition prepare (args : Args) (w : world) : M generator env :=
  match train_file w with
  | NpyMissing => raise FileNotFoundError
  | NpyArray rows =>
      p ← partition (length rows) (os_entropy w);
      match new_DataLoader (subset rows (train_set p)) (batch_size args) true
              (num_workers args) with
      | Raise e => raise e
      | Ok tl =>
          match new_DataLoader (subset rows (val_set p))
                  (Z.of_nat (length (val_set p))) false 0 with
          | Raise e => raise e
          | Ok vl =>
              mret {| all_set := rows; parts := p; train_loader := tl; val_loader := vl |}
          end
      end
  end.

(** The state at line 94. *)
Definition init_state (args : Args) (w : world) (E : env) (g : generator) : state :=
  let '(m, g') := AutoEncoder args g in
  {| fs := model_saved w; gen := g';
     log := [LogModel m;
             LogTestLen (length (test_set (parts E)));
             LogValLen (length (val_set (parts E)));
             LogTrainLen (length (train_set (parts E)));
             LogArgs args];
     model := m; optimizer := Adam m (lr args);
     continue_epoch := VInt 0;
     v_epoch := None; v_step := None; v_loss := None; v_val_loss := None;
     saves := [] |}.

(** Lines 94 to 160. *)
Definition run (args : Args) (E : env) : M state unit :=
  resume args;;
  train_loop args E;;
  save_checkpoint.

(** [torch.optim.Adam] raises [ValueError] on a negative learning rate
    (line 91). *)
Definition lr_rejected (args : Args) : bool :=
  match lr args with
  | Some z => z <? 0
  | None => false
  end.

Definition main (args : Args) (w : world) : final :=
  match prepare args w (default_generator w) with
  | (Raise e, _) =>
      {| f_result := Raise e; f_model_saved := model_saved w; f_log := [LogArgs args] |}
  | (Ok E, g) =>
      if lr_rejected args then
        {| f_result := Raise ValueError; f_model_saved := model_saved w;
           f_log := log (init_state args w E g) |}
      else
        let '(r, s) := run args E (init_state args w E g) in
        {| f_result := r; f_model_saved := fs s; f_log := log s |}
  end.

End Train.

(** ** Predicates of the statements *)

Section Predicates.
Context {TT : TorchTypes} {T : Torch}.

(** A record of an epoch carries [torch.tensor(-1)] as validation loss. *)
Definition sentinel_record (r : log_record) : Prop :=
  match r with
  | LogEpoch _ _ _ v => v = IntScalar (-1)
  | _ => True
  end.

Definition sentinel_log (s : state) : Prop := Forall sentinel_record (log s).

(** The locals a pass over a non-empty training loader binds. *)
Definition bound_at (e : Z) (s : state) : Prop :=
  v_epoch s = Some e /\ is_Some (v_step s) /\ is_Some (v_loss s).

(** A pass over a loader changes no local of the loop. *)
Definition same_locals (s s' : state) : Prop :=
  v_epoch s' = v_epoch s /\ v_step s' = v_step s /\
  v_loss s' = v_loss s /\ v_val_loss s' = v_val_loss s.



(** What makes the restoration fail after the model state has loaded and
    before the epoch is read. *)
Inductive later_failure (o : Optimizer) (d : gmap string pyval) : Prop :=
| optimizer_state_missing :
    d !! "optimizer_state_dict" = None -> later_failure o d
| optimizer_state_malformed v :
    d !! "optimizer_state_dict" = Some v -> (forall sd, v <> VStateDict sd) ->
    later_failure o d
| optimizer_state_rejected sd o' e :
    d !! "optimizer_state_dict" = Some (VStateDict sd) ->
    optimizer_load_state_dict o sd = (o', Some e) ->
    later_failure o d
| epoch_missing :
    d !! "epoch" = None -> later_failure o d.

End Predicates.

(** ** Traces of the loop *)

Section Traces.
Context {TT : TorchTypes} {T : Torch}.

(** The epoch and the total step of every epoch record of a log. *)
Definition epoch_steps (l : list log_record) : list (Z * Z) :=
  omap (fun r => match r with
                 | LogEpoch e total_step _ _ => Some (e, total_step)
                 | _ => None
                 end) l.

(** What a pass over a loader leaves alone: the directory, the log and the
    locals [epoch], [step] and [loss]. *)
Definition same_trace (s s' : state) : Prop :=
  fs s' = fs s /\ log s' = log s /\
  v_epoch s' = v_epoch s /\ v_step s' = v_step s /\ v_loss s' = v_loss s.

(** How an epoch over a non-empty training loader can end other than by
    returning. *)
Definition epoch_failure (args : Args) (E : env) (ex : exn) : Prop :=
  (ex = ZeroDivisionError /\ (log_interval args = 0 \/ save_interval args = 0)) \/
  (ex = UnboundLocalError "val_loss" /\ log_interval args <> 0 /\
   eval_val args = true /\ dl_dataset (val_loader E) = []).

End Traces.

(** ** The text of a validation loss (line 145) *)

Section Texts.
Context {TT : TorchTypes}.

(** The integer an integer tensor holds. *)
Definition int_of_scalar (v : scalar) : option Z :=
  match v with
  | IntScalar z => Some z
  | FloatScalar _ => None
  end.

End Texts.

(** [f"{z:.10f}"] on an integer, as line 145 formats the value of an integer
    tensor. *)
Definition format_10f (z : Z) : string := str_of_int z +:+ ".0000000000".

(** A decimal numeral: an optional minus sign, digits, a point, digits. *)
Definition is_numeral (t : string) : bool :=
  let u := match t with
           | String "-" r => r
           | _ => t
           end in
  match String.index 0 "." u with
  | Some i =>
      let whole := String.substring 0 i u in
      let frac := String.substring (i + 1) (String.length u - i - 1) u in
      negb (String.eqb whole "") && Natsort.all_chars Natsort.is_digit whole
      && negb (String.eqb frac "") && Natsort.all_chars Natsort.is_digit frac
  | None => false
  end.

(** ** Keys of the natural sort, compared as Python compares them *)

(** A key alternates text and numbers. *)
Fixpoint alternates (text_next : bool) (k : list Natsort.chunk) : bool :=
  match k with
  | [] => true
  | Natsort.Text _ :: k' => text_next && alternates false k'
  | Natsort.Num _ :: k' => negb text_next && alternates true k'
  end.

(** The comparison of two tuples in Python raises [TypeError] ([None] here)
    when it meets a text and a number at the same position. *)
Definition chunk_compare_strict (a b : Natsort.chunk) : option comparison :=
  match a, b with
  | Natsort.Text s, Natsort.Text t => Some (String.compare s t)
  | Natsort.Num m, Natsort.Num n => Some (N.compare m n)
  | _, _ => None
  end.

Fixpoint key_compare_strict (k1 k2 : list Natsort.chunk) : option comparison :=
  match k1, k2 with
  | [], [] => Some Eq
  | [], _ :: _ => Some Lt
  | _ :: _, [] => Some Gt
  | a :: k1', b :: k2' =>
      match chunk_compare_strict a b with
      | Some Eq => key_compare_strict k1' k2'
      | c => c
      end
  end.

(** ** The command line (lines 15 to 45)

    [argparse] hands every option its value as a string and converts it with
    the [type] of the option: [int] for the numbers, also for [--lr], and
    [bool] for the three switches.  A character is a code point below 256. *)
Module PyStr.

(** The blanks [int] skips at both ends of a string. *)
Definition is_space (c : ascii) : bool :=
  let n := nat_of_ascii c in
  ((9 <=? n) && (n <=? 13) || (n =? 32) || (n =? 133) || (n =? 160))%nat.

(** The value of a decimal digit. *)
Definition digit (c : ascii) : option Z :=
  if Natsort.is_digit c then Some (Z.of_nat (nat_of_ascii c) - 48) else None.

Fixpoint lstrip (s : string) : string :=
  match s with
  | String c s' => if is_space c then lstrip s' else s
  | EmptyString => s
  end.

(** The digits of a numeral after its first digit, with single underscores
    between digits: the value read and what follows the numeral. *)
Fixpoint digits (after_underscore : bool) (acc : Z) (s : string) : option (Z * string) :=
  match s with
  | EmptyString => if after_underscore then None else Some (acc, s)
  | String c s' =>
      match digit c with
      | Some d => digits false (10 * acc + d) s'
      | None =>
          if after_underscore then None
          else if Ascii.eqb c "_" then digits true acc s'
          else Some (acc, s)
      end
  end.

(** [int(s)] on a string; [None] stands for [ValueError]. *)
Definition int_of_str (s : string) : option Z :=
  let s1 := lstrip s in
  let '(negative, s2) :=
    match s1 with
    | String "-" s' => (true, s')
    | String "+" s' => (false, s')
    | _ => (false, s1)
    end in
  match s2 with
  | String c s3 =>
      match digit c with
      | Some d =>
          match digits false d s3 with
          | Some (v, rest) =>
              if Natsort.all_chars is_space rest
              then Some (if negative then - v else v) else None
          | None => None
          end
      | None => None
      end
  | EmptyString => None
  end.

(** [bool(s)] on a string: only the empty string is false. *)
Definition bool_of_str (s : string) : bool :=
  match s with
  | EmptyString => false
  | String _ _ => true
  end.

(** The characters of which a string that [int] accepts is made. *)
Definition int_char (c : ascii) : bool :=
  is_space c || bool_decide (is_Some (digit c))
  || Ascii.eqb c "+" || Ascii.eqb c "-" || Ascii.eqb c "_".

(** The value of a numeral read after the value [acc]. *)
Fixpoint uint_val (acc : Z) (u : Decimal.uint) : Z :=
  match u with
  | Decimal.Nil => acc
  | Decimal.D0 u => uint_val (10 * acc + 0) u
  | Decimal.D1 u => uint_val (10 * acc + 1) u
  | Decimal.D2 u => uint_val (10 * acc + 2) u
  | Decimal.D3 u => uint_val (10 * acc + 3) u
  | Decimal.D4 u => uint_val (10 * acc + 4) u
  | Decimal.D5 u => uint_val (10 * acc + 5) u
  | Decimal.D6 u => uint_val (10 * acc + 6) u
  | Decimal.D7 u => uint_val (10 * acc + 7) u
  | Decimal.D8 u => uint_val (10 * acc + 8) u
  | Decimal.D9 u => uint_val (10 * acc + 9) u
  end.

Ltac digit_values :=
  repeat match goal with
         | |- context [digit (Ascii ?a ?b ?c ?d ?e ?f ?g ?h)] =>
             let v := eval vm_compute in (digit (Ascii a b c d e f g h)) in
             change (digit (Ascii a b c d e f g h)) with v
         end.

End PyStr.

(** The value given to each option on the command line, if any. *)
Record raw_args := {
  raw_epoch : option string;
  raw_batch_size : option string;
  raw_lr : option string;
  raw_log_interval : option string;
  raw_save_interval : option string;
  raw_signal_len : option string;
  raw_latent_dim : option string;
  raw_eval_val : option string;
  raw_continue_training : option string;
  raw_use_gpu : option string;
  raw_num_workers : option string;
}.

(** [parse_args] returns the namespace, with the device of line 44, or
    [argparse] ends the process with status 2 on a value that the [type] of
    its option rejects. *)
Inductive parsed :=
| Namespace (args : Args) (device : string)
| SystemExit (code : Z).

(** An option of [type=int]: the default, or the value converted. *)
Definition int_option (default : Z) (raw : option string) : option Z :=
  match raw with
  | None => Some default
  | Some s => PyStr.int_of_str s
  end.

(** An option of [type=bool]. *)
Definition bool_option (default : bool) (raw : option string) : bool :=
  match raw with
  | None => default
  | Some s => PyStr.bool_of_str s
  end.

Definition parse_args (cuda_is_available : bool) (r : raw_args) : parsed :=
  match int_option 100000 (raw_epoch r), int_option 1000 (raw_batch_size r),
        match raw_lr r with
        | None => Some None
        | Some s => Some <$> PyStr.int_of_str s
        end,
        int_option 10 (raw_log_interval r), int_option 100 (raw_save_interval r),
        int_option 60 (raw_signal_len r), int_option 6 (raw_latent_dim r),
        int_option 0 (raw_num_workers r) with
  | Some epoch, Some batch_size, Some lr, Some log_interval, Some save_interval,
    Some signal_len, Some latent_dim, Some num_workers =>
      let use_gpu := bool_option true (raw_use_gpu r) in
      Namespace
        {| epoch := epoch; batch_size := batch_size; lr := lr;
           log_interval := log_interval; save_interval := save_interval;
           signal_len := signal_len; latent_dim := latent_dim;
           eval_val := bool_option true (raw_eval_val r);
           continue_training := bool_option false (raw_continue_training r);
           use_gpu := use_gpu; num_workers := num_workers |}
        (if use_gpu && cuda_is_available then "cuda" else "cpu")
  | _, _, _, _, _, _, _, _ => SystemExit 2
  end.

(** ** A small instance of the interface

    Rows, weights, losses and generator states are integers; the generator
    alternates between the identity and the reversal; a state dictionary is
    rejected when it is negative. *)
Module Toy.

Definition sum (x : list Z) : Z := foldr Z.add 0 x.

Definition perm (g : Z) (n : nat) : list nat * Z :=
  (if Z.even g then seq 0 n else rev (seq 0 n), g + 1).

Lemma perm_Permutation g n : Permutation (perm g n).1 (seq 0 n).
Proof.
  unfold perm; simpl. destruct (Z.even g); [reflexivity|].
  symmetry. apply Permutation_rev.
Qed.

Definition load (old new : Z) : Z * option exn :=
  if new <? 0 then (old, Some RuntimeError) else (new, None).

#[global] Instance types : TorchTypes := {|
  sample := Z;
  tensor0 := Z;
  state_dict := Z;
  Module_ := Z;
  Optimizer := Z;
  generator := Z;
|}.

#[global] Instance torch : Torch := {|
  manual_seed := fun z => z;
  randperm := perm;
  randperm_Permutation := perm_Permutation;
  AutoEncoder := fun _ g => (g mod 2, g + 1);
  Adam := fun _ _ => 0;
  train_mode := fun m => m;
  eval_mode := fun m => m;
  train_step := fun m o x => (m + 1, o + 1, sum x + m);
  forward_loss := fun m x => sum x - m;
  model_state_dict := fun m => m;
  optimizer_state_dict := fun o => o;
  model_load_state_dict := load;
  optimizer_load_state_dict := load;
|}.

Definition rows (n : nat) : list Z := (fun i : nat => Z.of_nat i) <$> seq 0 n.

Definition world_of (n : nat) (entropy : Z) : world := {|
  train_file := NpyArray (rows n);
  model_saved := [];
  default_generator := 7;
  os_entropy := entropy;
|}.

Definition world0 (n : nat) : world := world_of n 12.

(** A world without [normal.npy]. *)
Definition world_missing : world := {|
  train_file := NpyMissing;
  model_saved := [];
  default_generator := 7;
  os_entropy := 12;
|}.

(** Three epochs over 20 rows, a record and a checkpoint at every epoch. *)
Definition args0 : Args := {|
  epoch := 3; batch_size := 4; lr := None;
  log_interval := 1; save_interval := 1;
  signal_len := 60; latent_dim := 6;
  eval_val := true; continue_training := false; use_gpu := false;
  num_workers := 0;
|}.

(** What [prepare] builds for [args0] over [world0 20]. *)
Definition env0 : env := {|
  all_set := rows 20;
  parts := {| train_set := seq 0 16; val_set := [16; 17]%nat; test_set := [18; 19]%nat |};
  train_loader := {| dl_dataset := rows 16; dl_batch_size := 4; dl_shuffle := true |};
  val_loader := {| dl_dataset := [16; 17]; dl_batch_size := 2; dl_shuffle := false |};
|}.

(** The state at line 94 over a given directory. *)
Definition state_over (d : directory) : state := {|
  fs := d; gen := 13; log := []; model := 0; optimizer := 0;
  continue_epoch := VInt 0;
  v_epoch := None; v_step := None; v_loss := None; v_val_loss := None;
  saves := [];
|}.

(** The directory a first run of three epochs leaves. *)
Definition saved0 : directory := Eval vm_compute in f_model_saved (main args0 (world0 20)).

Definition with_epochs (n : Z) (resume : bool) (a : Args) : Args := {|
  epoch := n; batch_size := batch_size a; lr := lr a;
  log_interval := log_interval a; save_interval := save_interval a;
  signal_len := signal_len a; latent_dim := latent_dim a;
  eval_val := eval_val a; continue_training := resume; use_gpu := use_gpu a;
  num_workers := num_workers a;
|}.

(** Five epochs, resuming. *)
Definition args1 : Args := with_epochs 5 true args0.

(** Three epochs, a checkpoint every five epochs, no validation. *)
Definition args2 : Args := {|
  epoch := 3; batch_size := 4; lr := None;
  log_interval := 1; save_interval := 5;
  signal_len := 60; latent_dim := 6;
  eval_val := false; continue_training := false; use_gpu := false;
  num_workers := 0;
|}.

(** The dictionary of a checkpoint. *)
Definition dict (e : Z) (loss : Z) (m o : option Z) : gmap string pyval :=
  let d0 : gmap string pyval := <["epoch" := VInt e]> ∅ in
  let d1 := if loss <? 0 then d0 else <["loss" := VTensor loss]> d0 in
  let d2 := match m with Some x => <["model_state_dict" := VStateDict x]> d1 | None => d1 end in
  match o with Some x => <["optimizer_state_dict" := VStateDict x]> d2 | None => d2 end.

(** A checkpoint of epoch 5 without a loss. *)
Definition lossless : directory :=
  [("checkpoint_epoch_5.pt", Pickled (ODict (dict 5 (-1) (Some 42) (Some 3))))].

(** A checkpoint of epoch 5 whose optimizer state is rejected. *)
Definition half_good : directory :=
  [("checkpoint_epoch_5.pt", Pickled (ODict (dict 5 8 (Some 42) (Some (-3)))))].

(** Checkpoints of the epochs 5, 10 and 100, in directory order. *)
Definition three : directory :=
  [("checkpoint_epoch_100.pt", Corrupt); ("checkpoint_epoch_5.pt", Corrupt);
   ("checkpoint_epoch_10.pt", Corrupt)].

(** The states a first run of three epochs goes through: after its first
    epoch, after its loop, at its end. *)
Definition epoch0 : state := Eval vm_compute in (train_epoch args0 env0 0 (state_over [])).2.
Definition looped0 : state := Eval vm_compute in (train_loop args0 env0 (state_over [])).2.
Definition final0 : state := Eval vm_compute in (run args0 env0 (state_over [])).2.


(** The arguments of the first run with [--lr -1]. *)
Definition args_negative_lr : Args := {|
  epoch := 3; batch_size := 4; lr := Some (-1);
  log_interval := 1; save_interval := 1;
  signal_len := 60; latent_dim := 6;
  eval_val := true; continue_training := false; use_gpu := false;
  num_workers := 0;
|}.

(** The checkpoints of the first run and a later one that cannot be read. *)
Definition stale : directory := saved0 ++ [("checkpoint_epoch_10.pt", Corrupt)].

(** A checkpoint whose epoch is a string. *)
Definition odd_epoch : directory :=
  [("checkpoint_epoch_5.pt",
    Pickled (ODict (<["epoch" := VStr "5"]> (dict 5 8 (Some 42) (Some 3)))))].


(** The command line [--eval_val False --continue_training False
    --use_gpu False]. *)
Definition raw_switches : raw_args := {|
  raw_epoch := None; raw_batch_size := None; raw_lr := None;
  raw_log_interval := None; raw_save_interval := None;
  raw_signal_len := None; raw_latent_dim := None;
  raw_eval_val := Some "False"; raw_continue_training := Some "False";
  raw_use_gpu := Some "False";
  raw_num_workers := None;
|}.

(** The command line [--lr 0.001]. *)
Definition raw_lr_fraction : raw_args := {|
  raw_epoch := None; raw_batch_size := None; raw_lr := Some "0.001";
  raw_log_interval := None; raw_save_interval := None;
  raw_signal_len := None; raw_latent_dim := None;
  raw_eval_val := None; raw_continue_training := None; raw_use_gpu := None;
  raw_num_workers := None;
|}.

End Toy.


(** * Facts

    ** Truncated float products against integer division *)
Module PyFloatFacts.
Import PyFloat.

Lemma iter_pos_nat {A} (f : A -> A) p x :
  SpecFloat.iter_pos f p x = Nat.iter (Pos.to_nat p) f x.
Proof.
  revert x; induction p as [p IH|p IH|]; intros x; cbn [SpecFloat.iter_pos].
  - rewrite !IH, Pos2Nat.inj_xI.
    replace (S (2 * Pos.to_nat p))%nat with (Pos.to_nat p + (Pos.to_nat p + 1))%nat by lia.
    rewrite !Nat.iter_add. reflexivity.
  - rewrite !IH, Pos2Nat.inj_xO.
    replace (2 * Pos.to_nat p)%nat with (Pos.to_nat p + Pos.to_nat p)%nat by lia.
    rewrite Nat.iter_add. reflexivity.
  - reflexivity.
Qed.

Lemma shr_1_m mrs : 0 <= shr_m mrs -> shr_m (shr_1 mrs) = shr_m mrs / 2.
Proof.
  destruct mrs as [m r s]; simpl; intros Hm.
  destruct m as [|[p|p|]|p]; simpl; try reflexivity; try lia.
  - rewrite Pos2Z.inj_xI. apply Z.div_unique with 1; lia.
  - rewrite Pos2Z.inj_xO. apply Z.div_unique with 0; lia.
Qed.

Lemma shr_iter_m n mrs :
  0 <= shr_m mrs -> shr_m (Nat.iter n shr_1 mrs) = shr_m mrs / 2 ^ Z.of_nat n.
Proof.
  intros Hm. induction n as [|n IH].
  - simpl. now rewrite Z.div_1_r.
  - rewrite Nat.iter_succ, shr_1_m, IH.
    + rewrite Nat2Z.inj_succ, Z.pow_succ_r by lia.
      rewrite Z.div_div by lia. f_equal; lia.
    + rewrite IH. apply Z.div_pos; lia.
Qed.

Lemma digits2_log2 p : Zpos (digits2_pos p) = Z.log2 (Zpos p) + 1.
Proof.
  induction p as [p IH|p IH|]; simpl; try reflexivity.
  - rewrite Pos2Z.inj_succ, IH. destruct p; simpl; lia.
  - rewrite Pos2Z.inj_succ, IH. destruct p; simpl; lia.
Qed.


Lemma log2_bounds m : 0 < m -> 2 ^ Z.log2 m <= m < 2 ^ (Z.log2 m + 1).
Proof. intros Hm. generalize (Z.log2_spec m Hm). rewrite <- Z.add_1_r. tauto. Qed.

Lemma round_nearest_even_range m l :
  round_nearest_even m l = m \/ round_nearest_even m l = m + 1.
Proof. destruct l as [|[| |]]; simpl; auto. destruct (Z.even m); auto. Qed.

Lemma shr_record_of_loc_m m l : shr_m (shr_record_of_loc m l) = m.
Proof. destruct l as [|[| |]]; reflexivity. Qed.

Lemma shr_fexp_spec m e l :
  0 < m -> 0 <= Z.log2 m + 1 - 53 -> -1074 <= e + (Z.log2 m + 1 - 53) ->
  shr_m (fst (shr_fexp 53 1024 m e l)) = m / 2 ^ (Z.log2 m + 1 - 53) /\
  snd (shr_fexp 53 1024 m e l) = e + (Z.log2 m + 1 - 53).
Proof.
  intros Hm Hs He. unfold shr_fexp, fexp, emin.
  assert (Hd : Zdigits2 m = Z.log2 m + 1).
  { destruct m as [|p|p]; try lia. apply digits2_log2. }
  rewrite Hd.
  replace (Z.max (Z.log2 m + 1 + e - 53) (3 - 1024 - 53) - e)
    with (Z.log2 m + 1 - 53) by lia.
  destruct (Z.log2 m + 1 - 53) as [|p|p] eqn:Es; try lia; unfold shr.
  - simpl. rewrite shr_record_of_loc_m, Z.div_1_r. lia.
  - cbn [fst snd]. rewrite iter_pos_nat, shr_iter_m, shr_record_of_loc_m.
    + rewrite positive_nat_Z. lia.
    + rewrite shr_record_of_loc_m. lia.
Qed.

(** Shape of a correctly rounded positive result in the normal range: the
    mantissa [m] loses its [s] low bits and is rounded to [q], one of the two
    neighbours of [m / 2 ^ s]. *)
Lemma binary_round_aux_spec m e l :
  0 < m -> 0 <= Z.log2 m + 1 - 53 ->
  -1074 <= e + (Z.log2 m + 1 - 53) -> e + (Z.log2 m + 1 - 53) < 971 ->
  exists m' e' q,
    binary_round_aux 53 1024 false m e l = S754_finite false m' e' /\
    (q = m / 2 ^ (Z.log2 m + 1 - 53) \/ q = m / 2 ^ (Z.log2 m + 1 - 53) + 1) /\
    e + (Z.log2 m + 1 - 53) <= e' /\
    Zpos m' * 2 ^ (e' - (e + (Z.log2 m + 1 - 53))) = q.
Proof.
  intros Hm Hs He He'. set (s := Z.log2 m + 1 - 53) in *.
  destruct (shr_fexp_spec m e l Hm Hs He) as [H1 H2]. fold s in H1, H2.
  unfold binary_round_aux.
  destruct (shr_fexp 53 1024 m e l) as [mrs1 e1]. cbn [fst snd] in H1, H2. subst e1.
  set (q := round_nearest_even (shr_m mrs1) (loc_of_shr_record mrs1)).
  assert (Hq : q = m / 2 ^ s \/ q = m / 2 ^ s + 1).
  { unfold q. rewrite <- H1. apply round_nearest_even_range. }
  clearbody q.
  destruct (log2_bounds m Hm) as [Hlo Hhi].
  assert (Hms : 2 ^ 52 <= m / 2 ^ s < 2 ^ 53).
  { assert (Hp : 0 < 2 ^ s) by (apply Z.pow_pos_nonneg; lia).
    split.
    - apply Z.div_le_lower_bound; [lia|].
      rewrite <- Z.pow_add_r by lia. replace (s + 52) with (Z.log2 m) by lia. lia.
    - apply Z.div_lt_upper_bound; [lia|].
      rewrite <- Z.pow_add_r by lia. replace (s + 53) with (Z.log2 m + 1) by lia. lia. }
  assert (Hq0 : 0 < q) by lia.
  assert (Hlq : Z.log2 q = 52 \/ q = 2 ^ 53).
  { destruct (Z.eq_dec q (2 ^ 53)) as [->|Hne]; [now right|left].
    apply Z.log2_unique; lia. }
  assert (Hs2 : 0 <= Z.log2 q + 1 - 53 <= 1).
  { destruct Hlq as [->| ->]; [lia|]. rewrite Z.log2_pow2 by lia. lia. }
  destruct (shr_fexp_spec q (e + s) loc_Exact Hq0) as [H3 H4]; try lia.
  destruct (shr_fexp 53 1024 q (e + s) loc_Exact) as [mrs2 e2].
  cbn [fst snd] in H3, H4. subst e2. rewrite H3.
  destruct Hlq as [Hl|Hl].
  - rewrite Hl. change (2 ^ (52 + 1 - 53)) with 1. rewrite Z.div_1_r.
    destruct q as [|q'|q']; try lia.
    replace (e + s + (52 + 1 - 53) <=? 1024 - 53) with true
      by (symmetry; apply Z.leb_le; lia).
    exists q', (e + s + (52 + 1 - 53)), (Zpos q'). repeat split; try lia.
    replace (e + s + (52 + 1 - 53) - (e + s)) with 0 by lia. lia.
  - rewrite Hl. rewrite Z.log2_pow2 by lia.
    change (2 ^ 53 / 2 ^ (53 + 1 - 53)) with (Zpos 4503599627370496).
    cbv iota.
    replace (e + s + (53 + 1 - 53) <=? 1024 - 53) with true
      by (symmetry; apply Z.leb_le; lia).
    exists 4503599627370496%positive, (e + s + (53 + 1 - 53)), q. repeat split; try lia.
    replace (e + s + (53 + 1 - 53) - (e + s)) with 1 by lia. rewrite Hl. reflexivity.
Qed.

Lemma trunc_finite m' e' e0 q :
  e0 <= e' -> e0 <= 0 -> Zpos m' * 2 ^ (e' - e0) = q ->
  trunc (S754_finite false m' e') = Some (q / 2 ^ (- e0)).
Proof.
  intros H1 H2 <-. unfold trunc. f_equal.
  destruct (Z.leb_spec 0 e') as [H|H].
  - replace (e' - e0) with (e' + - e0) by lia.
    rewrite Z.pow_add_r by lia. rewrite Z.mul_assoc.
    rewrite Z.div_mul; [reflexivity|]. apply Z.pow_nonzero; lia.
  - replace (- e0) with ((e' - e0) + - e') by lia.
    rewrite Z.pow_add_r by lia.
    rewrite (Z.mul_comm (Zpos m')).
    rewrite Z.div_mul_cancel_l; [reflexivity| |]; apply Z.pow_nonzero; lia.
Qed.


Lemma binary_round_aux_exact m e :
  Z.log2 (Zpos m) = 52 -> -1074 <= e <= 971 ->
  binary_round_aux 53 1024 false (Zpos m) e loc_Exact = S754_finite false m e.
Proof.
  intros Hl He. unfold binary_round_aux.
  assert (Hsh : shr_fexp 53 1024 (Zpos m) e loc_Exact =
                (Build_shr_record (Zpos m) false false, e)).
  { unfold shr_fexp, fexp, emin. cbn [Zdigits2 shr_record_of_loc].
    rewrite digits2_log2, Hl.
    replace (Z.max (52 + 1 + e - 53) (3 - 1024 - 53) - e) with 0 by lia.
    reflexivity. }
  rewrite Hsh. cbn [shr_m loc_of_shr_record round_nearest_even]. rewrite Hsh.
  cbn [shr_m]. destruct (Z.leb_spec e (1024 - 53)); [reflexivity|lia].
Qed.

Lemma float_of_int_small n :
  0 < n < 2 ^ 53 ->
  exists m, float_of_int n = S754_finite false m (Z.log2 n - 52) /\
            Zpos m = n * 2 ^ (52 - Z.log2 n) /\ Z.log2 (Zpos m) = 52.
Proof.
  intros [Hn Hlt]. destruct n as [|p|p]; try lia.
  assert (Hl : 0 <= Z.log2 (Zpos p) < 53).
  { split; [apply Z.log2_nonneg|]. apply Z.log2_lt_pow2; lia. }
  unfold float_of_int, binary_normalize, binary_round, fexp, emin.
  rewrite digits2_log2.
  replace (Z.max (Z.log2 (Zpos p) + 1 + 0 - 53) (3 - 1024 - 53))
    with (Z.log2 (Zpos p) - 52) by lia.
  unfold shl_align.
  destruct (Z.log2 (Zpos p) - 52 - 0) as [|d|d] eqn:Ed; try lia.
  - assert (El : Z.log2 (Zpos p) = 52) by lia.
    rewrite binary_round_aux_exact by lia.
    exists p. rewrite El. repeat split; try lia.
  - fold (shift_pos d p).
    assert (Hv : Zpos (shift_pos d p) = Zpos p * 2 ^ (52 - Z.log2 (Zpos p))).
    { rewrite shift_pos_correct. replace (52 - Z.log2 (Zpos p)) with (Zpos d) by lia.
      rewrite Z.mul_comm. reflexivity. }
    assert (Hlog : Z.log2 (Zpos (shift_pos d p)) = 52).
    { rewrite Hv, Z.log2_mul_pow2 by lia. lia. }
    rewrite binary_round_aux_exact by lia.
    exists (shift_pos d p). auto.
Qed.

(** Truncating the correctly rounded product of a small positive integer and a
    binary64 constant [c * 2 ^ (- E)]. *)
Lemma trunc_mul_small n c E K :
  0 < n < 2 ^ 53 -> Z.log2 (Zpos c) = 52 -> 53 <= E <= 1000 ->
  K * 2 ^ E <= n * Zpos c ->
  n * Zpos c + 2 ^ (Z.log2 n + 1) < (K + 1) * 2 ^ E ->
  trunc (mul (float_of_int n) (S754_finite false c (- E))) = Some K.
Proof.
  intros Hn Hc HE Hlo Hhi.
  destruct (float_of_int_small n Hn) as (mn & -> & Hmn & Hln).
  assert (Hl : 0 <= Z.log2 n < 53).
  { split; [apply Z.log2_nonneg|]. apply Z.log2_lt_pow2; lia. }
  unfold mul, SFmul. cbn [xorb]. rewrite Pos2Z.inj_mul.
  set (m := Zpos mn * Zpos c). set (e := Z.log2 n - 52 + - E).
  destruct (log2_bounds (Zpos mn) eq_refl) as [Hmn1 Hmn2].
  destruct (log2_bounds (Zpos c) eq_refl) as [Hc1 Hc2].
  rewrite Hln in Hmn1, Hmn2. rewrite Hc in Hc1, Hc2.
  assert (Hm : 2 ^ 104 <= m < 2 ^ 106).
  { unfold m. change (2 ^ 104) with (2 ^ 52 * 2 ^ 52).
    change (2 ^ 106) with (2 ^ 53 * 2 ^ 53).
    change (52 + 1) with 53 in *. nia. }
  assert (Hlm : 104 <= Z.log2 m <= 105).
  { split.
    - apply Z.log2_le_pow2; lia.
    - assert (Z.log2 m < 106) by (apply Z.log2_lt_pow2; lia). lia. }
  destruct (binary_round_aux_spec m e loc_Exact) as (m' & e' & q & -> & Hq & He' & Hv);
    try (unfold e; lia).
  set (s := Z.log2 m + 1 - 53) in *.
  rewrite (trunc_finite m' e' (e + s) q) by (unfold e, s in *; lia).
  f_equal.
  assert (Hs : 52 <= s <= 53) by (unfold s; lia).
  assert (Ht : 0 < 2 ^ (- (e + s))) by (apply Z.pow_pos_nonneg; unfold e; lia).
  assert (Hps : 0 < 2 ^ s) by (apply Z.pow_pos_nonneg; lia).
  assert (Hsplit : 2 ^ (- (e + s)) * 2 ^ s = 2 ^ E * 2 ^ (52 - Z.log2 n)).
  { rewrite <- !Z.pow_add_r by (unfold e; lia). f_equal. unfold e. lia. }
  assert (Hk : 0 < 2 ^ (52 - Z.log2 n)) by (apply Z.pow_pos_nonneg; lia).
  assert (Hm_eq : m = n * Zpos c * 2 ^ (52 - Z.log2 n)) by (unfold m; rewrite Hmn; ring).
  assert (Hps' : 2 ^ s <= 2 ^ (Z.log2 n + 1) * 2 ^ (52 - Z.log2 n)).
  { rewrite <- Z.pow_add_r by lia. apply Z.pow_le_mono_r; lia. }
  assert (Hfloor : K * 2 ^ (- (e + s)) <= m / 2 ^ s).
  { apply Z.div_le_lower_bound; [lia|]. rewrite Hm_eq. nia. }
  assert (Hceil : m / 2 ^ s + 1 < (K + 1) * 2 ^ (- (e + s))).
  { assert (m / 2 ^ s < (K + 1) * 2 ^ (- (e + s)) - 1); [|lia].
    apply Z.div_lt_upper_bound; [lia|]. rewrite Hm_eq. nia. }
  symmetry. apply Z.div_unique with (q - K * 2 ^ (- (e + s))); nia.
Qed.

Lemma int_mul_0_8 n : 0 <= n < 2 ^ 50 -> int_mul_float n lit_0_8 = Some (4 * n / 5).
Proof.
  intros Hn. unfold int_mul_float.
  destruct (Z.eq_dec n 0) as [->|Hne]; [reflexivity|].
  apply (trunc_mul_small n 7205759403792794 53); try lia; try reflexivity.
  - generalize (Z.div_mod (4 * n) 5 ltac:(lia)) (Z.mod_pos_bound (4 * n) 5 ltac:(lia)).
    change (2 ^ 53) with 9007199254740992. lia.
  - assert (Hp : 2 ^ (Z.log2 n + 1) <= 2 ^ 50).
    { apply Z.pow_le_mono_r; [lia|]. assert (Z.log2 n < 50) by (apply Z.log2_lt_pow2; lia). lia. }
    generalize (Z.div_mod (4 * n) 5 ltac:(lia)) (Z.mod_pos_bound (4 * n) 5 ltac:(lia)).
    change (2 ^ 53) with 9007199254740992. change (2 ^ 50) with 1125899906842624 in *. lia.
Qed.

Lemma int_mul_0_1 n : 0 <= n < 2 ^ 50 -> int_mul_float n lit_0_1 = Some (n / 10).
Proof.
  intros Hn. unfold int_mul_float.
  destruct (Z.eq_dec n 0) as [->|Hne]; [reflexivity|].
  apply (trunc_mul_small n 7205759403792794 56); try lia; try reflexivity.
  - generalize (Z.div_mod n 10 ltac:(lia)) (Z.mod_pos_bound n 10 ltac:(lia)).
    change (2 ^ 56) with 72057594037927936. lia.
  - assert (Hp : 2 ^ (Z.log2 n + 1) <= 2 ^ 50).
    { apply Z.pow_le_mono_r; [lia|]. assert (Z.log2 n < 50) by (apply Z.log2_lt_pow2; lia). lia. }
    generalize (Z.div_mod n 10 ltac:(lia)) (Z.mod_pos_bound n 10 ltac:(lia)).
    change (2 ^ 56) with 72057594037927936. change (2 ^ 50) with 1125899906842624 in *. lia.
Qed.


(** The literals are the doubles nearest to 8/10 and 1/10: a correctly
    rounded division of the exact operands gives them. *)
Example lit_0_8_nearest :
  SFdiv 53 1024 (float_of_int 8) (float_of_int 10) = lit_0_8.
Proof. vm_compute. reflexivity. Qed.

Example lit_0_1_nearest :
  SFdiv 53 1024 (float_of_int 1) (float_of_int 10) = lit_0_1.
Proof. vm_compute. reflexivity. Qed.

End PyFloatFacts.

(** ** Natural sort of checkpoint paths *)
Module NatsortFacts.
Import Natsort.
#[local] Arguments String.append !s1 s2 /.

Lemma append_assoc (a b c : string) : (a +:+ b) +:+ c = a +:+ (b +:+ c).
Proof. induction a as [|x a IH]; simpl; [reflexivity|]. now rewrite IH. Qed.

Lemma append_nil_r (a : string) : a +:+ EmptyString = a.
Proof. induction a as [|x a IH]; simpl; [reflexivity|]. now rewrite IH. Qed.

(** A run of digits is read to its end. *)
Lemma scan_digits ds u s :
  all_chars is_digit u = true ->
  scan (InNum ds) (u +:+ s) = scan (InNum (ds +:+ u)) s.
Proof.
  revert ds. induction u as [|c u IH]; intros ds Hu; simpl in *.
  - now rewrite append_nil_r.
  - apply andb_prop in Hu as [Hc Hu]. rewrite Hc, IH by exact Hu.
    now rewrite append_assoc.
Qed.

Lemma digits_of_uint u : all_chars is_digit (NilEmpty.string_of_uint u) = true.
Proof. induction u; simpl; auto. Qed.

Lemma int_of_digits_of_uint u : int_of_digits (NilEmpty.string_of_uint u) = N.of_uint u.
Proof. unfold int_of_digits. now rewrite NilEmpty.usu. Qed.

(** The decimal numeral of a natural number: digits, at least one, and
    read back to the number. *)
Lemma str_of_int_nonneg z :
  0 <= z ->
  exists c ds, str_of_int z = String c ds /\ is_digit c = true /\
               all_chars is_digit ds = true /\
               int_of_digits (String c ds) = Z.to_N z.
Proof.
  intros Hz. unfold str_of_int.
  assert (Hex : exists u, Z.to_int z = Decimal.Pos u /\ u <> Decimal.Nil /\
                          N.of_uint u = Z.to_N z).
  { destruct z as [|p|p]; try lia.
    - exists (Decimal.D0 Decimal.Nil). repeat split; discriminate.
    - exists (Pos.to_uint p). repeat split.
      + apply DecimalPos.Unsigned.to_uint_nonnil.
      + simpl. unfold N.of_uint. now rewrite DecimalPos.Unsigned.of_to. }
  destruct Hex as (u & -> & Hnil & Hval). simpl.
  assert (Es : NilZero.string_of_uint u = NilEmpty.string_of_uint u)
    by (destruct u; [congruence|reflexivity..]).
  rewrite Es.
  pose proof (digits_of_uint u) as Hd.
  pose proof (int_of_digits_of_uint u) as Hi.
  destruct (NilEmpty.string_of_uint u) as [|c ds] eqn:E.
  - destruct u; simpl in E; congruence.
  - simpl in Hd. apply andb_prop in Hd as [Hc Hd].
    exists c, ds. repeat split; auto. congruence.
Qed.

(** The key of a checkpoint path: its text, the epoch, the extension. *)
Lemma natsort_key_checkpoint_path z :
  0 <= z ->
  natsort_key (checkpoint_path z) =
    [Text "model_saved/checkpoint_epoch_"; Num (Z.to_N z); Text ".pt"].
Proof.
  intros Hz. unfold checkpoint_path, checkpoint_name.
  destruct (str_of_int_nonneg z Hz) as (c & ds & -> & Hc & Hds & Hv).
  unfold natsort_key. simpl. rewrite Hc.
  rewrite scan_digits by exact Hds. simpl. now rewrite Hv.
Qed.

Lemma string_compare_refl s : String.compare s s = Eq.
Proof.
  induction s as [|c s IH]; simpl; [reflexivity|].
  unfold Ascii.compare. now rewrite N.compare_refl.
Qed.

(** On checkpoint paths the natural order is the order of the epochs. *)
Lemma key_leb_checkpoint_path a b :
  0 <= a -> 0 <= b ->
  key_leb (checkpoint_path a) (checkpoint_path b) = (a <=? b).
Proof.
  intros Ha Hb. unfold key_leb.
  rewrite !natsort_key_checkpoint_path by assumption.
  cbn [key_compare chunk_compare]. rewrite string_compare_refl.
  destruct (N.compare_spec (Z.to_N a) (Z.to_N b)) as [E|E|E];
    [rewrite string_compare_refl|..]; symmetry;
    [apply Z.leb_le|apply Z.leb_le|apply Z.leb_gt]; lia.
Qed.

(** *** Stable sorting *)

Lemma insert_sorted_Permutation {A} (leb : A -> A -> bool) x l :
  Permutation (insert_sorted leb x l) (x :: l).
Proof.
  induction l as [|y l IH]; simpl; [reflexivity|].
  destruct (leb x y); [reflexivity|]. rewrite IH. apply perm_swap.
Qed.

Lemma sorted_by_Permutation {A} (leb : A -> A -> bool) l :
  Permutation (sorted_by leb l) l.
Proof.
  induction l as [|x l IH]; simpl; [reflexivity|].
  rewrite insert_sorted_Permutation. now rewrite IH.
Qed.

(** Sorting the images under [f] is sorting the arguments, when the order
    on the images is the order [leb] of the arguments. *)
Lemma insert_sorted_fmap {A B} (f : A -> B) (leb : A -> A -> bool)
    (leb' : B -> B -> bool) (P : A -> Prop) x l :
  (forall a b, P a -> P b -> leb' (f a) (f b) = leb a b) ->
  P x -> Forall P l ->
  insert_sorted leb' (f x) (f <$> l) = f <$> insert_sorted leb x l.
Proof.
  intros Hf Hx Hl. induction Hl as [|y l Hy Hl IH]; [reflexivity|].
  rewrite fmap_cons. cbn [insert_sorted]. rewrite Hf by assumption.
  destruct (leb x y); [reflexivity|]. rewrite fmap_cons. f_equal. exact IH.
Qed.

Lemma sorted_by_fmap {A B} (f : A -> B) (leb : A -> A -> bool)
    (leb' : B -> B -> bool) (P : A -> Prop) l :
  (forall a b, P a -> P b -> leb' (f a) (f b) = leb a b) ->
  Forall P l ->
  sorted_by leb' (f <$> l) = f <$> sorted_by leb l.
Proof.
  intros Hf Hl. induction Hl as [|x l Hx Hl IH]; [reflexivity|].
  rewrite fmap_cons. cbn [sorted_by foldr]. fold (sorted_by leb' (f <$> l)).
  fold (sorted_by leb l). rewrite IH. apply insert_sorted_fmap with P; auto.
  rewrite (sorted_by_Permutation leb l). exact Hl.
Qed.

Lemma insert_sorted_Z_sorted x l :
  StronglySorted Z.le l -> StronglySorted Z.le (insert_sorted Z.leb x l).
Proof.
  induction 1 as [|y l Hl IH Hy]; simpl.
  - repeat constructor.
  - destruct (Z.leb_spec x y) as [Hxy|Hxy].
    + constructor; [now constructor|].
      constructor; [exact Hxy|].
      eapply Forall_impl; [exact Hy|]. intros z Hz; simpl in *; lia.
    + constructor; [exact IH|].
      rewrite insert_sorted_Permutation. constructor; [lia|exact Hy].
Qed.

Lemma sorted_by_Z_sorted l : StronglySorted Z.le (sorted_by Z.leb l).
Proof.
  induction l as [|x l IH]; simpl; [constructor|].
  now apply insert_sorted_Z_sorted.
Qed.

(** The last element of a sorted list bounds the list. *)
Lemma last_sorted_bound l m :
  StronglySorted Z.le l -> last l = Some m -> Forall (fun x => x <= m) l.
Proof.
  induction 1 as [|y l Hl IH Hy]; intros Hlast; [constructor|].
  destruct l as [|y' l'].
  - simpl in Hlast. injection Hlast as <-. repeat constructor. lia.
  - change (last (y :: y' :: l')) with (last (y' :: l')) in Hlast.
    specialize (IH Hlast). constructor; [|exact IH].
    assert (Hin : m ∈ y' :: l') by (eapply last_Some_elem_of; eauto).
    rewrite Forall_forall in Hy. apply Hy; auto.
Qed.

(** The last element after sorting is a greatest element of the list. *)
Lemma last_sorted_by_Z l :
  l <> [] ->
  exists m, last (sorted_by Z.leb l) = Some m /\ m ∈ l /\ Forall (fun x => x <= m) l.
Proof.
  intros Hl.
  destruct (last (sorted_by Z.leb l)) as [m|] eqn:E.
  - exists m. split; [reflexivity|].
    pose proof (last_sorted_bound _ _ (sorted_by_Z_sorted l) E) as Hb.
    rewrite (sorted_by_Permutation Z.leb l) in Hb. split; [|exact Hb].
    rewrite <- (sorted_by_Permutation Z.leb l). eapply last_Some_elem_of; eauto.
  - apply last_None in E.
    pose proof (sorted_by_Permutation Z.leb l) as Hp. rewrite E in Hp.
    apply Permutation_nil in Hp. contradiction.
Qed.

End NatsortFacts.

(** ** Weakest preconditions for statements *)

Section WP.
Context {S : Type}.
Implicit Types (s : S) (R : exn -> S -> Prop).

Lemma wp_ret {A} (a : A) (Q : A -> S -> Prop) R s : Q a s -> wp (mret a) Q R s.
Proof. exact id. Qed.

Lemma wp_bind {A B} (m : M S A) (f : A -> M S B) (Q : B -> S -> Prop) R s :
  wp m (fun a s' => wp (f a) Q R s') R s -> wp (m ≫= f) Q R s.
Proof.
  unfold wp, mbind, M_bind. destruct (m s) as [[a|e] s']; exact id.
Qed.

Lemma wp_raise {A} e (Q : A -> S -> Prop) R s : R e s -> wp (raise e) Q R s.
Proof. exact id. Qed.

Lemma wp_lift {A} (o : outcome A) (Q : A -> S -> Prop) R s :
  match o with Ok a => Q a s | Raise e => R e s end -> wp (lift o) Q R s.
Proof. unfold wp, lift. destruct o; exact id. Qed.

Lemma wp_gets {A} (f : S -> A) (Q : A -> S -> Prop) R s : Q (f s) s -> wp (gets f) Q R s.
Proof. exact id. Qed.

Lemma wp_modify (f : S -> S) (Q : unit -> S -> Prop) R s : Q tt (f s) -> wp (modify f) Q R s.
Proof. exact id. Qed.

Lemma wp_mono {A} (m : M S A) (Q Q' : A -> S -> Prop) R R' s :
  wp m Q R s -> (forall a s', Q a s' -> Q' a s') -> (forall e s', R e s' -> R' e s') ->
  wp m Q' R' s.
Proof.
  unfold wp. destruct (m s) as [[a|e] s']; auto.
Qed.

Lemma wp_try_except {A} (body : M S A) handler (Q : A -> S -> Prop) R s :
  wp body Q (fun e s' => wp (handler e) Q R s') s -> wp (try_except body handler) Q R s.
Proof.
  unfold wp, try_except. destruct (body s) as [[a|e] s']; exact id.
Qed.

Lemma wp_py_mod a b (Q : Z -> S -> Prop) R s :
  (b = 0 -> R ZeroDivisionError s) -> (b <> 0 -> Q (a mod b) s) ->
  wp (py_mod a b) Q R s.
Proof.
  intros H0 H1. unfold py_mod. destruct (decide (b = 0)); [apply H0|apply H1]; assumption.
Qed.

(** A loop keeps an invariant that every iteration keeps. *)
Lemma wp_for_each {A} (l : list A) (body : A -> M S unit) (I : S -> Prop) R s :
  (forall x s', x ∈ l -> I s' -> wp (body x) (fun _ => I) R s') ->
  I s -> wp (for_each l body) (fun _ => I) R s.
Proof.
  revert s. induction l as [|x l IH]; intros s Hbody Hs; [exact Hs|].
  cbn [for_each]. apply wp_bind.
  eapply wp_mono; [apply Hbody; [left|exact Hs]| |auto].
  intros [] s' Hs'. apply IH; [|exact Hs'].
  intros y s'' Hy. apply Hbody. now right.
Qed.

(** A statement that cannot raise returns. *)
Lemma wp_returns {A} (m : M S A) (Q : A -> S -> Prop) s :
  wp m Q (fun _ _ => False) s -> exists a s', m s = (Ok a, s') /\ Q a s'.
Proof.
  unfold wp. destruct (m s) as [[a|e] s']; [eauto|contradiction].
Qed.

Lemma wp_run {A} (m : M S A) (Q : A -> S -> Prop) R s :
  wp m Q R s ->
  match (m s).1 with Ok a => Q a (m s).2 | Raise e => R e (m s).2 end.
Proof. unfold wp. destruct (m s) as [[a|e] s']; exact id. Qed.

End WP.

Ltac wp_step :=
  lazymatch goal with
  | |- wp (mbind _ _) _ _ _ => apply wp_bind
  | |- wp (mret _) _ _ _ => apply wp_ret
  | |- wp (raise _) _ _ _ => apply wp_raise
  | |- wp (gets _) _ _ _ => apply wp_gets
  | |- wp (modify _) _ _ _ => apply wp_modify
  | |- wp (try_except _ _) _ _ _ => apply wp_try_except
  | |- wp (py_mod _ _) _ _ _ => apply wp_py_mod; intros ?
  | |- wp (if decide ?P then _ else _) _ _ _ => destruct (decide P)
  | |- wp (if ?b then _ else _) _ _ _ => destruct b eqn:?
  | |- wp (match ?x with _ => _ end) _ _ _ => destruct x eqn:?
  | |- wp (let '(_, _) := ?x in _) _ _ _ => destruct x eqn:?
  end.

(** ** Facts about the run *)

Section StateWP.
Context {TT : TorchTypes} {T : Torch}.

Lemma wp_local {A} x (v : state -> option A) (Q : A -> state -> Prop) R s :
  match v s with Some a => Q a s | None => R (UnboundLocalError x) s end ->
  wp (local x v) Q R s.
Proof. unfold wp, local. destruct (v s); exact id. Qed.

Lemma wp_logging r (Q : unit -> state -> Prop) R s :
  Q tt (set_log (r :: log s) s) -> wp (logging r) Q R s.
Proof. exact id. Qed.

End StateWP.

Ltac wp_op :=
  lazymatch goal with
  | |- wp (local _ _) _ _ _ => apply wp_local
  | |- wp (logging _) _ _ _ => apply wp_logging
  | |- wp latest_checkpoint _ _ _ => unfold latest_checkpoint
  | |- wp (lift _) _ _ _ => apply wp_lift
  | |- wp (torch_load _) _ _ _ => unfold torch_load
  | |- wp (getitem _ _) _ _ _ => unfold getitem
  | |- wp (load_model _) _ _ _ => unfold load_model
  | |- wp (load_optimizer _) _ _ _ => unfold load_optimizer
  | |- wp (tensor_data _) _ _ _ => unfold tensor_data
  | |- wp restore_state _ _ _ => unfold restore_state
  | |- wp (restore_position _) _ _ _ => unfold restore_position
  | |- wp restore _ _ _ => unfold restore
  | |- wp (iterate _) _ _ _ => unfold iterate
  | |- wp (train_batch _) _ _ _ => unfold train_batch
  | |- wp (validate_batch _) _ _ _ => unfold validate_batch
  | |- wp save_checkpoint _ _ _ => unfold save_checkpoint
  | |- match ?x with Some _ => _ | None => _ end => destruct x eqn:?
  | |- match ?x with Ok _ => _ | Raise _ => _ end => destruct x eqn:?
  | |- _ => wp_step
  end.

Ltac wp_go := repeat (wp_op; cbn beta iota).

(** Steps that stop in front of the save of lines 148 to 154. *)
Ltac wp_upto_save :=
  repeat (lazymatch goal with
          | |- wp (py_mod _ (save_interval _) ≫= _) _ _ _ => fail
          | |- _ => wp_op; cbn beta iota
          end).

Ltac st_simpl :=
  cbn [fs gen log model optimizer continue_epoch v_epoch v_step v_loss v_val_loss saves
       set_fs set_gen set_log set_model set_optimizer set_continue_epoch
       set_epoch set_step set_loss set_val_loss set_saves fst snd] in *.

(** Steps that use the equations at hand before splitting cases. *)
Ltac wp_rew :=
  repeat (st_simpl; cbn beta iota;
          first [ match goal with
                  | H : ?l = _ |- context [match ?l with _ => _ end] => rewrite H
                  end
                | wp_op ]).

Section TrainFacts.
Context {TT : TorchTypes} {T : Torch}.
#[local] Arguments String.append !s1 s2 /.

(** *** Records of a run without validation *)

Ltac sentinel_done :=
  unfold sentinel_log in *; simpl in *; auto;
  repeat (constructor; simpl; auto); congruence.

Lemma resume_sentinel_log args s :
  sentinel_log s ->
  wp (resume args) (fun _ => sentinel_log) (fun _ => sentinel_log) s.
Proof. intros Hs. unfold resume. wp_go; sentinel_done. Qed.

Lemma save_checkpoint_sentinel_log s :
  sentinel_log s ->
  wp save_checkpoint (fun _ => sentinel_log) (fun _ => sentinel_log) s.
Proof. intros Hs. wp_go; sentinel_done. Qed.

Lemma train_batches_sentinel_log (bs : list (nat * list sample)) s :
  sentinel_log s ->
  wp (for_each bs train_batch) (fun _ => sentinel_log) (fun _ => sentinel_log) s.
Proof.
  intros Hs. apply wp_for_each; [|exact Hs].
  intros x s' _ Hs'. wp_go; sentinel_done.
Qed.

Lemma train_epoch_sentinel_log args E e s :
  eval_val args = false -> sentinel_log s ->
  wp (train_epoch args E e) (fun _ => sentinel_log) (fun _ => sentinel_log) s.
Proof.
  intros Hval Hs. unfold train_epoch. rewrite Hval. cbn [negb].
  wp_go; try sentinel_done.
  all: eapply wp_mono; [apply train_batches_sentinel_log; sentinel_done| |auto].
  all: intros [] s1 Hs1; wp_go; sentinel_done.
Qed.

Lemma train_loop_sentinel_log args E s :
  eval_val args = false -> sentinel_log s ->
  wp (train_loop args E) (fun _ => sentinel_log) (fun _ => sentinel_log) s.
Proof.
  intros Hval Hs. unfold train_loop. wp_go; try sentinel_done.
  apply wp_for_each; [|sentinel_done].
  intros e s' _ Hs'. now apply train_epoch_sentinel_log.
Qed.

Lemma run_sentinel_log args E s :
  eval_val args = false -> sentinel_log s ->
  wp (run args E) (fun _ => sentinel_log) (fun _ => sentinel_log) s.
Proof.
  intros Hval Hs. unfold run. wp_step.
  eapply wp_mono; [apply resume_sentinel_log; exact Hs| |auto].
  intros [] s1 Hs1. wp_step.
  eapply wp_mono; [apply train_loop_sentinel_log; assumption| |auto].
  intros [] s2 Hs2. now apply save_checkpoint_sentinel_log.
Qed.

(** *** The partition *)

Lemma split_shape_small n :
  0 <= n < 2 ^ 50 -> split_shape n = Ok (4 * n / 5, n / 10, n - 4 * n / 5 - n / 10).
Proof.
  intros Hn. unfold split_shape.
  now rewrite PyFloatFacts.int_mul_0_8, PyFloatFacts.int_mul_0_1 by exact Hn.
Qed.

Lemma split_shape_sum n a b c : split_shape n = Ok (a, b, c) -> a + b + c = n.
Proof.
  unfold split_shape.
  destruct (PyFloat.int_mul_float n PyFloat.lit_0_8),
           (PyFloat.int_mul_float n PyFloat.lit_0_1); intros [=]; lia.
Qed.

Lemma randperm_length g n : length (randperm g n).1 = n.
Proof. rewrite (randperm_Permutation g n). apply length_seq. Qed.

(** The partition: the permutation drawn from seed 0, cut at the lengths;
    the generator is left seeded from the entropy. *)
Lemma partition_spec n entropy g a b c :
  split_shape (Z.of_nat n) = Ok (a, b, c) ->
  partition n entropy g =
    (Ok {| train_set := take (Z.to_nat a) (randperm (manual_seed 0) n).1;
           val_set := take (Z.to_nat b) (drop (Z.to_nat a) (randperm (manual_seed 0) n).1);
           test_set := take (Z.to_nat c)
                         (drop (Z.to_nat b)
                            (drop (Z.to_nat a) (randperm (manual_seed 0) n).1)) |},
     manual_seed entropy).
Proof.
  intros Hs. pose proof (split_shape_sum _ _ _ _ Hs) as Hsum.
  unfold partition. rewrite Hs.
  unfold random_split, mbind, M_bind, modify, gets, mret, M_ret. cbn [foldr].
  destruct (decide (a + (b + (c + 0)) = Z.of_nat n)) as [Heq|Hne]; [|lia].
  rewrite Heq, Nat2Z.id. cbv [id].
  destruct (randperm (manual_seed 0) n) as [indices g']. reflexivity.
Qed.

Lemma partition_raises n entropy g e :
  split_shape (Z.of_nat n) = Raise e -> partition n entropy g = (Raise e, g).
Proof. intros Hs. unfold partition. now rewrite Hs. Qed.

Lemma take_three {A} (l : list A) a b c :
  (length l <= a + b + c)%nat ->
  take a l ++ take b (drop a l) ++ take c (drop b (drop a l)) = l.
Proof.
  intros Hl. rewrite drop_drop, app_assoc, take_take_drop, take_take_drop.
  apply take_ge. lia.
Qed.

(** *** Ranges and loops *)

Lemma range_empty a b : b <= a -> range a b = [].
Proof. intros Hab. unfold range. now replace (Z.to_nat (b - a)) with 0%nat by lia. Qed.

Lemma range_cons a b : a < b -> range a b = a :: range (a + 1) b.
Proof.
  intros Hab. unfold range.
  replace (Z.to_nat (b - a)) with (S (Z.to_nat (b - (a + 1)))) by lia.
  cbn [seq]. rewrite fmap_cons, <- fmap_S_seq, <- list_fmap_compose.
  f_equal; [lia|]. apply list_fmap_ext. intros i x _. simpl. lia.
Qed.

Lemma range_snoc a b : a < b -> range a b = range a (b - 1) ++ [b - 1].
Proof.
  intros Hab. unfold range.
  replace (Z.to_nat (b - a)) with (S (Z.to_nat (b - 1 - a))) by lia.
  rewrite seq_S, fmap_app. f_equal. simpl. f_equal. lia.
Qed.

Lemma for_each_app {S A} (l1 l2 : list A) (body : A -> M S unit) s :
  for_each (l1 ++ l2) body s = (for_each l1 body ;; for_each l2 body) s.
Proof.
  revert s. induction l1 as [|x l1 IH]; intros s; [reflexivity|].
  cbn [app for_each]. unfold mbind, M_bind in *.
  destruct (body x s) as [[[]|e] s']; [apply IH|reflexivity].
Qed.

(** A loop that returned ran its last iteration, and that one returned. *)
Lemma for_each_snoc_returns {S A} (l : list A) x (body : A -> M S unit) s s1 :
  for_each (l ++ [x]) body s = (Ok tt, s1) ->
  exists s', for_each l body s = (Ok tt, s') /\ body x s' = (Ok tt, s1).
Proof.
  rewrite for_each_app. unfold mbind, M_bind. cbn [for_each].
  destruct (for_each l body s) as [[[]|e] s']; [|discriminate].
  unfold mbind, M_bind. destruct (body x s') as [[[]|e] s2] eqn:Hb; [|discriminate].
  intros [= <-]. eauto.
Qed.

(** *** The directory *)

Lemma dir_lookup_write name f d : dir_lookup name (dir_write name f d) = Some f.
Proof.
  induction d as [|[n f'] d IH]; simpl.
  - now rewrite String.eqb_refl.
  - destruct (String.eqb n name) eqn:E; simpl; rewrite E; [reflexivity|exact IH].
Qed.

Lemma dir_write_same name f d : dir_lookup name d = Some f -> dir_write name f d = d.
Proof.
  induction d as [|[n f'] d IH]; simpl; [discriminate|].
  destruct (String.eqb n name) eqn:E.
  - now intros [= ->].
  - intros Hl. now rewrite IH.
Qed.

(** *** Batches *)

Lemma batches_nonempty {A} b (l : list A) : l <> [] -> batches b l <> [].
Proof. unfold batches. destruct l; [congruence|]. discriminate. Qed.

Lemma subset_length (all : list sample) (indices : list nat) :
  Forall (fun i => (i < length all)%nat) indices ->
  length (subset all indices) = length indices.
Proof.
  unfold subset. induction 1 as [|i l Hi Hl IH]; [reflexivity|].
  cbn [omap list_omap]. destruct (lookup_lt_is_Some_2 all i Hi) as [x ->].
  simpl. now rewrite IH.
Qed.

Lemma subset_randperm_length (all : list sample) g :
  length (subset all (randperm g (length all)).1) = length all.
Proof.
  rewrite subset_length; [apply randperm_length|].
  rewrite (randperm_Permutation g (length all)).
  apply Forall_forall. intros i Hi. apply elem_of_seq in Hi. lia.
Qed.

(** *** What an epoch leaves bound *)

Ltac bound_done :=
  repeat match goal with
         | H : bound_at _ _ |- _ => destruct H as (? & [? ?] & [? ?])
         | H : is_Some _ |- _ => destruct H as [? ?]
         end;
  unfold bound_at; st_simpl; eauto; try congruence.



Lemma validate_batch_bound e x s :
  bound_at e s ->
  wp (validate_batch x) (fun _ s' => bound_at e s' /\ is_Some (v_val_loss s'))
     (fun _ _ => False) s.
Proof. intros Hs. wp_go. split; bound_done. Qed.

Lemma validate_batches_bound e (vbs : list (list sample)) s :
  bound_at e s ->
  wp (for_each vbs validate_batch)
     (fun _ s' => bound_at e s' /\ (vbs <> [] -> is_Some (v_val_loss s')))
     (fun _ _ => False) s.
Proof.
  intros Hs. destruct vbs as [|x vbs]; [split; [exact Hs|congruence]|].
  cbn [for_each]. wp_step.
  eapply wp_mono; [apply (validate_batch_bound e); assumption| |auto].
  intros [] s1 Hs1.
  eapply wp_mono;
    [apply (wp_for_each vbs validate_batch
              (fun s' => bound_at e s' /\ is_Some (v_val_loss s')) (fun _ _ => False));
     [|exact Hs1]
    | |auto].
  - intros y s2 _ [Hb _]. now apply validate_batch_bound.
  - intros [] s2 [Hb Hv]. auto.
Qed.

Lemma iterate_batches dl s :
  wp (iterate dl)
     (fun bs s' => (dl_dataset dl <> [] -> bs <> []) /\ same_locals s s')
     (fun _ _ => False) s.
Proof.
  unfold same_locals.
  wp_go; st_simpl; (split; [|auto]); intros Hd; apply batches_nonempty; [|exact Hd].
  intros Hnil. apply (f_equal length) in Hnil.
  replace l with (randperm (gen s) (length (dl_dataset dl))).1 in Hnil
    by (now rewrite Heqp).
  rewrite subset_randperm_length in Hnil. destruct (dl_dataset dl); simpl in *; congruence.
Qed.




(** *** Resumption *)

(** The resumption routine returns, whatever happens inside the [try]; it
    writes no file and binds none of the loop's locals. *)
Lemma resume_returns args s :
  exists s', resume args s = (Ok tt, s') /\ fs s' = fs s /\
             v_epoch s' = v_epoch s /\ v_loss s' = v_loss s.
Proof.
  assert (Hwp : wp (resume args)
                  (fun _ s' => fs s' = fs s /\ v_epoch s' = v_epoch s /\ v_loss s' = v_loss s)
                  (fun _ _ => False) s).
  { unfold resume. wp_go; st_simpl; auto. }
  apply wp_returns in Hwp as ([] & s' & Hr & Hs'). eauto.
Qed.


(** Lines 117 and 118 from a state whose [continue_epoch] is an integer. *)
Lemma train_loop_from args E s a :
  continue_epoch s = VInt a ->
  train_loop args E s =
    for_each (range a (epoch args)) (train_epoch args E)
      (set_model (train_mode (model s)) s).
Proof.
  intros Ha. unfold train_loop, mbind, M_bind, modify, gets. st_simpl. now rewrite Ha.
Qed.

(** Lines 97 to 104 leave [continue_epoch] and the directory alone. *)
Lemma restore_state_frame s :
  wp restore_state
     (fun _ s' => continue_epoch s' = continue_epoch s /\ fs s' = fs s)
     (fun _ s' => continue_epoch s' = continue_epoch s /\ fs s' = fs s) s.
Proof. wp_go; st_simpl; auto. Qed.

(** Lines 97 to 104 when the latest checkpoint is a dictionary whose model
    and optimizer states load. *)
Lemma restore_state_loaded s fp d sdm m' sdo o' :
  latest_path (fs s) = Ok fp ->
  open_path (fs s) fp = Some (Pickled (ODict d)) ->
  d !! "model_state_dict" = Some (VStateDict sdm) ->
  model_load_state_dict (model s) sdm = (m', None) ->
  d !! "optimizer_state_dict" = Some (VStateDict sdo) ->
  optimizer_load_state_dict (optimizer s) sdo = (o', None) ->
  restore_state s = (Ok (fp, ODict d), set_optimizer o' (set_model m' s)).
Proof.
  intros H1 H2 H3 H4 H5 H6.
  assert (Hwp : wp restore_state
                  (fun r s' => r = (fp, ODict d) /\ s' = set_optimizer o' (set_model m' s))
                  (fun _ _ => False) s) by (wp_rew; auto).
  apply wp_returns in Hwp as (r & s' & Hr & -> & ->). exact Hr.
Qed.

(** The routine with resumption requested, in terms of the [try] body. *)
Lemma resume_on args s :
  continue_training args = true ->
  resume args s =
    let '(r, s1) := restore (set_continue_epoch (VInt 0) s) in
    let s2 := match r with
              | Ok _ => s1
              | Raise e => set_log (LogLoadFailed e :: log s1) s1
              end in
    (Ok tt, set_log (LogContinueFrom (continue_epoch s2) :: log s2) s2).
Proof.
  intros Hc. unfold resume. rewrite Hc.
  unfold mbind, M_bind, try_except, modify, logging, gets. cbn beta iota.
  destruct (restore (set_continue_epoch (VInt 0) s)) as [[[]|e] s1]; reflexivity.
Qed.

(** *** Checkpoint names, [glob] and the latest checkpoint *)

Lemma string_length_append (a b : string) :
  String.length (a +:+ b) = (String.length a + String.length b)%nat.
Proof. induction a as [|c a IH]; simpl; [reflexivity|]. now rewrite IH. Qed.

Lemma substring_append_skip (a b : string) m :
  String.substring (String.length a) m (a +:+ b) = String.substring 0 m b.
Proof. induction a as [|c a IH]; simpl; [reflexivity|exact IH]. Qed.

Lemma substring_all (b : string) : String.substring 0 (String.length b) b = b.
Proof. induction b as [|c b IH]; simpl; [reflexivity|]. now rewrite IH. Qed.

Lemma ends_with_append (a suffix : string) : ends_with suffix (a +:+ suffix) = true.
Proof.
  unfold ends_with. rewrite string_length_append.
  replace (String.length a + String.length suffix - String.length suffix)%nat
    with (String.length a) by lia.
  rewrite substring_append_skip, substring_all. apply String.eqb_refl.
Qed.

(** A name the save writes is a name the [glob] pattern matches. *)
Lemma fnmatch_checkpoint_name e : fnmatch_checkpoint (checkpoint_name e) = true.
Proof.
  unfold fnmatch_checkpoint, checkpoint_name.
  rewrite <- NatsortFacts.append_assoc, ends_with_append.
  rewrite string_length_append. cbn [String.length Nat.add Nat.leb].
  rewrite NatsortFacts.append_assoc. reflexivity.
Qed.

Lemma glob_checkpoints_names (d : directory) (epochs : list Z) :
  d.*1 = checkpoint_name <$> epochs ->
  glob_checkpoints d = checkpoint_path <$> epochs.
Proof.
  revert epochs. unfold glob_checkpoints.
  induction d as [|[n f] d IH]; intros [|e epochs] Hd; try discriminate; [reflexivity|].
  rewrite !fmap_cons in Hd. cbn [fst] in Hd. injection Hd as -> Hd.
  cbn [List.filter fst]. rewrite fnmatch_checkpoint_name.
  rewrite !fmap_cons. f_equal. now apply IH.
Qed.

(** *** The data set *)

Lemma split_shape_0 : split_shape 0 = Ok (0, 0, 0).
Proof. apply (split_shape_small 0). lia. Qed.

Lemma partition_empty entropy g :
  partition 0 entropy g =
    (Ok {| train_set := []; val_set := []; test_set := [] |}, manual_seed entropy).
Proof. rewrite (partition_spec 0 entropy g 0 0 0 split_shape_0). reflexivity. Qed.

Lemma prepare_missing args w g :
  train_file w = NpyMissing -> prepare args w g = (Raise FileNotFoundError, g).
Proof. intros Hf. unfold prepare. now rewrite Hf. Qed.

Lemma prepare_empty args w g :
  train_file w = NpyArray [] ->
  prepare args w g = (Raise ValueError, manual_seed (os_entropy w)).
Proof.
  intros Hf. unfold prepare. rewrite Hf. cbn [length].
  unfold mbind, M_bind. rewrite partition_empty. cbn [train_set val_set].
  unfold new_DataLoader. cbn [length Z.of_nat].
  destruct (decide (num_workers args < 0)); [reflexivity|].
  destruct (decide (batch_size args <= 0)); reflexivity.
Qed.

End TrainFacts.

(** ** Loaders and the partition *)

Section LoaderFacts.
Context {TT : TorchTypes} {T : Torch}.

Lemma chunks_concat {A} fuel b (l : list A) :
  (0 < b)%nat -> (length l <= fuel)%nat -> concat (chunks fuel b l) = l.
Proof.
  intros Hb. revert l. induction fuel as [|fuel IH]; intros l Hl.
  - destruct l; [reflexivity|simpl in Hl; lia].
  - destruct l as [|x l]; [reflexivity|].
    cbn [chunks concat]. rewrite IH; [apply take_drop|].
    rewrite length_drop. simpl in *. lia.
Qed.

Lemma chunks_sizes {A} fuel b (l : list A) :
  (0 < b)%nat -> Forall (fun c => c <> [] /\ (length c <= b)%nat) (chunks fuel b l).
Proof.
  intros Hb. revert l. induction fuel as [|fuel IH]; intros l.
  - destruct l; constructor.
  - destruct l as [|x l]; [constructor|].
    cbn [chunks]. constructor; [|apply IH].
    split; [destruct b; [lia|discriminate]|].
    rewrite length_take. lia.
Qed.

Lemma chunks_length {A} fuel b (l : list A) :
  (0 < b)%nat -> (length l <= fuel)%nat ->
  length (chunks fuel b l) = ((length l + b - 1) / b)%nat.
Proof.
  intros Hb. revert l. induction fuel as [|fuel IH]; intros l Hl.
  - destruct l; [|simpl in Hl; lia]. simpl. symmetry. apply Nat.div_small. lia.
  - destruct l as [|x l]; [simpl; symmetry; apply Nat.div_small; lia|].
    cbn [chunks length]. rewrite IH by (rewrite length_drop; simpl in *; lia).
    rewrite length_drop. cbn [length].
    destruct (le_lt_dec (S (length l)) b) as [Hle|Hgt].
    + replace (S (length l) - b)%nat with 0%nat by lia.
      rewrite (Nat.div_small (0 + b - 1) b) by lia.
      apply (Nat.div_unique _ _ 1%nat (S (length l) - 1)); lia.
    + replace (S (length l) + b - 1)%nat with ((S (length l) - b + b - 1) + 1 * b)%nat by lia.
      rewrite Nat.div_add by lia. lia.
Qed.

Lemma loader_len_batches dl :
  (0 < dl_batch_size dl)%nat ->
  loader_len dl = Z.of_nat (length (batches (dl_batch_size dl) (dl_dataset dl))).
Proof.
  intros Hb. unfold loader_len, batches. rewrite chunks_length by lia.
  rewrite Nat2Z.inj_div, Nat2Z.inj_sub, Nat2Z.inj_add by lia. reflexivity.
Qed.

Lemma subset_all (l : list sample) : subset l (seq 0 (length l)) = l.
Proof.
  unfold subset. induction l as [|x l IH]; [reflexivity|].
  cbn [length seq]. cbn [omap list_omap lookup list_lookup].
  rewrite <- fmap_S_seq. f_equal.
  rewrite <- IH at 2. clear IH.
  generalize (seq 0 (length l)). intros js. induction js as [|i js IH]; [reflexivity|].
  rewrite fmap_cons. cbn [omap list_omap]. now rewrite IH.
Qed.

Lemma subset_Permutation (l : list sample) (indices : list nat) :
  Permutation indices (seq 0 (length l)) -> Permutation (subset l indices) l.
Proof.
  intros Hp. unfold subset. rewrite Hp. fold (subset l (seq 0 (length l))).
  now rewrite subset_all.
Qed.

Lemma batches_whole {A} (l : list A) : l <> [] -> batches (length l) l = [l].
Proof.
  intros Hl. unfold batches. destruct l as [|x l]; [congruence|].
  cbn [length chunks]. rewrite firstn_all2 by (simpl; lia).
  rewrite skipn_all2 by (simpl; lia). now destruct (length l).
Qed.

Lemma batches_concat {A} b (l : list A) : (0 < b)%nat -> concat (batches b l) = l.
Proof. intros Hb. apply chunks_concat; [exact Hb|lia]. Qed.

(** One pass over a loader whose batch size is positive. *)
Lemma iterate_spec dl s :
  (0 < dl_batch_size dl)%nat ->
  exists bs s',
    iterate dl s = (Ok bs, s') /\
    Permutation (concat bs) (dl_dataset dl) /\
    Forall (fun c => c <> [] /\ (length c <= dl_batch_size dl)%nat) bs /\
    Z.of_nat (length bs) = loader_len dl /\
    s' = (if dl_shuffle dl then set_gen (randperm (gen s) (length (dl_dataset dl))).2 s else s) /\
    (dl_shuffle dl = false -> concat bs = dl_dataset dl).
Proof.
  intros Hb. unfold iterate. destruct (dl_shuffle dl) eqn:Hsh.
  - unfold mbind, M_bind, gets, modify, mret, M_ret.
    pose proof (randperm_Permutation (gen s) (length (dl_dataset dl))) as Hp.
    pose proof (subset_randperm_length (dl_dataset dl) (gen s)) as Hlen.
    destruct (randperm (gen s) (length (dl_dataset dl))) as [perm g'].
    cbn [fst snd] in *. eexists _, _. split; [reflexivity|].
    split; [rewrite batches_concat by exact Hb; now apply subset_Permutation|].
    split; [apply chunks_sizes; exact Hb|].
    split; [|split; [reflexivity|discriminate]].
    rewrite loader_len_batches by exact Hb. unfold batches.
    rewrite !chunks_length, Hlen by lia. reflexivity.
  - eexists _, _. split; [reflexivity|].
    rewrite batches_concat by exact Hb.
    split; [reflexivity|]. split; [apply chunks_sizes; exact Hb|].
    split; [|split; [reflexivity|reflexivity]].
    now rewrite loader_len_batches.
Qed.

Lemma partition_concat n entropy g p g' :
  partition n entropy g = (Ok p, g') ->
  train_set p ++ val_set p ++ test_set p = (randperm (manual_seed 0) n).1.
Proof.
  destruct (split_shape (Z.of_nat n)) as [[[a b] c]|e] eqn:Hs.
  - rewrite (partition_spec n _ _ a b c Hs). intros [= <- _].
    cbn [train_set val_set test_set]. apply take_three.
    rewrite randperm_length. pose proof (split_shape_sum _ _ _ _ Hs). lia.
  - rewrite (partition_raises n _ _ e Hs). discriminate.
Qed.

Lemma partition_in_range n entropy g p g' :
  partition n entropy g = (Ok p, g') ->
  Forall (fun i => (i < n)%nat) (train_set p) /\
  Forall (fun i => (i < n)%nat) (val_set p) /\
  Forall (fun i => (i < n)%nat) (test_set p).
Proof.
  intros Hp. apply partition_concat in Hp.
  assert (H : Forall (fun i => (i < n)%nat) (train_set p ++ val_set p ++ test_set p)).
  { rewrite Hp, (randperm_Permutation (manual_seed 0) n).
    apply Forall_forall. intros i Hi. apply elem_of_seq in Hi. lia. }
  rewrite !Forall_app in H. tauto.
Qed.

(** What [prepare] has built when it returns. *)
Lemma prepare_inv args w g E g' :
  prepare args w g = (Ok E, g') ->
  exists rows,
    train_file w = NpyArray rows /\ all_set E = rows /\
    partition (length rows) (os_entropy w) g = (Ok (parts E), g') /\
    train_loader E = {| dl_dataset := subset rows (train_set (parts E));
                        dl_batch_size := Z.to_nat (batch_size args);
                        dl_shuffle := true |} /\
    val_loader E = {| dl_dataset := subset rows (val_set (parts E));
                      dl_batch_size := length (val_set (parts E));
                      dl_shuffle := false |} /\
    0 < batch_size args /\ 0 <= num_workers args /\ val_set (parts E) <> [].
Proof.
  unfold prepare. destruct (train_file w) as [|rows]; [discriminate|].
  unfold mbind, M_bind.
  destruct (partition (length rows) (os_entropy w) g) as [[p|e] g1] eqn:Hp; [|discriminate].
  unfold new_DataLoader.
  destruct (decide (num_workers args < 0)); [discriminate|].
  destruct (decide (batch_size args <= 0)); [discriminate|].
  destruct (decide (0 < 0)); [lia|].
  destruct (decide (Z.of_nat (length (val_set p)) <= 0)); [discriminate|].
  intros [= <- <-]. exists rows. cbn [all_set parts train_loader val_loader].
  rewrite Nat2Z.id.
  assert (Hv : val_set p <> []) by (intros Hnil; rewrite Hnil in *; simpl in *; lia).
  repeat split; try lia; assumption.
Qed.

(** The sizes of the three subsets, for fewer than [2^50] rows. *)
Lemma partition_lengths n entropy g :
  Z.of_nat n < 2 ^ 50 ->
  exists p,
    partition n entropy g = (Ok p, manual_seed entropy) /\
    length (train_set p) = (4 * n / 5)%nat /\
    length (val_set p) = (n / 10)%nat /\
    length (test_set p) = (n - 4 * n / 5 - n / 10)%nat.
Proof.
  intros Hn.
  assert (Hs := split_shape_small (Z.of_nat n) ltac:(lia)).
  rewrite (partition_spec n entropy g _ _ _ Hs). eexists. split; [reflexivity|].
  cbn [train_set val_set test_set].
  rewrite !length_take, !length_drop, randperm_length.
  assert (Ha : Z.to_nat (4 * Z.of_nat n / 5) = (4 * n / 5)%nat).
  { rewrite Z2Nat.inj_div by lia. f_equal. lia. }
  assert (Hb : Z.to_nat (Z.of_nat n / 10) = (n / 10)%nat).
  { rewrite Z2Nat.inj_div by lia. f_equal. lia. }
  assert (Hc : Z.to_nat (Z.of_nat n - 4 * Z.of_nat n / 5 - Z.of_nat n / 10)
               = (n - 4 * n / 5 - n / 10)%nat).
  { rewrite !Z2Nat.inj_sub, Ha, Hb by (apply Z.div_pos; lia). now rewrite Nat2Z.id. }
  rewrite Ha, Hb, Hc.
  pose proof (Nat.Div0.mul_div_le (4 * n) 5). pose proof (Nat.Div0.mul_div_le n 10).
  lia.
Qed.

(** The partition of a data set of fewer than [2^50] rows, with the subsets
    of the rows it selects. *)
Lemma partition_subsets (rows : list sample) entropy g :
  Z.of_nat (length rows) < 2 ^ 50 ->
  exists p,
    partition (length rows) entropy g = (Ok p, manual_seed entropy) /\
    length (val_set p) = (length rows / 10)%nat /\
    length (subset rows (train_set p)) = (4 * length rows / 5)%nat /\
    length (subset rows (val_set p)) = (length rows / 10)%nat.
Proof.
  intros Hn. set (n := length rows) in *.
  assert (Hs := split_shape_small (Z.of_nat n) ltac:(lia)).
  pose proof (partition_spec n entropy g _ _ _ Hs) as Hp.
  destruct (partition_in_range n entropy g _ _ Hp) as (Htr & Hva & _).
  eexists. split; [exact Hp|].
  rewrite !subset_length by assumption. cbn [train_set val_set].
  rewrite !length_take, !length_drop, randperm_length.
  assert (Ha : Z.to_nat (4 * Z.of_nat n / 5) = (4 * n / 5)%nat).
  { rewrite Z2Nat.inj_div by lia. f_equal. lia. }
  assert (Hb : Z.to_nat (Z.of_nat n / 10) = (n / 10)%nat).
  { rewrite Z2Nat.inj_div by lia. f_equal. lia. }
  rewrite Ha, Hb.
  pose proof (Nat.Div0.mul_div_le (4 * n) 5). pose proof (Nat.Div0.mul_div_le n 10).
  lia.
Qed.

End LoaderFacts.

(** ** The directory of checkpoints *)

Section DirectoryFacts.
Context {TT : TorchTypes} {T : Torch}.
#[local] Arguments String.append !s1 s2 /.

Lemma dir_lookup_write_ne name name' f d :
  name <> name' -> dir_lookup name' (dir_write name f d) = dir_lookup name' d.
Proof.
  intros Hne. induction d as [|[n f'] d IH]; simpl.
  - destruct (String.eqb_spec name name'); [contradiction|reflexivity].
  - destruct (String.eqb_spec n name) as [->|Hn]; simpl.
    + destruct (String.eqb_spec name name'); [contradiction|reflexivity].
    + destruct (String.eqb_spec n name'); [reflexivity|exact IH].
Qed.

Lemma dir_lookup_names name d : is_Some (dir_lookup name d) <-> name ∈ d.*1.
Proof.
  induction d as [|[n f] d IH]; simpl.
  - split; [intros [? [=]]|intros H; inversion H].
  - rewrite elem_of_cons. destruct (String.eqb_spec n name) as [->|Hn].
    + split; [auto|eauto].
    + rewrite IH. split; [auto|]. intros [->|H]; [contradiction|exact H].
Qed.

(** The names after a write: the same list, or one more name at the end. *)
Lemma dir_write_names name f d :
  (dir_write name f d).*1 = if decide (name ∈ d.*1) then d.*1 else d.*1 ++ [name].
Proof.
  induction d as [|[n f'] d IH]; cbn [dir_write].
  - destruct (decide (name ∈ [].*1)) as [H|_]; [inversion H|reflexivity].
  - rewrite (fmap_cons fst (n, f')). cbn [fst].
    destruct (String.eqb_spec n name) as [->|Hn]; rewrite fmap_cons; cbn [fst].
    + destruct (decide (name ∈ name :: d.*1)) as [_|H]; [reflexivity|].
      exfalso. apply H. left.
    + rewrite IH. destruct (decide (name ∈ d.*1)) as [Hin|Hin];
        destruct (decide (name ∈ n :: d.*1)) as [Hin'|Hin']; try reflexivity.
      * exfalso. apply Hin'. now right.
      * apply elem_of_cons in Hin' as [->|?]; contradiction.
Qed.

Lemma dir_write_names_elem name f d x :
  x ∈ (dir_write name f d).*1 <-> x ∈ d.*1 \/ x = name.
Proof.
  rewrite dir_write_names. destruct (decide (name ∈ d.*1)) as [Hin|Hin].
  - split; [auto|]. intros [H| ->]; assumption.
  - rewrite elem_of_app, list_elem_of_singleton. reflexivity.
Qed.

Lemma strip_prefix_append p s : strip_prefix p (p +:+ s) = Some s.
Proof.
  induction p as [|c p IH]; simpl; [reflexivity|].
  now rewrite Ascii.eqb_refl.
Qed.

(** A path of [model_saved/] opens the entry of its name. *)
Lemma open_path_name d name : open_path d ("model_saved/" +:+ name) = dir_lookup name d.
Proof. unfold open_path. now rewrite strip_prefix_append. Qed.

Lemma elem_of_glob_checkpoints d fp :
  fp ∈ glob_checkpoints d <->
  exists name, fp = "model_saved/" +:+ name /\ name ∈ d.*1 /\ fnmatch_checkpoint name = true.
Proof.
  unfold glob_checkpoints. rewrite list_elem_of_fmap. split.
  - intros ([n f] & -> & Hin). apply list_elem_of_In, filter_In in Hin as [Hin Hm].
    exists n. split; [reflexivity|]. split; [|exact Hm].
    apply list_elem_of_fmap. exists (n, f). split; [reflexivity|].
    now apply list_elem_of_In.
  - intros (name & -> & Hin & Hm). apply list_elem_of_fmap in Hin as ([n f] & -> & Hin).
    exists (n, f). split; [reflexivity|]. apply list_elem_of_In, filter_In.
    split; [now apply list_elem_of_In|exact Hm].
Qed.

Lemma glob_checkpoints_nil d :
  glob_checkpoints d = [] <-> forall name, name ∈ d.*1 -> fnmatch_checkpoint name = false.
Proof.
  split.
  - intros Hnil name Hin. destruct (fnmatch_checkpoint name) eqn:Hm; [|reflexivity].
    exfalso. assert (H : "model_saved/" +:+ name ∈ glob_checkpoints d)
      by (apply elem_of_glob_checkpoints; eauto).
    rewrite Hnil in H. inversion H.
  - intros Hall. destruct (glob_checkpoints d) as [|fp l] eqn:Hg; [reflexivity|].
    assert (H : fp ∈ glob_checkpoints d) by (rewrite Hg; left).
    apply elem_of_glob_checkpoints in H as (name & _ & Hin & Hm).
    rewrite (Hall name Hin) in Hm. discriminate.
Qed.

(** Lines 97 to 100: either a path of the directory that the pattern matches,
    or [FileNotFoundError] when no name matches. *)
Lemma latest_path_cases d :
  match latest_path d with
  | Ok fp => fp ∈ glob_checkpoints d
  | Raise e => e = FileNotFoundError /\ glob_checkpoints d = []
  end.
Proof.
  unfold latest_path.
  destruct (decide (length (glob_checkpoints d) = 0%nat)) as [H0|Hn].
  - split; [reflexivity|]. now apply length_zero_iff_nil.
  - destruct (last (Natsort.natsorted (glob_checkpoints d))) as [fp|] eqn:Hl.
    + apply last_Some_elem_of in Hl. unfold Natsort.natsorted in Hl.
      now rewrite NatsortFacts.sorted_by_Permutation in Hl.
    + apply last_None in Hl. exfalso. apply Hn.
      unfold Natsort.natsorted in Hl.
      rewrite <- (NatsortFacts.sorted_by_Permutation Natsort.key_leb (glob_checkpoints d)).
      now rewrite Hl.
Qed.

(** The latest checkpoint of a directory of checkpoints of non-negative
    epochs is one of the greatest epoch. *)
Lemma latest_path_greatest (d : directory) (epochs : list Z) :
  d.*1 = checkpoint_name <$> epochs ->
  epochs <> [] ->
  Forall (fun e => 0 <= e) epochs ->
  exists e_max,
    e_max ∈ epochs /\ Forall (fun e => e <= e_max) epochs /\
    latest_path d = Ok (checkpoint_path e_max).
Proof.
  intros Hd Hne Hpos. unfold latest_path.
  rewrite (glob_checkpoints_names d epochs Hd), length_fmap.
  destruct (decide (length epochs = 0%nat)) as [H0|_];
    [destruct epochs; [congruence|discriminate]|].
  unfold Natsort.natsorted.
  rewrite (NatsortFacts.sorted_by_fmap checkpoint_path Z.leb Natsort.key_leb
             (fun e => 0 <= e) epochs);
    [|intros a b Ha Hb; now apply NatsortFacts.key_leb_checkpoint_path|exact Hpos].
  rewrite fmap_last.
  destruct (NatsortFacts.last_sorted_by_Z epochs Hne) as (m & -> & Hin & Hmax). eauto.
Qed.

(** Distinct non-negative epochs give distinct checkpoint names. *)
Lemma checkpoint_name_inj a b :
  0 <= a -> 0 <= b -> checkpoint_name a = checkpoint_name b -> a = b.
Proof.
  intros Ha Hb Hab.
  assert (Hk : Natsort.natsort_key (checkpoint_path a) = Natsort.natsort_key (checkpoint_path b))
    by (unfold checkpoint_path; now rewrite Hab).
  rewrite !NatsortFacts.natsort_key_checkpoint_path in Hk by assumption.
  injection Hk as Hk. lia.
Qed.

(** The write of the checkpoint of an epoch that no checkpoint of the
    directory exceeds makes it the latest one. *)
Lemma latest_after_write (d : directory) (epochs : list Z) e f :
  d.*1 = checkpoint_name <$> epochs ->
  Forall (fun x => 0 <= x <= e) epochs ->
  0 <= e ->
  latest_path (dir_write (checkpoint_name e) f d) = Ok (checkpoint_path e).
Proof.
  intros Hd Hle He.
  assert (Hex : exists epochs',
            (dir_write (checkpoint_name e) f d).*1 = checkpoint_name <$> epochs' /\
            e ∈ epochs' /\ Forall (fun x => 0 <= x <= e) epochs').
  { rewrite dir_write_names, Hd.
    destruct (decide (checkpoint_name e ∈ checkpoint_name <$> epochs)) as [Hin|Hin].
    - exists epochs. split; [reflexivity|]. split; [|exact Hle].
      apply list_elem_of_fmap in Hin as (e' & He' & Hin).
      rewrite Forall_forall in Hle.
      apply checkpoint_name_inj in He'; [now subst|lia|apply Hle, Hin].
    - exists (epochs ++ [e]). rewrite fmap_app. split; [reflexivity|].
      split; [apply elem_of_app; right; left|].
      apply Forall_app. split; [exact Hle|]. repeat constructor; lia. }
  destruct Hex as (epochs' & Hd' & Hin & Hle').
  destruct (latest_path_greatest _ epochs' Hd') as (m & Hm & Hmax & ->).
  - intros ->. inversion Hin.
  - eapply Forall_impl; [exact Hle'|]. intros x Hx; simpl in Hx; lia.
  - rewrite Forall_forall in Hmax, Hle'.
    specialize (Hmax e Hin). specialize (Hle' m Hm). now replace m with e by lia.
Qed.

End DirectoryFacts.

(** ** Traces of the loop *)

Section LoopFacts.
Context {TT : TorchTypes} {T : Torch}.
#[local] Arguments String.append !s1 s2 /.

Ltac trace_done :=
  unfold same_trace in *; st_simpl; intuition (try congruence; eauto).

Lemma wp_of_eq {S A} (m : M S A) a s' (Q : A -> S -> Prop) R s :
  m s = (Ok a, s') -> Q a s' -> wp m Q R s.
Proof. intros Hm HQ. unfold wp. now rewrite Hm. Qed.

Lemma wp_conj {S A} (m : M S A) (Q1 Q2 : A -> S -> Prop) R1 R2 s :
  wp m Q1 R1 s -> wp m Q2 R2 s ->
  wp m (fun a s' => Q1 a s' /\ Q2 a s') (fun e s' => R1 e s' /\ R2 e s') s.
Proof. unfold wp. destruct (m s) as [[a|e] s']; auto. Qed.

Lemma same_trace_refl s : same_trace s s.
Proof. trace_done. Qed.

Lemma iterate_same_trace dl s :
  wp (iterate dl) (fun _ s' => same_trace s s' /\ v_val_loss s' = v_val_loss s)
     (fun _ _ => False) s.
Proof. wp_go; trace_done. Qed.

Lemma validate_batches_same_trace (vbs : list (list sample)) s :
  wp (for_each vbs validate_batch) (fun _ => same_trace s) (fun _ _ => False) s.
Proof.
  apply wp_for_each; [|apply same_trace_refl].
  intros x s' _ Hs'. wp_go. trace_done.
Qed.

(** The batches of an epoch: [step] ends at the index of the last batch. *)
Lemma train_batches_trace (bs : list (list sample)) k s :
  wp (for_each (zip (seq k (length bs)) bs) train_batch)
     (fun _ s' =>
        fs s' = fs s /\ log s' = log s /\ v_epoch s' = v_epoch s /\
        v_val_loss s' = v_val_loss s /\
        match bs with
        | [] => v_step s' = v_step s /\ v_loss s' = v_loss s
        | _ => v_step s' = Some (Z.of_nat (k + length bs) - 1) /\ is_Some (v_loss s')
        end)
     (fun _ _ => False) s.
Proof.
  revert k s. induction bs as [|x bs IH]; intros k s.
  - cbn. repeat split; congruence.
  - cbn [length seq zip zip_with for_each]. wp_step.
    unfold train_batch at 1. wp_go. cbn [fst snd].
    eapply wp_mono; [apply (IH (S k))| |auto].
    intros [] s' (Hfs & Hlog & He & Hv & Hst). st_simpl.
    repeat split; try congruence.
    + destruct bs as [|y bs]; destruct Hst as [-> Hl]; f_equal; simpl; lia.
    + destruct bs as [|y bs]; destruct Hst as [_ Hl]; [rewrite Hl; eauto|exact Hl].
Qed.

(** Lines 148 to 154 with [epoch] and [loss] bound. *)
Lemma save_step_trace args e l s :
  v_epoch s = Some e -> v_loss s = Some l ->
  wp (r ← py_mod e (save_interval args);
      if decide (r = 0) then save_checkpoint else mret tt)
     (fun _ s' =>
        save_interval args <> 0 /\ log s' = log s /\
        v_epoch s' = Some e /\ v_loss s' = Some l /\
        fs s' = if decide (e `mod` save_interval args = 0)
                then dir_write (checkpoint_name e)
                       (checkpoint_of e l (model s') (optimizer s')) (fs s)
                else fs s)
     (fun ex s' => ex = ZeroDivisionError /\ save_interval args = 0 /\ s' = s) s.
Proof.
  intros He Hl. wp_step. wp_step; [auto|]. wp_step.
  - unfold save_checkpoint. wp_rew. st_simpl. auto.
  - wp_step. auto.
Qed.

(** An epoch over a non-empty training loader with a positive batch size:
    when it returns, no interval is zero, it has logged its record if its
    number is a multiple of the log interval, and written its checkpoint if
    its number is a multiple of the save interval; when it raises, it has
    written nothing. *)
Lemma train_epoch_trace args E e s :
  (0 < dl_batch_size (train_loader E))%nat ->
  dl_dataset (train_loader E) <> [] ->
  wp (train_epoch args E e)
     (fun _ s' =>
        log_interval args <> 0 /\ save_interval args <> 0 /\
        epoch_steps (log s') =
          (if decide (e `mod` log_interval args = 0)
           then [(e, (e + 1) * loader_len (train_loader E) - 1)] else [])
          ++ epoch_steps (log s) /\
        v_epoch s' = Some e /\
        exists l, v_loss s' = Some l /\
          fs s' = if decide (e `mod` save_interval args = 0)
                  then dir_write (checkpoint_name e)
                         (checkpoint_of e l (model s') (optimizer s')) (fs s)
                  else fs s)
     (fun ex s' => fs s' = fs s /\ v_epoch s' = Some e /\ epoch_failure args E ex) s.
Proof.
  intros Hb Hd. unfold train_epoch, epoch_failure. wp_step. wp_step. wp_step.
  destruct (iterate_spec (train_loader E) (set_epoch e s) Hb)
    as (bs & s1 & Hit & Hperm & _ & Hlen & Hs1 & _).
  assert (Hbs : bs <> []).
  { intros ->. cbn in Hperm. apply Permutation_nil in Hperm. congruence. }
  assert (Hfr : same_trace (set_epoch e s) s1 /\ v_val_loss s1 = v_val_loss s).
  { pose proof (iterate_same_trace (train_loader E) (set_epoch e s)) as Hwp.
    unfold wp in Hwp. rewrite Hit in Hwp. exact Hwp. }
  apply (wp_of_eq _ bs s1); [exact Hit|]. wp_step.
  eapply wp_mono; [apply (train_batches_trace bs 0)| |contradiction].
  intros [] s2 (Hfs2 & Hlog2 & He2 & Hv2 & Hst2).
  destruct bs as [|b0 bs']; [congruence|]. destruct Hst2 as [Hst2 [l2 Hl2]].
  destruct Hfr as [(Hfs1 & Hlog1 & He1 & _) _]. st_simpl.
  rewrite Nat.add_0_l, Hlen in Hst2.
  assert (Hsave : forall s3 steps,
    fs s3 = fs s -> v_epoch s3 = Some e -> v_loss s3 = Some l2 ->
    log_interval args <> 0 ->
    epoch_steps (log s3) = steps ++ epoch_steps (log s) ->
    wp (r ← py_mod e (save_interval args);
        if decide (r = 0) then save_checkpoint else mret tt)
       (fun _ s' =>
          log_interval args <> 0 /\ save_interval args <> 0 /\
          epoch_steps (log s') = steps ++ epoch_steps (log s) /\
          v_epoch s' = Some e /\
          exists l, v_loss s' = Some l /\
            fs s' = if decide (e `mod` save_interval args = 0)
                    then dir_write (checkpoint_name e)
                           (checkpoint_of e l (model s') (optimizer s')) (fs s)
                    else fs s)
       (fun ex s' => fs s' = fs s /\ v_epoch s' = Some e /\
          ((ex = ZeroDivisionError /\ (log_interval args = 0 \/ save_interval args = 0)) \/
           (ex = UnboundLocalError "val_loss" /\ log_interval args <> 0 /\
            eval_val args = true /\ dl_dataset (val_loader E) = []))) s3).
  { intros s3 steps H1 H2 H3 H4 H5.
    eapply wp_mono; [apply (save_step_trace args e l2 s3 H2 H3)| |].
    - intros [] s' (Hsi & Hlog & He' & Hl' & Hfs'). rewrite Hlog, H1 in *. eauto 10.
    - intros ex s' (-> & Hsi & ->). auto 10. }
  wp_step. wp_step; [repeat split; try congruence; auto|]. wp_step. wp_step.
  - wp_step. wp_step.
    + wp_upto_save; st_simpl; try congruence.
      apply Hsave; st_simpl; try congruence.
      cbn [epoch_steps omap list_omap]. fold (epoch_steps (log s2)).
      rewrite Hlog2, Hlog1. cbn [app]. do 2 f_equal.
      replace z with (loader_len (train_loader E) - 1) by congruence. ring.
    + wp_step. wp_step. wp_step.
      eapply wp_mono;
        [apply wp_conj; [apply (iterate_batches (val_loader E))
                        |apply (iterate_same_trace (val_loader E))]
        | |intros ? ? []; contradiction].
      intros vbs s3 [[Hvbs (Hl3a & Hl3b & Hl3c & Hl3d)] [(Hfs3 & Hlog3 & He3 & Hst3 & Hl3) Hv3]].
      st_simpl. wp_step.
      eapply wp_mono;
        [apply wp_conj; [apply (validate_batches_bound e)
                        |apply validate_batches_same_trace]
        | |intros ? ? []; contradiction].
      * unfold bound_at. rewrite He3, Hst3, Hl3. st_simpl. rewrite He2, Hst2, Hl2. eauto.
      * intros [] s4 [[_ Hv4] (Hfs4 & Hlog4 & He4 & Hst4 & Hl4)].
        apply negb_false_iff in Heqb.
        wp_upto_save; st_simpl; try congruence.
        -- apply Hsave; st_simpl; try congruence.
           cbn [epoch_steps omap list_omap]. fold (epoch_steps (log s4)).
           rewrite Hlog4, Hlog3. st_simpl. rewrite Hlog2, Hlog1. cbn [app]. do 2 f_equal.
           replace z with (loader_len (train_loader E) - 1) by congruence. ring.
        -- repeat split; try congruence. right. repeat split; auto.
           destruct (decide (dl_dataset (val_loader E) = [])) as [Hnil|Hnn]; [exact Hnil|].
           destruct (Hv4 (Hvbs Hnn)) as [? ?]. congruence.
  - wp_step. apply Hsave; try congruence. now rewrite Hlog2, Hlog1.
Qed.

Lemma elem_of_range a b e : e ∈ range a b <-> a <= e < b.
Proof.
  unfold range. rewrite list_elem_of_fmap. split.
  - intros (i & -> & Hi). apply elem_of_seq in Hi. lia.
  - intros He. exists (Z.to_nat (e - a)). split; [lia|]. apply elem_of_seq. lia.
Qed.

Lemma last_range a b : a < b -> last (range a b) = Some (b - 1).
Proof. intros Hab. rewrite (range_snoc a b Hab). apply last_snoc. Qed.

Lemma for_each_cons_returns {S A} (x : A) l (body : A -> M S unit) s s1 :
  for_each (x :: l) body s = (Ok tt, s1) ->
  exists s', body x s = (Ok tt, s') /\ for_each l body s' = (Ok tt, s1).
Proof.
  cbn [for_each]. unfold mbind, M_bind.
  destruct (body x s) as [[[]|e] s']; [eauto|discriminate].
Qed.

(** The epochs of a loop that returned: the records, the names of the
    directory, the entries the loop has not written, the locals. *)
Lemma epochs_trace args E es s s1 :
  (0 < dl_batch_size (train_loader E))%nat ->
  dl_dataset (train_loader E) <> [] ->
  for_each es (train_epoch args E) s = (Ok tt, s1) ->
  epoch_steps (log s1) =
    rev ((fun e => (e, (e + 1) * loader_len (train_loader E) - 1))
           <$> filter (fun e => e `mod` log_interval args = 0) es)
    ++ epoch_steps (log s) /\
  (forall name,
     name ∈ (fs s1).*1 <->
     name ∈ (fs s).*1 \/
     exists e, e ∈ es /\ e `mod` save_interval args = 0 /\ name = checkpoint_name e) /\
  (forall name,
     (forall e, e ∈ es -> e `mod` save_interval args = 0 -> name <> checkpoint_name e) ->
     dir_lookup name (fs s1) = dir_lookup name (fs s)) /\
  (es <> [] ->
   log_interval args <> 0 /\ save_interval args <> 0 /\
   v_epoch s1 = last es /\ is_Some (v_loss s1)).
Proof.
  intros Hb Hd. revert s. induction es as [|e es IH]; intros s Hloop.
  - injection Hloop as <-. split; [reflexivity|]. split; [|split; [reflexivity|congruence]].
    intros name. split; [auto|]. intros [H|(e & He & _)]; [exact H|inversion He].
  - apply for_each_cons_returns in Hloop as (s' & He & Hrest).
    pose proof (train_epoch_trace args E e s Hb Hd) as Hwp.
    unfold wp in Hwp. rewrite He in Hwp.
    destruct Hwp as (Hli & Hsi & Hlog & Hve & l & Hl & Hfs).
    destruct (IH s' Hrest) as (IHlog & IHnames & IHkeep & IHlast).
    split; [|split; [|split]].
    + rewrite IHlog, Hlog, filter_cons.
      destruct (decide (e `mod` log_interval args = 0)).
      * rewrite fmap_cons. cbn [rev]. now rewrite <- app_assoc.
      * reflexivity.
    + intros name. rewrite IHnames.
      destruct (decide (e `mod` save_interval args = 0)) as [Hm|Hm]; rewrite Hfs.
      * rewrite dir_write_names_elem. split.
        -- intros [[H| ->]|(e' & He' & Hm' & ->)]; [auto| |].
           ++ right. exists e. split; [left|auto].
           ++ right. exists e'. split; [now right|auto].
        -- intros [H|(e' & He' & Hm' & ->)]; [auto|].
           apply elem_of_cons in He' as [->|He']; [auto|]. right. eauto.
      * split.
        -- intros [H|(e' & He' & Hm' & ->)]; [auto|]. right. exists e'. split; [now right|auto].
        -- intros [H|(e' & He' & Hm' & ->)]; [auto|].
           apply elem_of_cons in He' as [->|He']; [contradiction|]. right. eauto.
    + intros name Hname. rewrite IHkeep by (intros e' He'; apply Hname; now right).
      rewrite Hfs. destruct (decide (e `mod` save_interval args = 0)) as [Hm|Hm]; [|reflexivity].
      apply dir_lookup_write_ne. intros Heq. apply (Hname e); [left|exact Hm|now symmetry].
    + intros _. split; [exact Hli|]. split; [exact Hsi|].
      destruct es as [|e' es'].
      * injection Hrest as <-. split; [exact Hve|]. rewrite Hl. eauto.
      * destruct IHlast as (_ & _ & Hlast & Hloss); [discriminate|].
        split; [exact Hlast|exact Hloss].
Qed.


Ltac wp_upto_loop :=
  repeat (lazymatch goal with
          | |- wp (for_each _ _) _ _ _ => fail
          | |- _ => wp_op; cbn beta iota
          end).

Lemma train_batches_inv (P : directory -> list log_record -> Prop)
    (bs : list (nat * list sample)) s :
  P (fs s) (log s) ->
  wp (for_each bs train_batch) (fun _ s' => P (fs s') (log s'))
     (fun _ s' => P (fs s') (log s')) s.
Proof.
  intros Hs. apply wp_for_each; [|exact Hs].
  intros x s' _ Hs'. wp_go. st_simpl. exact Hs'.
Qed.

Lemma validate_batches_inv (P : directory -> list log_record -> Prop)
    (vbs : list (list sample)) s :
  P (fs s) (log s) ->
  wp (for_each vbs validate_batch) (fun _ s' => P (fs s') (log s'))
     (fun _ s' => P (fs s') (log s')) s.
Proof.
  intros Hs. apply wp_for_each; [|exact Hs].
  intros x s' _ Hs'. wp_go. st_simpl. exact Hs'.
Qed.

Section Invariant.
Variable P : directory -> list log_record -> Prop.
Hypothesis P_write : forall e f d l, P d l -> P (dir_write (checkpoint_name e) f d) l.
Hypothesis P_log : forall r d l, P d l -> P d (r :: l).

Lemma save_checkpoint_inv s :
  P (fs s) (log s) ->
  wp save_checkpoint (fun _ s' => P (fs s') (log s')) (fun _ s' => P (fs s') (log s')) s.
Proof. intros Hs. wp_go; st_simpl; auto. Qed.

Lemma resume_inv args s :
  P (fs s) (log s) ->
  wp (resume args) (fun _ s' => P (fs s') (log s')) (fun _ s' => P (fs s') (log s')) s.
Proof. intros Hs. unfold resume. wp_go; st_simpl; auto. Qed.

Lemma train_epoch_inv args E e s :
  P (fs s) (log s) ->
  wp (train_epoch args E e) (fun _ s' => P (fs s') (log s'))
     (fun _ s' => P (fs s') (log s')) s.
Proof.
  intros Hs. unfold train_epoch.
  assert (Hsave : forall s3, P (fs s3) (log s3) ->
    wp (r ← py_mod e (save_interval args);
        if decide (r = 0) then save_checkpoint else mret tt)
       (fun _ s' => P (fs s') (log s')) (fun _ s' => P (fs s') (log s')) s3).
  { intros s3 Hs3. wp_step. wp_step; [auto|]. wp_step; [|wp_step; auto].
    now apply save_checkpoint_inv. }
  assert (Hlog : forall s3, P (fs s3) (log s3) ->
    wp (step ← local "step" v_step;
        loss ← local "loss" v_loss;
        val_loss ← local "val_loss" v_val_loss;
        logging (LogEpoch e (e * loader_len (train_loader E) + step) loss val_loss))
       (fun _ s' => wp (r ← py_mod e (save_interval args);
                        if decide (r = 0) then save_checkpoint else mret tt)
                      (fun _ s' => P (fs s') (log s'))
                      (fun _ s' => P (fs s') (log s')) s')
       (fun _ s' => P (fs s') (log s')) s3).
  { intros s3 Hs3. wp_upto_save; st_simpl; auto. apply Hsave; st_simpl; auto. }
  assert (Hrest : forall s2, P (fs s2) (log s2) ->
    wp (r ← py_mod e (log_interval args);
        (if decide (r = 0) then
           (if negb (eval_val args) then modify (set_val_loss (IntScalar (-1)))
            else
              modify (fun s => set_model (eval_mode (model s)) s);;
              vbs ← iterate (val_loader E);
              for_each vbs validate_batch;;
              modify (fun s => set_model (train_mode (model s)) s));;
           step ← local "step" v_step;
           loss ← local "loss" v_loss;
           val_loss ← local "val_loss" v_val_loss;
           logging (LogEpoch e (e * loader_len (train_loader E) + step) loss val_loss)
         else mret tt);;
        r ← py_mod e (save_interval args);
        if decide (r = 0) then save_checkpoint else mret tt)
       (fun _ s' => P (fs s') (log s')) (fun _ s' => P (fs s') (log s')) s2).
  { intros s2 Hs2. wp_step. wp_step; [auto|]. wp_step. wp_step; [|wp_step; auto].
    wp_step. wp_step.
    - wp_step. apply Hlog. st_simpl. exact Hs2.
    - wp_upto_loop;
        (eapply wp_mono; [apply (validate_batches_inv P); st_simpl; exact Hs2| |auto]);
        intros [] s4 Hs4; wp_step; apply Hlog; st_simpl; exact Hs4. }
  wp_upto_loop;
    (eapply wp_mono; [apply (train_batches_inv P); st_simpl; exact Hs| |auto]);
    intros [] s2 Hs2; now apply Hrest.
Qed.

(** The run touches the directory only by writing checkpoints and the log
    only by adding records: a property of the two that such steps keep holds
    when the run ends, however it ends. *)
Lemma run_invariant args E s :
  P (fs s) (log s) -> P (fs (run args E s).2) (log (run args E s).2).
Proof.
  intros Hs.
  assert (Hwp : wp (run args E) (fun _ s' => P (fs s') (log s'))
                   (fun _ s' => P (fs s') (log s')) s).
  { unfold run. wp_step.
    eapply wp_mono; [apply resume_inv; exact Hs| |auto].
    intros [] s' Hs'.
    wp_step. unfold train_loop. wp_step. wp_step. wp_step. wp_step. st_simpl.
    destruct (continue_epoch s') eqn:Hce; try (apply wp_raise; st_simpl; exact Hs').
    eapply wp_mono;
      [apply (wp_for_each _ _ (fun s' => P (fs s') (log s'))
                (fun _ s' => P (fs s') (log s')))| |auto].
    - intros e s2 _ Hs2. now apply train_epoch_inv.
    - st_simpl. exact Hs'.
    - intros [] s2 Hs2. now apply save_checkpoint_inv. }
  apply wp_run in Hwp. destruct (run args E s).1; exact Hwp.
Qed.

End Invariant.


(** The validation loader of [prepare]: one batch, the whole subset. *)
Lemma prepare_val_loader args w g E g' :
  prepare args w g = (Ok E, g') ->
  dl_dataset (val_loader E) = subset (all_set E) (val_set (parts E)) /\
  length (dl_dataset (val_loader E)) = length (val_set (parts E)) /\
  dl_dataset (val_loader E) <> [] /\
  forall s, iterate (val_loader E) s = (Ok [dl_dataset (val_loader E)], s).
Proof.
  intros Hprep.
  destruct (prepare_inv args w g E g' Hprep)
    as (rows & _ & Hall & Hpart & _ & Hvl & _ & _ & Hne).
  destruct (partition_in_range _ _ _ _ _ Hpart) as (_ & Hva & _).
  assert (Hlen : length (subset rows (val_set (parts E))) = length (val_set (parts E)))
    by (now apply subset_length).
  assert (Hnn : subset rows (val_set (parts E)) <> []).
  { intros Hnil. rewrite Hnil in Hlen. destruct (val_set (parts E)); [congruence|discriminate]. }
  rewrite Hvl, Hall. cbn [dl_dataset]. repeat split; auto.
  intros s. unfold iterate. cbn [dl_shuffle dl_batch_size dl_dataset].
  rewrite <- Hlen, batches_whole by exact Hnn. reflexivity.
Qed.

Lemma zip_seq_snoc {A} (bs : list A) b k :
  zip (seq k (length (bs ++ [b]))) (bs ++ [b])
  = zip (seq k (length bs)) bs ++ [((k + length bs)%nat, b)].
Proof.
  revert k. induction bs as [|x bs IH]; intros k.
  - cbn. now rewrite Nat.add_0_r.
  - cbn [length app seq zip zip_with]. cbn [length app seq zip zip_with] in IH.
    rewrite IH. cbn [app].
    replace (k + S (length bs))%nat with (S k + length bs)%nat by lia. reflexivity.
Qed.

(** Lines 66 to 84 over at least ten and fewer than [2^50] rows. *)
Lemma prepare_loaders args w g rows :
  train_file w = NpyArray rows ->
  (10 <= length rows)%nat ->
  Z.of_nat (length rows) < 2 ^ 50 ->
  0 < batch_size args ->
  0 <= num_workers args ->
  exists E,
    prepare args w g = (Ok E, manual_seed (os_entropy w)) /\
    all_set E = rows /\
    length (dl_dataset (train_loader E)) = (4 * length rows / 5)%nat /\
    length (dl_dataset (val_loader E)) = (length rows / 10)%nat /\
    dl_dataset (train_loader E) <> [] /\
    dl_dataset (val_loader E) <> [] /\
    dl_batch_size (train_loader E) = Z.to_nat (batch_size args) /\
    dl_batch_size (val_loader E) = (length rows / 10)%nat /\
    dl_shuffle (train_loader E) = true /\
    dl_shuffle (val_loader E) = false.
Proof.
  intros Hf Hn Hlt Hb Hw.
  destruct (partition_subsets rows (os_entropy w) g Hlt) as (p & Hp & Hv & Htr & Hva).
  assert (H10 : (1 <= length rows / 10)%nat).
  { apply (Nat.div_le_lower_bound (length rows) 10 1); lia. }
  assert (H45 : (1 <= 4 * length rows / 5)%nat).
  { apply (Nat.div_le_lower_bound (4 * length rows) 5 1); lia. }
  unfold prepare. rewrite Hf. unfold mbind, M_bind. rewrite Hp.
  unfold new_DataLoader.
  destruct (decide (num_workers args < 0)); [lia|].
  destruct (decide (batch_size args <= 0)); [lia|].
  destruct (decide (0 < 0)); [lia|].
  destruct (decide (Z.of_nat (length (val_set p)) <= 0)); [lia|].
  eexists. split; [reflexivity|].
  cbn [all_set train_loader val_loader dl_dataset dl_batch_size dl_shuffle].
  assert (Htn : subset rows (train_set p) <> []).
  { intros Hnil. rewrite Hnil in Htr. cbn [length] in Htr. lia. }
  assert (Hvn : subset rows (val_set p) <> []).
  { intros Hnil. rewrite Hnil in Hva. cbn [length] in Hva. lia. }
  rewrite Nat2Z.id, Htr, Hva, Hv. auto 10.
Qed.

(** A run whose loop returned: its end, the names of the directory, the
    entries it has not written, the epoch records. *)
Lemma run_trace args E s a s2 :
  continue_epoch (resume args s).2 = VInt a ->
  a < epoch args ->
  (0 < dl_batch_size (train_loader E))%nat ->
  dl_dataset (train_loader E) <> [] ->
  train_loop args E (resume args s).2 = (Ok tt, s2) ->
  exists s1,
    run args E s = (Ok tt, s1) /\
    (forall name,
       name ∈ (fs s1).*1 <->
       name ∈ (fs s).*1 \/
       exists e, a <= e < epoch args /\
                 (e `mod` save_interval args = 0 \/ e = epoch args - 1) /\
                 name = checkpoint_name e) /\
    (forall name,
       (forall e, a <= e < epoch args -> name <> checkpoint_name e) ->
       dir_lookup name (fs s1) = dir_lookup name (fs s)) /\
    epoch_steps (log s1) =
      rev ((fun e => (e, (e + 1) * loader_len (train_loader E) - 1))
             <$> filter (fun e => e `mod` log_interval args = 0) (range a (epoch args)))
      ++ epoch_steps (log (resume args s).2).
Proof.
  intros Ha Hlt Hb Hd Hloop.
  destruct (resume_returns args s) as (s' & Hr & Hfs & _).
  rewrite Hr in *. cbn [snd] in *.
  unfold run, mbind, M_bind. rewrite Hr, Hloop.
  rewrite (train_loop_from args E s' a Ha) in Hloop.
  destruct (epochs_trace args E _ _ _ Hb Hd Hloop) as (Hlog & Hnames & Hkeep & Hlast).
  destruct Hlast as (_ & _ & He2 & [l2 Hl2]).
  { rewrite (range_cons a (epoch args) Hlt). discriminate. }
  rewrite (last_range a (epoch args) Hlt) in He2.
  unfold save_checkpoint, mbind, M_bind, local, gets, modify.
  rewrite He2, Hl2. eexists. split; [reflexivity|]. st_simpl. rewrite <- Hfs.
  split; [|split].
  - intros name. rewrite dir_write_names_elem, Hnames. st_simpl. split.
    + intros [[H|(e & He & Hm & ->)]| ->]; [auto| |].
      * right. exists e. apply elem_of_range in He. auto.
      * right. exists (epoch args - 1). split; [lia|auto].
    + intros [H|(e & He & [Hm| ->] & ->)]; [auto| |auto].
      left. right. exists e. split; [now apply elem_of_range|auto].
  - intros name Hname. rewrite dir_lookup_write_ne.
    + rewrite Hkeep; [reflexivity|]. intros e He _. apply Hname. now apply elem_of_range.
    + intros Heq. apply (Hname (epoch args - 1)); [lia|now symmetry].
  - rewrite Hlog. reflexivity.
Qed.


End LoopFacts.

(** ** Integers read from strings *)

Module PyStrFacts.
Import PyStr Natsort.
#[local] Arguments String.append !s1 s2 /.

Ltac digit_values :=
  repeat match goal with
         | |- context [digit (Ascii ?a ?b ?c ?d ?e ?f ?g ?h)] =>
             let v := eval vm_compute in (digit (Ascii a b c d e f g h)) in
             change (digit (Ascii a b c d e f g h)) with v
         end.

Lemma digits_string_of_uint acc u :
  digits false acc (NilEmpty.string_of_uint u) = Some (uint_val acc u, EmptyString).
Proof.
  revert acc. induction u; intros acc;
    cbn [NilEmpty.string_of_uint digits uint_val]; [reflexivity|digit_values; apply IHu..].
Qed.

Lemma uint_val_pos acc u : uint_val (Zpos acc) u = Zpos (Pos.of_uint_acc u acc).
Proof.
  revert acc. induction u; intros acc; cbn [uint_val Pos.of_uint_acc];
    [reflexivity|rewrite <- IHu; f_equal; lia..].
Qed.

Lemma uint_val_0 u : uint_val 0 u = Z.of_N (Pos.of_uint u).
Proof.
  induction u; cbn [uint_val Pos.of_uint]; try reflexivity; try exact IHu;
    apply (uint_val_pos _ u).
Qed.

Lemma int_of_str_uint u :
  u <> Decimal.Nil ->
  int_of_str (NilEmpty.string_of_uint u) = Some (Z.of_N (Pos.of_uint u)) /\
  int_of_str (String "-" (NilEmpty.string_of_uint u)) = Some (- Z.of_N (Pos.of_uint u)).
Proof.
  intros Hu. rewrite <- uint_val_0.
  destruct u; [congruence|..]; unfold int_of_str;
    cbn [NilEmpty.string_of_uint lstrip];
    repeat match goal with
           | |- context [is_space ?c] => change (is_space c) with false
           end;
    digit_values; cbn -[digits uint_val];
    rewrite digits_string_of_uint; cbn [Natsort.all_chars]; split; reflexivity.
Qed.

(** Formatting an integer and reading it back gives the integer. *)
Lemma int_of_str_of_int z : int_of_str (str_of_int z) = Some z.
Proof.
  unfold str_of_int. destruct z as [|p|p]; [reflexivity|..]; cbn [Z.to_int NilZero.string_of_int].
  - assert (Hn : Pos.to_uint p <> Decimal.Nil) by apply DecimalPos.Unsigned.to_uint_nonnil.
    replace (NilZero.string_of_uint (Pos.to_uint p))
      with (NilEmpty.string_of_uint (Pos.to_uint p))
      by (destruct (Pos.to_uint p); [congruence|reflexivity..]).
    rewrite (proj1 (int_of_str_uint _ Hn)).
    change (Pos.of_uint (Pos.to_uint p)) with (N.of_uint (Pos.to_uint p)).
    unfold N.of_uint. now rewrite DecimalPos.Unsigned.of_to.
  - assert (Hn : Pos.to_uint p <> Decimal.Nil) by apply DecimalPos.Unsigned.to_uint_nonnil.
    replace (NilZero.string_of_uint (Pos.to_uint p))
      with (NilEmpty.string_of_uint (Pos.to_uint p))
      by (destruct (Pos.to_uint p); [congruence|reflexivity..]).
    rewrite (proj2 (int_of_str_uint _ Hn)).
    now rewrite DecimalPos.Unsigned.of_to.
Qed.

Lemma space_is_int_char c : is_space c = true -> int_char c = true.
Proof. intros Hc. unfold int_char. now rewrite Hc. Qed.

Lemma spaces_are_int_chars s : all_chars is_space s = true -> all_chars int_char s = true.
Proof.
  induction s as [|c s IH]; [reflexivity|]. cbn [all_chars].
  intros [Hc Hs]%andb_prop. now rewrite (space_is_int_char c Hc), IH.
Qed.

Lemma lstrip_int_chars s :
  all_chars int_char (lstrip s) = true -> all_chars int_char s = true.
Proof.
  induction s as [|c s IH]; [reflexivity|]. cbn [lstrip all_chars].
  destruct (is_space c) eqn:Hc; [|exact id].
  intros Hs. now rewrite (space_is_int_char c Hc), IH.
Qed.

Lemma digit_is_int_char c d : digit c = Some d -> int_char c = true.
Proof.
  intros Hd. unfold int_char. rewrite Hd.
  rewrite (bool_decide_eq_true_2 _ (mk_is_Some _ _ eq_refl)).
  now rewrite orb_true_r.
Qed.

Lemma digits_int_chars au acc s v rest :
  digits au acc s = Some (v, rest) ->
  all_chars int_char rest = true -> all_chars int_char s = true.
Proof.
  revert au acc. induction s as [|c s IH]; intros au acc; cbn [digits all_chars].
  - destruct au; [discriminate|]. now intros [= _ <-].
  - destruct (digit c) as [d|] eqn:Hd.
    + intros Hs Hr. rewrite (digit_is_int_char c d Hd). now apply (IH _ _ Hs).
    + destruct au; [discriminate|]. destruct (Ascii.eqb c "_") eqn:Hu.
      * intros Hs Hr. unfold int_char at 1. rewrite Hu, orb_true_r.
        now apply (IH _ _ Hs).
      * intros [= _ <-]. exact id.
Qed.

(** A string that [int] accepts holds blanks, digits, signs and underscores
    only. *)
Lemma int_of_str_int_chars s z : int_of_str s = Some z -> all_chars int_char s = true.
Proof.
  unfold int_of_str. intros H. apply lstrip_int_chars.
  assert (Hbody : forall s2,
    match s2 with
    | String c s3 =>
        match digit c with
        | Some d =>
            match digits false d s3 with
            | Some (v, rest) => all_chars is_space rest = true
            | None => False
            end
        | None => False
        end
    | EmptyString => False
    end -> all_chars int_char s2 = true).
  { intros [|c s3]; [contradiction|]. destruct (digit c) as [d|] eqn:Hd; [|contradiction].
    destruct (digits false d s3) as [[v rest]|] eqn:Hds; [|contradiction].
    intros Hr. cbn [all_chars]. rewrite (digit_is_int_char c d Hd).
    apply (digits_int_chars _ _ _ _ _ Hds), spaces_are_int_chars, Hr. }
  assert (Hcase : forall (negative : bool) s2,
    match s2 with
    | String c s3 =>
        match digit c with
        | Some d =>
            match digits false d s3 with
            | Some (v, rest) =>
                if all_chars is_space rest
                then Some (if negative then - v else v) else None
            | None => None
            end
        | None => None
        end
    | EmptyString => None
    end = Some z -> all_chars int_char s2 = true).
  { intros negative s2 H2. apply Hbody. destruct s2 as [|c s3]; [discriminate|].
    destruct (digit c) as [d|]; [|discriminate].
    destruct (digits false d s3) as [[v rest]|]; [|discriminate].
    now destruct (all_chars is_space rest). }
  destruct (lstrip s) as [|c s1]; [discriminate|].
  destruct (Ascii.eqb_spec c "-") as [->|Hm].
  { cbn [all_chars]. apply (Hcase true). exact H. }
  destruct (Ascii.eqb_spec c "+") as [->|Hp].
  { cbn [all_chars]. apply (Hcase false). exact H. }
  apply (Hcase false).
  destruct c as [[] [] [] [] [] [] [] []]; try exact H; congruence.
Qed.

Lemma append_inj_r (x y t : string) : x +:+ t = y +:+ t -> x = y.
Proof.
  revert y. induction x as [|a x IH]; intros [|b y] H; simpl in *.
  - reflexivity.
  - apply (f_equal String.length) in H. cbn [String.length] in H.
    rewrite string_length_append in H. lia.
  - apply (f_equal String.length) in H. cbn [String.length] in H.
    rewrite string_length_append in H. lia.
  - injection H as -> H. f_equal. now apply IH.
Qed.

Lemma append_inj_l (t x y : string) : t +:+ x = t +:+ y -> x = y.
Proof. induction t as [|a t IH]; simpl; [exact id|]. intros [= H]. now apply IH. Qed.

End PyStrFacts.

(** ** Keys of the natural sort *)

Module KeyFacts.
Import Natsort.

Lemma scan_alternates r s :
  alternates (match r with InText _ => true | InNum _ => false end) (scan r s) = true.
Proof.
  revert r. induction s as [|c s IH]; intros r.
  - destruct r as [[|]|]; reflexivity.
  - cbn [scan]. destruct (is_digit c), r; cbn [alternates andb negb];
      first [apply (IH (InNum _))|apply (IH (InText _))].
Qed.

(** On keys that alternate alike, the comparison never meets a text and a
    number at the same position. *)
Lemma key_compare_strict_alternates b k1 k2 :
  alternates b k1 = true -> alternates b k2 = true ->
  key_compare_strict k1 k2 = Some (key_compare k1 k2).
Proof.
  revert b k2. induction k1 as [|a k1 IH]; intros b [|c k2] H1 H2; try reflexivity.
  cbn [key_compare_strict key_compare alternates] in *.
  destruct a, c, b; cbn in H1, H2; try discriminate; cbn [chunk_compare_strict chunk_compare].
  - destruct (String.compare s s0); try reflexivity. now apply (IH false).
  - destruct (N.compare n n0); try reflexivity. now apply (IH true).
Qed.

End KeyFacts.

(** * The claims *)

Section Claims.
Context {TT : TorchTypes} {T : Torch}.

(** C1: with resumption requested and the latest checkpoint restored (its
    model and optimizer states load, its epoch is the integer [e], its loss
    is a tensor), the epoch counter of the loop starts at [e] itself: the
    loop runs over [range(e, args.epoch)], whose first element is [e], so
    the stored epoch is trained again. *)
Theorem resume_starts_at_checkpoint_epoch (args : Args) (E : env) (s : state)
    (fp : string) (d : gmap string pyval) (sdm sdo : state_dict)
    (m' : Module_) (o' : Optimizer) (e : Z) (l : tensor0) :
  continue_training args = true ->
  latest_path (fs s) = Ok fp ->
  open_path (fs s) fp = Some (Pickled (ODict d)) ->
  d !! "model_state_dict" = Some (VStateDict sdm) ->
  model_load_state_dict (model s) sdm = (m', None) ->
  d !! "optimizer_state_dict" = Some (VStateDict sdo) ->
  optimizer_load_state_dict (optimizer s) sdo = (o', None) ->
  d !! "epoch" = Some (VInt e) ->
  d !! "loss" = Some (VTensor l) ->
  exists s',
    resume args s = (Ok tt, s') /\
    continue_epoch s' = VInt e /\ model s' = m' /\ optimizer s' = o' /\
    train_loop args E s' =
      for_each (range e (epoch args)) (train_epoch args E)
        (set_model (train_mode m') s') /\
    (e < epoch args -> range e (epoch args) = e :: range (e + 1) (epoch args)).
Proof.
  intros Hc H1 H2 H3 H4 H5 H6 H7 H8.
  rewrite (resume_on args s Hc). unfold restore, mbind, M_bind.
  rewrite (restore_state_loaded (set_continue_epoch (VInt 0) s) fp d sdm m' sdo o')
    by assumption.
  unfold restore_position, getitem, tensor_data, mbind, M_bind, modify, logging, mret, M_ret.
  cbn [fst snd]. rewrite H7. cbn beta iota. rewrite H8. cbn beta iota.
  eexists. split; [reflexivity|]. st_simpl.
  split; [reflexivity|]. split; [reflexivity|]. split; [reflexivity|]. split.
  - apply train_loop_from. reflexivity.
  - apply range_cons.
Qed.

(** C2, amended: with resumption requested the resumption routine always
    returns; a failure of the [try] body is logged; and when the failure
    comes before the epoch of the checkpoint is read (no checkpoint found,
    an unreadable checkpoint, a model or optimizer state that is missing or
    rejected, no epoch field) the loop starts at epoch 0. *)
Theorem restore_failure_is_caught (args : Args) (s : state) :
  continue_training args = true ->
  exists s',
    resume args s = (Ok tt, s') /\
    (forall e s1, restore (set_continue_epoch (VInt 0) s) = (Raise e, s1) ->
                  LogLoadFailed e ∈ log s') /\
    (raises (restore_state (set_continue_epoch (VInt 0) s)).1 ->
     continue_epoch s' = VInt 0) /\
    (forall r s1, restore_state (set_continue_epoch (VInt 0) s) = (Ok r, s1) ->
                  raises (getitem r.2 "epoch" s1).1 ->
                  continue_epoch s' = VInt 0).
Proof.
  intros Hc. rewrite (resume_on args s Hc).
  pose proof (restore_state_frame (set_continue_epoch (VInt 0) s)) as Hfr.
  unfold wp in Hfr. unfold restore, mbind, M_bind.
  destruct (restore_state (set_continue_epoch (VInt 0) s)) as [[r|e0] s1] eqn:Hrs.
  - destruct Hfr as [Hce _]. cbn [continue_epoch set_continue_epoch] in Hce.
    destruct (restore_position r s1) as [[[]|e] s2] eqn:Hrp;
      (eexists; split; [reflexivity|]); st_simpl; repeat split.
    + intros e s3 [=].
    + contradiction.
    + intros r' s1' [= <- <-]. unfold restore_position, mbind, M_bind in Hrp.
      destruct (getitem r.2 "epoch" s1) as [[v|e1] s3]; [contradiction|discriminate].
    + intros e' s3 [= <- <-]. set_solver.
    + contradiction.
    + intros r' s1' [= <- <-] Hraise.
      unfold restore_position, mbind, M_bind in Hrp.
      unfold getitem in *. destruct r.2 as [dd|v]; cbn in *.
      * destruct (dd !! "epoch"); [contradiction|]. unfold raise in Hrp.
        injection Hrp as <- <-. exact Hce.
      * unfold raise in Hrp. injection Hrp as <- <-. exact Hce.
  - destruct Hfr as [Hce _]. cbn [continue_epoch set_continue_epoch] in Hce.
    eexists; split; [reflexivity|]. st_simpl. repeat split.
    + intros e s3 [= <- <-]. set_solver.
    + intros _. exact Hce.
    + intros r s3 [=].
Qed.



(** C5: the partition of a data set of [n] rows has [floor(0.8 n)] training
    rows, [floor(0.1 n)] validation rows and the rest as test rows, and the
    three sizes add up to [n].  The bound [n < 2^50] is the range of the
    lengths a loaded array can have: line 74 draws a permutation of [n]
    64-bit indices, eight pebibytes of them at [2^50]. *)
Theorem partition_sizes (n : nat) (entropy : Z) (g : generator) :
  Z.of_nat n < 2 ^ 50 ->
  exists p,
    partition n entropy g = (Ok p, manual_seed entropy) /\
    length (train_set p) = (4 * n / 5)%nat /\
    length (val_set p) = (n / 10)%nat /\
    length (test_set p) = (n - 4 * n / 5 - n / 10)%nat /\
    (length (train_set p) + length (val_set p) + length (test_set p))%nat = n.
Proof.
  intros Hn.
  assert (Hs := split_shape_small (Z.of_nat n) ltac:(lia)).
  rewrite (partition_spec n entropy g _ _ _ Hs). eexists. split; [reflexivity|].
  cbn [train_set val_set test_set].
  rewrite !length_take, !length_drop, randperm_length.
  assert (Ha : Z.to_nat (4 * Z.of_nat n / 5) = (4 * n / 5)%nat).
  { rewrite Z2Nat.inj_div by lia. f_equal. lia. }
  assert (Hb : Z.to_nat (Z.of_nat n / 10) = (n / 10)%nat).
  { rewrite Z2Nat.inj_div by lia. f_equal. lia. }
  assert (Hc : Z.to_nat (Z.of_nat n - 4 * Z.of_nat n / 5 - Z.of_nat n / 10)
               = (n - 4 * n / 5 - n / 10)%nat).
  { rewrite !Z2Nat.inj_sub, Ha, Hb by (apply Z.div_pos; lia). now rewrite Nat2Z.id. }
  rewrite Ha, Hb, Hc.
  pose proof (Nat.Div0.mul_div_le (4 * n) 5). pose proof (Nat.Div0.mul_div_le n 10).
  lia.
Qed.

(** C6, amended: a data set that cannot be loaded ends the run with the
    load error before any partition or checkpoint; an empty data set is not
    rejected by the partition, which returns three empty subsets, and the run
    then ends when the loaders are built. *)
Theorem dataset_failures (args : Args) (w : world) :
  (train_file w = NpyMissing ->
   main args w = {| f_result := Raise FileNotFoundError;
                    f_model_saved := model_saved w;
                    f_log := [LogArgs args] |}) /\
  (train_file w = NpyArray [] ->
   partition 0 (os_entropy w) (default_generator w) =
     (Ok {| train_set := []; val_set := []; test_set := [] |},
      manual_seed (os_entropy w)) /\
   main args w = {| f_result := Raise ValueError;
                    f_model_saved := model_saved w;
                    f_log := [LogArgs args] |}).
Proof.
  split; intros Hf.
  - unfold main. now rewrite (prepare_missing args w _ Hf).
  - split; [apply partition_empty|].
    unfold main. now rewrite (prepare_empty args w _ Hf).
Qed.

(** C7: over a directory that holds the checkpoints of the epochs [epochs]
    (non negative, in any order), lines 97 to 100 select the path of the
    checkpoint with the greatest epoch. *)
Theorem latest_checkpoint_is_highest_epoch (d : directory) (epochs : list Z) :
  d.*1 = checkpoint_name <$> epochs ->
  epochs <> [] ->
  Forall (fun e => 0 <= e) epochs ->
  exists e_max,
    e_max ∈ epochs /\ Forall (fun e => e <= e_max) epochs /\
    latest_path d = Ok (checkpoint_path e_max).
Proof.
  intros Hd Hne Hpos. unfold latest_path.
  rewrite (glob_checkpoints_names d epochs Hd). rewrite length_fmap.
  destruct (decide (length epochs = 0%nat)) as [H0|_].
  { destruct epochs; [congruence|discriminate]. }
  unfold Natsort.natsorted.
  rewrite (NatsortFacts.sorted_by_fmap checkpoint_path Z.leb Natsort.key_leb
             (fun e => 0 <= e) epochs);
    [|intros a b Ha Hb; now apply NatsortFacts.key_leb_checkpoint_path|exact Hpos].
  rewrite fmap_last.
  destruct (NatsortFacts.last_sorted_by_Z epochs Hne) as (m & -> & Hin & Hmax).
  exists m. auto.
Qed.

(** C8, amended: with validation disabled, the validation loss of every
    epoch record of the run is the fixed tensor [torch.tensor(-1)], which no
    validation pass has computed.  It is a number all the same, the integer
    -1, and line 145 logs it as [-1.0000000000]. *)
Theorem disabled_validation_logs_sentinel (args : Args) (w : world) :
  eval_val args = false ->
  forall e total_step train_loss val_loss,
    LogEpoch e total_step train_loss val_loss ∈ f_log (main args w) ->
    val_loss = IntScalar (-1) /\
    format_10f <$> int_of_scalar val_loss = Some "-1.0000000000"%string.
Proof.
  intros Hval e ts tl vl Hin.
  assert (Hlog : Forall sentinel_record (f_log (main args w))).
  { unfold main. destruct (prepare args w (default_generator w)) as [[E|ex] g].
    - assert (Hinit : Forall sentinel_record (log (init_state args w E g))).
      { unfold init_state. destruct (AutoEncoder args g). cbn [log]. repeat constructor. }
      destruct (lr_rejected args); [exact Hinit|].
      pose proof (run_sentinel_log args E (init_state args w E g) Hval Hinit) as Hwp.
      unfold wp in Hwp.
      destruct (run args E (init_state args w E g)) as [[[]|ex] s1]; exact Hwp.
    - cbn [f_log]. repeat constructor. }
  rewrite Forall_forall in Hlog. specialize (Hlog _ Hin). cbn in Hlog. subst vl.
  split; reflexivity.
Qed.

(** C9: when the epoch to continue from is not below [args.epoch] (a
    restored epoch that is too large, or an epoch count of zero), the loop
    body never runs, [epoch] and [loss] are never bound, and the save after
    the loop raises instead of writing: the directory is left as it was. *)
Theorem final_save_needs_an_epoch (args : Args) (E : env) (s : state) (a : Z) :
  v_epoch s = None ->
  v_loss s = None ->
  continue_epoch (resume args s).2 = VInt a ->
  epoch args <= a ->
  (run args E s).1 = Raise (UnboundLocalError "epoch") /\
  fs (run args E s).2 = fs s /\
  v_epoch (run args E s).2 = None /\
  v_loss (run args E s).2 = None.
Proof.
  intros Hv Hl Ha Hle.
  destruct (resume_returns args s) as (s' & Hr & Hfs & Hve & Hvl).
  rewrite Hr in Ha. cbn [snd] in Ha.
  unfold run, mbind, M_bind. rewrite Hr.
  rewrite (train_loop_from args E s' a Ha), (range_empty a (epoch args) Hle).
  cbn [for_each mret M_ret]. unfold save_checkpoint, mbind, M_bind, local.
  cbn [v_epoch set_model]. rewrite Hve, Hv. cbn [fst snd fs v_epoch v_loss set_model].
  rewrite Hve, Hvl. auto.
Qed.

(** C10: restoration is not atomic.  When the model state of the latest
    checkpoint has loaded and the restoration then fails on the optimizer
    state or on a missing epoch field, the run starts at epoch 0 with the
    model the checkpoint gave: the model is not rolled back. *)
Theorem restore_not_atomic (args : Args) (s : state) (fp : string)
    (d : gmap string pyval) (sdm : state_dict) (m' : Module_) :
  continue_training args = true ->
  latest_path (fs s) = Ok fp ->
  open_path (fs s) fp = Some (Pickled (ODict d)) ->
  d !! "model_state_dict" = Some (VStateDict sdm) ->
  model_load_state_dict (model s) sdm = (m', None) ->
  later_failure (optimizer s) d ->
  exists s' e,
    resume args s = (Ok tt, s') /\
    LogLoadFailed e ∈ log s' /\
    continue_epoch s' = VInt 0 /\
    model s' = m'.
Proof.
  intros Hc H1 H2 H3 H4 Hfail.
  assert (Hwp : wp (resume args)
                  (fun _ s' => (exists e, LogLoadFailed e ∈ log s') /\
                               continue_epoch s' = VInt 0 /\ model s' = m')
                  (fun _ _ => False) s).
  { unfold resume. rewrite Hc.
    destruct Hfail as [H5|v H5 Hv|sd o' e H5 H6|H5]; wp_rew; st_simpl.
    all: try solve [exfalso; eapply Hv; reflexivity].
    all: try congruence.
    all: split; [eexists; right; left|auto]. }
  apply wp_returns in Hwp as ([] & s' & Hr & [e He] & Hce & Hm). eauto 10.
Qed.

End Claims.

(** * Further properties of the code *)

Section Properties.
Context {TT : TorchTypes} {T : Torch}.

(** X1: a switch of [type=bool] is on for every value but the empty
    string, ['False'] and ['0'] included, and the device is ['cuda'] only
    when [use_gpu] is on and cuda is available. *)
Theorem switches_are_on_unless_empty (cuda_is_available : bool) (r : raw_args)
    (a : Args) (device s : string) :
  parse_args cuda_is_available r = Namespace a device ->
  (raw_eval_val r = Some s -> eval_val a = true <-> s <> EmptyString) /\
  (raw_continue_training r = Some s -> continue_training a = true <-> s <> EmptyString) /\
  (raw_use_gpu r = Some s -> use_gpu a = true <-> s <> EmptyString) /\
  (device = "cuda" <-> use_gpu a = true /\ cuda_is_available = true) /\
  (device = "cpu" <-> ~ (use_gpu a = true /\ cuda_is_available = true)).
Proof.
  unfold parse_args.
  destruct (int_option 100000 (raw_epoch r)); [|discriminate].
  destruct (int_option 1000 (raw_batch_size r)); [|discriminate].
  destruct (match raw_lr r with None => Some None | Some s => Some <$> PyStr.int_of_str s end);
    [|discriminate].
  destruct (int_option 10 (raw_log_interval r)); [|discriminate].
  destruct (int_option 100 (raw_save_interval r)); [|discriminate].
  destruct (int_option 60 (raw_signal_len r)); [|discriminate].
  destruct (int_option 6 (raw_latent_dim r)); [|discriminate].
  destruct (int_option 0 (raw_num_workers r)); [|discriminate].
  intros [= <- <-]. cbn [eval_val continue_training use_gpu].
  assert (Hb : forall s', PyStr.bool_of_str s' = true <-> s' <> EmptyString)
    by (intros [|c s']; simpl; split; congruence).
  split; [intros ->; apply Hb|]. split; [intros ->; apply Hb|].
  split; [intros ->; apply Hb|].
  destruct (bool_option true (raw_use_gpu r)), cuda_is_available; cbn;
    repeat split; intros; try congruence; try tauto; intuition congruence.
Qed.

(** X2: a learning rate given on the command line is converted with
    [int]: a value with a character other than blanks, digits, signs and
    underscores, such as a decimal point or an exponent, ends the process
    with status 2, and a value that is accepted is an integer. *)
Theorem lr_option_takes_integers_only (cuda_is_available : bool) (r : raw_args) (s : string) :
  raw_lr r = Some s ->
  (Natsort.all_chars PyStr.int_char s = false ->
   parse_args cuda_is_available r = SystemExit 2) /\
  (forall a device,
     parse_args cuda_is_available r = Namespace a device ->
     exists z, lr a = Some z /\ PyStr.int_of_str s = Some z).
Proof.
  intros Hs. unfold parse_args. rewrite Hs.
  destruct (PyStr.int_of_str s) as [z|] eqn:Hz.
  - split.
    + intros Hc. rewrite (PyStrFacts.int_of_str_int_chars s z Hz) in Hc. discriminate.
    + cbn [fmap option_fmap option_map].
      destruct (int_option 100000 (raw_epoch r)); [|discriminate].
      destruct (int_option 1000 (raw_batch_size r)); [|discriminate].
      destruct (int_option 10 (raw_log_interval r)); [|discriminate].
      destruct (int_option 100 (raw_save_interval r)); [|discriminate].
      destruct (int_option 60 (raw_signal_len r)); [|discriminate].
      destruct (int_option 6 (raw_latent_dim r)); [|discriminate].
      destruct (int_option 0 (raw_num_workers r)); [|discriminate].
      intros a device [= <- _]. exists z. auto.
  - cbn [fmap option_fmap option_map]. split.
    + intros _.
      destruct (int_option 100000 (raw_epoch r)); [|reflexivity].
      destruct (int_option 1000 (raw_batch_size r)); reflexivity.
    + intros a device.
      destruct (int_option 100000 (raw_epoch r)); [|discriminate].
      destruct (int_option 1000 (raw_batch_size r)); discriminate.
Qed.

(** X3: every index of the data set is in exactly one of the three subsets
    of a partition. *)
Theorem partition_is_disjoint_cover (n : nat) (entropy : Z) (g g' : generator) (p : split) :
  partition n entropy g = (Ok p, g') ->
  Permutation (train_set p ++ val_set p ++ test_set p) (seq 0 n) /\
  NoDup (train_set p ++ val_set p ++ test_set p) /\
  forall i, (i < n)%nat <-> i ∈ train_set p \/ i ∈ val_set p \/ i ∈ test_set p.
Proof.
  intros Hp. apply partition_concat in Hp.
  assert (Hperm : Permutation (train_set p ++ val_set p ++ test_set p) (seq 0 n)).
  { rewrite Hp. apply randperm_Permutation. }
  split; [exact Hperm|]. split.
  - rewrite Hperm. apply NoDup_seq.
  - intros i. rewrite <- !elem_of_app, Hperm, elem_of_seq. lia.
Qed.

(** X4: for a data set of at least one and fewer than [2^50] rows the test
    subset, which takes what the two floors leave, is never empty, is at
    least as large as the validation subset and has at most two rows more;
    the training subset has at most eight times the rows of the validation
    subset and seven more. *)
Theorem test_subset_is_not_smaller_than_validation (n : nat) (entropy : Z)
    (g g' : generator) (p : split) :
  (0 < n)%nat ->
  Z.of_nat n < 2 ^ 50 ->
  partition n entropy g = (Ok p, g') ->
  (1 <= length (test_set p))%nat /\
  (length (val_set p) <= length (test_set p) <= length (val_set p) + 2)%nat /\
  (length (train_set p) <= 8 * length (val_set p) + 7)%nat.
Proof.
  intros H0 Hn Hp.
  destruct (partition_lengths n entropy g Hn) as (p' & Hp' & Htr & Hva & Hte).
  rewrite Hp in Hp'. injection Hp' as <- _. rewrite Htr, Hva, Hte.
  pose proof (Nat.div_mod_eq (4 * n) 5). pose proof (Nat.mod_upper_bound (4 * n) 5).
  pose proof (Nat.div_mod_eq n 10). pose proof (Nat.mod_upper_bound n 10).
  lia.
Qed.

(** X5: a data set of fewer than ten rows has an empty validation subset;
    the run ends with [ValueError] when the loaders are built, before the
    model exists, and writes nothing. *)
Theorem small_dataset_is_rejected (args : Args) (w : world) (rows : list sample) :
  train_file w = NpyArray rows ->
  (length rows < 10)%nat ->
  (exists p, partition (length rows) (os_entropy w) (default_generator w)
             = (Ok p, manual_seed (os_entropy w)) /\ val_set p = []) /\
  main args w = {| f_result := Raise ValueError;
                   f_model_saved := model_saved w;
                   f_log := [LogArgs args] |}.
Proof.
  intros Hf Hn.
  destruct (partition_subsets rows (os_entropy w) (default_generator w))
    as (p & Hp & Hv & _).
  { assert (2 ^ 50 = 1125899906842624) by reflexivity. lia. }
  rewrite Nat.div_small in Hv by exact Hn. apply length_zero_iff_nil in Hv.
  split; [eauto|].
  unfold main, prepare. rewrite Hf. unfold mbind, M_bind. rewrite Hp, Hv.
  unfold new_DataLoader. cbn [length Z.of_nat].
  destruct (decide (num_workers args < 0)); [reflexivity|].
  destruct (decide (batch_size args <= 0)); reflexivity.
Qed.

(** X6: over a data set of at least ten and fewer than [2^50] rows, with a
    positive batch size and no negative number of workers, lines 66 to 84
    return: a shuffling training loader over [floor(0.8 n)] rows and a
    validation loader over [floor(0.1 n)] rows, neither of them empty. *)
Theorem prepare_returns_loaders (args : Args) (w : world) (g : generator)
    (rows : list sample) :
  train_file w = NpyArray rows ->
  (10 <= length rows)%nat ->
  Z.of_nat (length rows) < 2 ^ 50 ->
  0 < batch_size args ->
  0 <= num_workers args ->
  exists E,
    prepare args w g = (Ok E, manual_seed (os_entropy w)) /\
    all_set E = rows /\
    length (dl_dataset (train_loader E)) = (4 * length rows / 5)%nat /\
    length (dl_dataset (val_loader E)) = (length rows / 10)%nat /\
    dl_dataset (train_loader E) <> [] /\
    dl_dataset (val_loader E) <> [] /\
    dl_batch_size (train_loader E) = Z.to_nat (batch_size args) /\
    dl_batch_size (val_loader E) = (length rows / 10)%nat /\
    dl_shuffle (train_loader E) = true /\
    dl_shuffle (val_loader E) = false.
Proof. apply prepare_loaders. Qed.


(** X9: lines 97 to 100 raise [FileNotFoundError] exactly when no name of
    the directory matches the pattern; otherwise they select a path of
    [model_saved/] whose name matches the pattern and that can be opened. *)
Theorem latest_path_found_or_missing (d : directory) :
  match latest_path d with
  | Ok fp =>
      exists name f,
        fp = "model_saved/" +:+ name /\ fnmatch_checkpoint name = true /\
        open_path d fp = Some f
  | Raise e =>
      e = FileNotFoundError /\
      forall name, name ∈ d.*1 -> fnmatch_checkpoint name = false
  end.
Proof.
  pose proof (latest_path_cases d) as H. destruct (latest_path d) as [fp|e].
  - apply elem_of_glob_checkpoints in H as (name & -> & Hin & Hm).
    apply dir_lookup_names in Hin as [f Hf].
    exists name, f. rewrite open_path_name. auto.
  - destruct H as [-> Hnil]. split; [reflexivity|]. now apply glob_checkpoints_nil.
Qed.

(** X10: the key of the natural sort of any string alternates text and
    numbers from a text on, so the comparison of the keys of two strings
    never has to compare a text with a number, which would raise
    [TypeError]: line 100 cannot fail on the paths [glob] returns. *)
Theorem natsort_never_compares_text_with_number (s t : string) :
  alternates true (Natsort.natsort_key s) = true /\
  key_compare_strict (Natsort.natsort_key s) (Natsort.natsort_key t)
  = Some (Natsort.key_compare (Natsort.natsort_key s) (Natsort.natsort_key t)).
Proof.
  split; [apply (KeyFacts.scan_alternates (Natsort.InText EmptyString))|].
  apply (KeyFacts.key_compare_strict_alternates true);
    apply (KeyFacts.scan_alternates (Natsort.InText EmptyString)).
Qed.

(** X11: when the latest checkpoint cannot be read, no other checkpoint is
    tried: the failure is logged and the run starts at epoch 0 with the
    fresh model and optimizer, whatever else the directory holds. *)
Theorem unreadable_latest_checkpoint_no_fallback (args : Args) (s : state) (fp : string) :
  continue_training args = true ->
  latest_path (fs s) = Ok fp ->
  open_path (fs s) fp = Some Corrupt ->
  exists s' e,
    resume args s = (Ok tt, s') /\
    continue_epoch s' = VInt 0 /\ model s' = model s /\ optimizer s' = optimizer s /\
    log s' = LogContinueFrom (VInt 0) :: LogLoadFailed e :: log s.
Proof.
  intros Hc Hfp Hopen.
  assert (Hwp : wp (resume args)
                  (fun _ s' => exists e,
                     continue_epoch s' = VInt 0 /\ model s' = model s /\
                     optimizer s' = optimizer s /\
                     log s' = LogContinueFrom (VInt 0) :: LogLoadFailed e :: log s)
                  (fun _ _ => False) s).
  { unfold resume. rewrite Hc. wp_rew; st_simpl; try congruence. eauto. }
  apply wp_returns in Hwp as ([] & s' & Hr & e & H). eauto.
Qed.

(** X12: when the epoch to continue from is not an integer (the latest
    checkpoint stores something else under ['epoch']), the resumption itself
    does not fail, and the run ends with [TypeError] at the head of the loop,
    without training and without writing. *)
Theorem non_integer_epoch_stops_the_run (args : Args) (E : env) (s : state) :
  (forall z, continue_epoch (resume args s).2 <> VInt z) ->
  (resume args s).1 = Ok tt /\
  (run args E s).1 = Raise TypeError /\
  fs (run args E s).2 = fs s /\
  model (run args E s).2 = train_mode (model (resume args s).2).
Proof.
  intros Hv.
  destruct (resume_returns args s) as (s' & Hr & Hfs & _).
  rewrite Hr in *. cbn [fst snd] in *.
  unfold run, mbind, M_bind. rewrite Hr.
  unfold train_loop, mbind, M_bind, modify, gets. st_simpl.
  destruct (continue_epoch s') as [z| | | |] eqn:Hce;
    [now destruct (Hv z)|..]; cbn [raise fst snd]; st_simpl; auto.
Qed.

(** X13: when the batches of an epoch have all been trained, the model and
    the optimizer are those of the training step on the last batch, the loss
    left bound, which is the one logged and saved, is the loss of that last
    batch alone, and [step] is the index of the last batch. *)
Theorem epoch_loss_is_last_batch_loss (bs : list (list sample)) (b : list sample)
    (s s' : state) :
  for_each (zip (seq 0 (length (bs ++ [b]))) (bs ++ [b])) train_batch s = (Ok tt, s') ->
  exists s_mid loss,
    for_each (zip (seq 0 (length bs)) bs) train_batch s = (Ok tt, s_mid) /\
    train_step (model s_mid) (optimizer s_mid) b = (model s', optimizer s', loss) /\
    v_loss s' = Some loss /\
    v_step s' = Some (Z.of_nat (length bs)).
Proof.
  rewrite zip_seq_snoc. intros Hall.
  apply for_each_snoc_returns in Hall as (s_mid & Hmid & Hlast).
  exists s_mid. unfold train_batch, mbind, M_bind, modify, gets, mret, M_ret in Hlast.
  cbn [fst snd] in Hlast. st_simpl.
  destruct (train_step (model s_mid) (optimizer s_mid) b) as [[m' o'] loss].
  injection Hlast as <-. exists loss. st_simpl. auto.
Qed.

(** X14: with validation enabled, the record of an epoch carries the loss
    of the model in evaluation mode on the whole validation subset in one
    batch, computed after the batches of the epoch; the model is then put
    back in training mode. *)
Theorem validation_loss_of_record (args : Args) (w : world) (g g' : generator)
    (E : env) (e : Z) (s s' : state) :
  prepare args w g = (Ok E, g') ->
  dl_dataset (train_loader E) <> [] ->
  eval_val args = true ->
  e `mod` log_interval args = 0 ->
  train_epoch args E e s = (Ok tt, s') ->
  exists m l,
    model s' = train_mode (eval_mode m) /\
    v_loss s' = Some l /\
    log s' =
      LogEpoch e ((e + 1) * loader_len (train_loader E) - 1) l
        (FloatScalar (forward_loss (eval_mode m) (dl_dataset (val_loader E))))
      :: log s.
Proof.
  intros Hprep Hd Hval Hmod Hrun.
  destruct (prepare_val_loader args w g E g' Hprep) as (_ & _ & _ & Hvit).
  destruct (prepare_inv args w g E g' Hprep) as (rows & _ & _ & _ & Htl & _ & Hbs & _).
  assert (Hb : (0 < dl_batch_size (train_loader E))%nat).
  { rewrite Htl. cbn [dl_batch_size]. lia. }
  assert (Hwp : wp (train_epoch args E e)
                  (fun _ s' => exists m l,
                     model s' = train_mode (eval_mode m) /\
                     v_loss s' = Some l /\
                     log s' =
                       LogEpoch e ((e + 1) * loader_len (train_loader E) - 1) l
                         (FloatScalar (forward_loss (eval_mode m)
                                         (dl_dataset (val_loader E))))
                       :: log s)
                  (fun _ _ => True) s).
  { unfold train_epoch. rewrite Hval. cbn [negb]. wp_step. wp_step. wp_step.
    destruct (iterate_spec (train_loader E) (set_epoch e s) Hb)
      as (bs & s1 & Hit & Hperm & _ & Hlen & _ & _).
    assert (Hbs' : bs <> []).
    { intros ->. cbn in Hperm. apply Permutation_nil in Hperm. congruence. }
    pose proof (iterate_same_trace (train_loader E) (set_epoch e s)) as Hfr.
    unfold wp in Hfr. rewrite Hit in Hfr. destruct Hfr as [(_ & Hlog1 & _) _].
    apply (wp_of_eq _ bs s1); [exact Hit|]. wp_step.
    eapply wp_mono; [apply (train_batches_trace bs 0)| |contradiction].
    intros [] s2 (_ & Hlog2 & _ & _ & Hst2).
    destruct bs as [|b0 bs']; [congruence|]. destruct Hst2 as [Hst2 [l2 Hl2]].
    rewrite Nat.add_0_l, Hlen in Hst2. st_simpl.
    wp_step. wp_step; [exact I|]. wp_step.
    destruct (decide (e `mod` log_interval args = 0)) as [_|Hn]; [|contradiction].
    wp_step. wp_step. wp_step. wp_step.
    apply (wp_of_eq _ [dl_dataset (val_loader E)]
             (set_model (eval_mode (model s2)) s2)); [apply Hvit|].
    cbn [for_each]. wp_go; st_simpl; try exact I; try congruence.
    all: exists (model s2), l2; split; [reflexivity|]; split; [assumption|].
    all: rewrite Hlog2, Hlog1; st_simpl.
    all: replace z with (loader_len (train_loader E) - 1) by congruence.
    all: replace t with l2 by congruence.
    all: replace s0 with (FloatScalar (forward_loss (eval_mode (model s2))
                                         (dl_dataset (val_loader E)))) by congruence.
    all: do 2 f_equal; ring. }
  unfold wp in Hwp. rewrite Hrun in Hwp. exact Hwp.
Qed.

(** X15: a loop that returns has logged one record for every epoch it ran
    whose number is a multiple of the log interval, in the order of the
    epochs, and no other epoch record; the total step of the record of epoch
    [e] is [(e + 1) * len(train_loader) - 1]: epochs count from 0, also in
    a resumed run. *)
Theorem epoch_records_at_log_interval (args : Args) (E : env) (s s1 : state) (a : Z) :
  continue_epoch s = VInt a ->
  (0 < dl_batch_size (train_loader E))%nat ->
  dl_dataset (train_loader E) <> [] ->
  train_loop args E s = (Ok tt, s1) ->
  epoch_steps (log s1) =
    rev ((fun e => (e, (e + 1) * loader_len (train_loader E) - 1))
           <$> filter (fun e => e `mod` log_interval args = 0)
                 (range a (epoch args)))
    ++ epoch_steps (log s).
Proof.
  intros Ha Hb Hd Hloop. rewrite (train_loop_from args E s a Ha) in Hloop.
  now destruct (epochs_trace args E _ _ _ Hb Hd Hloop) as [-> _].
Qed.


(** X17: a checkpoint that has been saved is found by the [glob] of line 97
    and loads back as the dictionary that was saved: the epoch, the loss and
    the two state dictionaries of the moment of the save. *)
Theorem save_then_load (s : state) (e : Z) (l : tensor0) :
  v_epoch s = Some e ->
  v_loss s = Some l ->
  exists s' d,
    save_checkpoint s = (Ok tt, s') /\
    checkpoint_path e ∈ glob_checkpoints (fs s') /\
    torch_load (checkpoint_path e) s' = (Ok (ODict d), s') /\
    d !! "epoch" = Some (VInt e) /\
    d !! "loss" = Some (VTensor l) /\
    d !! "model_state_dict" = Some (VStateDict (model_state_dict (model s))) /\
    d !! "optimizer_state_dict"
    = Some (VStateDict (optimizer_state_dict (optimizer s))).
Proof.
  intros He Hl. unfold save_checkpoint, mbind, M_bind, local, gets, modify.
  rewrite He, Hl. eexists _, _. split; [reflexivity|]. st_simpl. split.
  - apply elem_of_glob_checkpoints. exists (checkpoint_name e).
    split; [reflexivity|]. split; [|apply fnmatch_checkpoint_name].
    apply dir_write_names_elem. now right.
  - unfold torch_load, mbind, M_bind, gets, checkpoint_path. st_simpl.
    rewrite open_path_name, dir_lookup_write. unfold checkpoint_of.
    split; [reflexivity|]. repeat split.
Qed.

(** X18: the number an f-string writes into a checkpoint name reads back,
    with [int], as the epoch, negative epochs included; the checkpoints of
    two different epochs never share a file. *)
Theorem epoch_number_round_trip (a : Z) :
  PyStr.int_of_str (str_of_int a) = Some a /\
  forall b, checkpoint_name a = checkpoint_name b -> a = b.
Proof.
  split; [apply PyStrFacts.int_of_str_of_int|].
  intros b Hab. unfold checkpoint_name in Hab.
  apply PyStrFacts.append_inj_l, PyStrFacts.append_inj_r in Hab.
  apply (f_equal PyStr.int_of_str) in Hab.
  rewrite !PyStrFacts.int_of_str_of_int in Hab. congruence.
Qed.

(** X19: a run that resumes from the directory in which another run has just
    saved the checkpoint of epoch [e], no checkpoint of a later epoch being
    there, restores that checkpoint: it continues from epoch [e] with the
    model and the optimizer that load the saved states. *)
Theorem resume_after_save (args : Args) (s0 s : state) (e : Z) (l : tensor0)
    (epochs : list Z) (m' : Module_) (o' : Optimizer) :
  continue_training args = true ->
  v_epoch s0 = Some e ->
  v_loss s0 = Some l ->
  (fs s0).*1 = checkpoint_name <$> epochs ->
  Forall (fun x => 0 <= x <= e) epochs ->
  0 <= e ->
  fs s = fs (save_checkpoint s0).2 ->
  model_load_state_dict (model s) (model_state_dict (model s0)) = (m', None) ->
  optimizer_load_state_dict (optimizer s) (optimizer_state_dict (optimizer s0))
  = (o', None) ->
  exists s',
    resume args s = (Ok tt, s') /\
    continue_epoch s' = VInt e /\ model s' = m' /\ optimizer s' = o' /\
    log s' = LogContinueFrom (VInt e) :: LogContinue (VInt e) l ::
             LogLoadCheckpoint (checkpoint_path e) :: log s.
Proof.
  intros Hc He Hl Hnames Hle H0 Hfs Hm Ho.
  assert (Hsaved : fs s = dir_write (checkpoint_name e)
                            (checkpoint_of e l (model s0) (optimizer s0)) (fs s0)).
  { rewrite Hfs. unfold save_checkpoint, mbind, M_bind, local, gets, modify.
    now rewrite He, Hl. }
  assert (Hlatest : latest_path (fs (set_continue_epoch (VInt 0) s)) = Ok (checkpoint_path e)).
  { st_simpl. rewrite Hsaved. now apply (latest_after_write _ epochs). }
  assert (Hopen : open_path (fs (set_continue_epoch (VInt 0) s)) (checkpoint_path e)
                  = Some (checkpoint_of e l (model s0) (optimizer s0))).
  { st_simpl. unfold checkpoint_path. rewrite open_path_name, Hsaved.
    apply dir_lookup_write. }
  rewrite (resume_on args s Hc). unfold restore, mbind, M_bind.
  unfold checkpoint_of in Hopen.
  rewrite (restore_state_loaded _ _ _ (model_state_dict (model s0)) m'
             (optimizer_state_dict (optimizer s0)) o' Hlatest Hopen);
    try reflexivity; try assumption.
  unfold restore_position, getitem, tensor_data, mbind, M_bind, modify, logging, mret, M_ret.
  cbn [fst snd].
  eexists. split; [reflexivity|]. st_simpl. repeat split.
Qed.

(** X20: a run that returns has added to [model_saved/] exactly the
    checkpoints of the epochs it ran that are multiples of the save interval
    and the checkpoint of its last epoch, and has left every other entry as
    it was. *)
Theorem run_checkpoint_names (args : Args) (E : env) (s s1 : state) (a : Z) :
  continue_epoch (resume args s).2 = VInt a ->
  a < epoch args ->
  (0 < dl_batch_size (train_loader E))%nat ->
  dl_dataset (train_loader E) <> [] ->
  run args E s = (Ok tt, s1) ->
  (forall name,
     name ∈ (fs s1).*1 <->
     name ∈ (fs s).*1 \/
     exists e, a <= e < epoch args /\
               (e `mod` save_interval args = 0 \/ e = epoch args - 1) /\
               name = checkpoint_name e) /\
  (forall name,
     (forall e, a <= e < epoch args -> name <> checkpoint_name e) ->
     dir_lookup name (fs s1) = dir_lookup name (fs s)).
Proof.
  intros Ha Hlt Hb Hd Hrun.
  destruct (train_loop args E (resume args s).2) as [[[]|ex] s2] eqn:Hloop.
  - destruct (run_trace args E s a s2 Ha Hlt Hb Hd Hloop) as (s1' & Hrun' & Hn & Hk & _).
    rewrite Hrun in Hrun'. injection Hrun' as <-. auto.
  - exfalso. unfold run, mbind, M_bind in Hrun.
    destruct (resume_returns args s) as (s' & Hr & _).
    rewrite Hr in *. cbn [snd] in Hloop. rewrite Hloop in Hrun. discriminate.
Qed.

(** X21: however a run ends, every entry that was in [model_saved/] is still
    there, and an entry whose name is not the name of a checkpoint of some
    epoch has kept its content. *)
Theorem run_never_deletes (args : Args) (E : env) (s : state) (name : string) :
  (name ∈ (fs s).*1 -> name ∈ (fs (run args E s).2).*1) /\
  ((forall e, name <> checkpoint_name e) ->
   dir_lookup name (fs (run args E s).2) = dir_lookup name (fs s)).
Proof.
  split.
  - intros Hin.
    apply (run_invariant (fun d _ => name ∈ d.*1)); [| |exact Hin]; [|auto].
    intros e f d _ Hd. apply dir_write_names_elem. now left.
  - intros Hname.
    apply (run_invariant (fun d _ => dir_lookup name d = dir_lookup name (fs s)));
      [| |reflexivity]; [|auto].
    intros e f d _ Hd. rewrite dir_lookup_write_ne; [exact Hd|].
    intros Heq. now apply (Hname e).
Qed.

(** X22: a run only adds records to the log: the records that were there
    stay, as the oldest ones and in their order, however the run ends. *)
Theorem log_only_grows (args : Args) (E : env) (s : state) :
  log s `suffix_of` log (run args E s).2.
Proof.
  apply (run_invariant (fun _ l => log s `suffix_of` l)); [auto| |reflexivity].
  intros r d l Hl. now apply suffix_cons_r.
Qed.


End Properties.

(** * The run and the claims on the small instance *)

Import Toy.

(** The lengths lines 69 to 71 compute for a few sizes. *)
Example split_shape_examples :
  split_shape <$> [0; 1; 5; 9; 10; 11; 100; 1125899906842623]
  = [Ok (0, 0, 0); Ok (0, 0, 1); Ok (4, 0, 1); Ok (7, 0, 2); Ok (8, 1, 1);
     Ok (8, 1, 2); Ok (80, 10, 10);
     Ok (900719925474098, 112589990684262, 112589990684263)].
Proof. vm_compute. reflexivity. Qed.

(** Keys of the natural sort: text and numbers alternate from a text on. *)
Example natsort_key_examples :
  Natsort.natsort_key "model_saved/checkpoint_epoch_10.pt"
  = [Natsort.Text "model_saved/checkpoint_epoch_"; Natsort.Num 10; Natsort.Text ".pt"] /\
  Natsort.natsort_key "12abc007"
  = [Natsort.Text ""; Natsort.Num 12; Natsort.Text "abc"; Natsort.Num 7] /\
  Natsort.natsort_key "" = [].
Proof. repeat split; vm_compute; reflexivity. Qed.

Example env0_prepared : prepare args0 (world0 20) 7 = (Ok env0, 12).
Proof. vm_compute. reflexivity. Qed.

Example saved0_run : f_model_saved (main args0 (world0 20)) = saved0.
Proof. vm_compute. reflexivity. Qed.

(** A whole run: three epochs return and leave three epoch records. *)
Example main_args0 :
  f_result (main args0 (world0 20)) = Ok tt /\
  f_log (main args0 (world0 20))
  = [LogEpoch 2 11 17 (FloatScalar 21); LogEpoch 1 7 61 (FloatScalar 25);
     LogEpoch 0 3 9 (FloatScalar 29); LogModel 0; LogTestLen 2; LogValLen 2;
     LogTrainLen 16; LogArgs args0].
Proof. split; vm_compute; reflexivity. Qed.

(** A first run of three epochs with a checkpoint at every epoch leaves the
    checkpoints of the epochs 0, 1 and 2. *)
Example saved0_names :
  saved0.*1 = ["checkpoint_epoch_0.pt"; "checkpoint_epoch_1.pt"; "checkpoint_epoch_2.pt"]%string.
Proof. vm_compute. reflexivity. Qed.

(** C1 on the directory the first run left: the latest checkpoint is the one
    of epoch 2, and the resumed loop starts at epoch 2. *)
Lemma resume_starts_at_checkpoint_epoch_witness :
  exists s',
    resume args1 (state_over saved0) = (Ok tt, s') /\
    continue_epoch s' = VInt 2 /\ model s' = 12 /\ optimizer s' = 12 /\
    train_loop args1 env0 s' =
      for_each (range 2 (epoch args1)) (train_epoch args1 env0)
        (set_model (train_mode 12) s') /\
    (2 < epoch args1 -> range 2 (epoch args1) = 2 :: range (2 + 1) (epoch args1)).
Proof.
  apply (resume_starts_at_checkpoint_epoch args1 env0 (state_over saved0)
           "model_saved/checkpoint_epoch_2.pt" (dict 2 17 (Some 12) (Some 12))
           12 12 12 12 2 17); vm_compute; reflexivity.
Defined.

(** C2, counterexample: a checkpoint of epoch 5 whose model and optimizer
    states load but which has no loss.  The restoration fails on the loss,
    the failure is caught, and the loop starts at epoch 5, not 0. *)
Lemma restore_failure_keeps_epoch :
  (restore (set_continue_epoch (VInt 0) (state_over lossless))).1 = Raise (KeyError "loss") /\
  (resume args1 (state_over lossless)).1 = Ok tt /\
  continue_epoch (resume args1 (state_over lossless)).2 = VInt 5 /\
  VInt 5 <> VInt 0.
Proof. repeat split; try (vm_compute; reflexivity). discriminate. Qed.

(** C2 on an empty directory: no checkpoint is found, the failure is logged
    and the loop starts at epoch 0. *)
Lemma restore_failure_is_caught_witness :
  continue_training args1 = true /\
  exists s',
    resume args1 (state_over []) = (Ok tt, s') /\
    LogLoadFailed FileNotFoundError ∈ log s' /\
    continue_epoch s' = VInt 0.
Proof.
  split; [reflexivity|].
  destruct (restore_failure_is_caught args1 (state_over []) eq_refl)
    as (s' & Hr & Hlog & H0 & _).
  exists s'. split; [exact Hr|]. split.
  - apply (Hlog FileNotFoundError (set_continue_epoch (VInt 0) (state_over []))).
    vm_compute. reflexivity.
  - apply H0. vm_compute. exact I.
Defined.


(** The first run saves at every epoch: the checkpoint of its last epoch is
    written twice. *)
Example final_save_duplicates :
  saves final0
  = ["checkpoint_epoch_2.pt"; "checkpoint_epoch_2.pt"; "checkpoint_epoch_1.pt";
     "checkpoint_epoch_0.pt"]%string /\
  (fs final0).*1
  = ["checkpoint_epoch_0.pt"; "checkpoint_epoch_1.pt"; "checkpoint_epoch_2.pt"]%string.
Proof. split; vm_compute; reflexivity. Qed.

(** Lines 69 to 71 on a length of [2^53 - 1], which no data set in memory
    has: the product with [0.8] is rounded up to an integer, one more than
    [floor(0.8 n)]. *)
Example split_shape_beyond_floor :
  split_shape 9007199254740991
  = Ok (7205759403792793, 900719925474099, 900719925474099) /\
  4 * 9007199254740991 / 5 = 7205759403792792.
Proof. split; vm_compute; reflexivity. Qed.

(** C5 on 100 rows: 80, 10 and 10. *)
Lemma partition_sizes_witness :
  Z.of_nat 100 < 2 ^ 50 /\
  exists p,
    partition (T := torch) 100 12 7 = (Ok p, 12) /\
    length (train_set p) = 80%nat /\
    length (val_set p) = 10%nat /\
    length (test_set p) = 10%nat /\
    (length (train_set p) + length (val_set p) + length (test_set p))%nat = 100%nat.
Proof.
  split; [reflexivity|]. apply (partition_sizes (T := torch) 100 12 (7 : Z)). reflexivity.
Defined.

(** C6, counterexample: the partition of an empty data set returns. *)
Lemma partition_accepts_empty :
  partition (T := torch) 0 12 7 = (Ok {| train_set := []; val_set := []; test_set := [] |}, 12) /\
  ~ raises (partition (T := torch) 0 12 7).1.
Proof. split; [vm_compute; reflexivity|]. vm_compute. exact id. Qed.

(** C6 on a world without the data file and on an empty data set. *)
Lemma dataset_failures_witness :
  train_file world_missing = NpyMissing /\
  train_file (world0 0) = NpyArray [] /\
  main args0 world_missing
  = {| f_result := Raise FileNotFoundError; f_model_saved := []; f_log := [LogArgs args0] |} /\
  main args0 (world0 0)
  = {| f_result := Raise ValueError; f_model_saved := []; f_log := [LogArgs args0] |}.
Proof.
  split; [reflexivity|]. split; [reflexivity|]. split.
  - apply (proj1 (dataset_failures args0 world_missing)). reflexivity.
  - apply (proj2 (dataset_failures args0 (world0 0))). reflexivity.
Defined.

(** C7 on the checkpoints of the epochs 5, 10 and 100. *)
Lemma latest_checkpoint_is_highest_epoch_witness :
  three.*1 = checkpoint_name <$> [100; 5; 10] /\
  latest_path three = Ok "model_saved/checkpoint_epoch_100.pt".
Proof.
  split; [vm_compute; reflexivity|].
  destruct (latest_checkpoint_is_highest_epoch three [100; 5; 10])
    as (m & Hin & Hmax & ->);
    [vm_compute; reflexivity|discriminate|repeat constructor; lia|].
  apply Forall_cons_1 in Hmax as [H100 _].
  apply elem_of_cons in Hin as [->|Hin]; [reflexivity|].
  apply elem_of_cons in Hin as [->|Hin]; [lia|].
  apply elem_of_cons in Hin as [->|Hin]; [lia|].
  apply elem_of_nil in Hin. contradiction.
Defined.

(** Plain [sorted] would put the checkpoint of epoch 5 last. *)
Example sorted_last_is_not_latest :
  last (Natsort.sorted (glob_checkpoints three)) = Some "model_saved/checkpoint_epoch_5.pt" /\
  last (Natsort.natsorted (glob_checkpoints three)) = Some "model_saved/checkpoint_epoch_100.pt".
Proof. split; vm_compute; reflexivity. Qed.

(** C8 on a run without validation: the record of epoch 0. *)
Lemma disabled_validation_logs_sentinel_witness :
  eval_val args2 = false /\
  LogEpoch 0 3 9 (IntScalar (-1)) ∈ f_log (main args2 (world0 20)) /\
  format_10f <$> int_of_scalar (TT := types) (IntScalar (-1)) = Some "-1.0000000000"%string.
Proof.
  split; [reflexivity|].
  assert (Hin : LogEpoch 0 3 9 (IntScalar (-1)) ∈ f_log (main args2 (world0 20))).
  { vm_compute. do 2 right. left. }
  split; [exact Hin|].
  exact (proj2 (disabled_validation_logs_sentinel args2 (world0 20) eq_refl 0 3 9 _ Hin)).
Defined.

(** C8, counterexample: a run with validation disabled logs a record whose
    validation loss is a numeric value: the integer tensor that holds -1,
    which line 145 writes as the decimal numeral [-1.0000000000]. *)
Lemma disabled_validation_logs_a_number :
  eval_val args2 = false /\
  f_result (main args2 (world0 20)) = Ok tt /\
  LogEpoch 0 3 9 (IntScalar (-1)) ∈ f_log (main args2 (world0 20)) /\
  int_of_scalar (TT := types) (IntScalar (-1)) = Some (-1) /\
  format_10f (-1) = "-1.0000000000"%string /\
  is_numeral (format_10f (-1)) = true.
Proof.
  split; [reflexivity|]. split; [vm_compute; reflexivity|].
  split; [vm_compute; do 2 right; left|]. repeat split; vm_compute; reflexivity.
Qed.

(** C9 on an epoch count of zero, and on a restored epoch, 2, that is not
    below the epoch count. *)
Lemma final_save_needs_an_epoch_witness :
  (run (with_epochs 0 false args0) env0 (state_over [])).1
  = Raise (UnboundLocalError "epoch") /\
  (run (with_epochs 2 true args0) env0 (state_over saved0)).1
  = Raise (UnboundLocalError "epoch") /\
  fs (run (with_epochs 2 true args0) env0 (state_over saved0)).2 = fs (state_over saved0).
Proof.
  split.
  - apply (final_save_needs_an_epoch (with_epochs 0 false args0) env0 (state_over []) 0);
      [reflexivity|reflexivity|vm_compute; reflexivity|vm_compute; discriminate].
  - destruct (final_save_needs_an_epoch (with_epochs 2 true args0) env0 (state_over saved0) 2)
      as (Hr & Hfs & _);
      [reflexivity|reflexivity|vm_compute; reflexivity|vm_compute; discriminate|].
    split; [exact Hr|exact Hfs].
Defined.

(** C10 on a checkpoint whose optimizer state is rejected: the model 0 has
    become the model 42 of the checkpoint, and the loop starts at epoch 0. *)
Lemma restore_not_atomic_witness :
  model (state_over half_good) = 0 /\
  exists s' e,
    resume args1 (state_over half_good) = (Ok tt, s') /\
    LogLoadFailed e ∈ log s' /\
    continue_epoch s' = VInt 0 /\
    model s' = 42.
Proof.
  split; [reflexivity|].
  apply (restore_not_atomic args1 (state_over half_good)
           "model_saved/checkpoint_epoch_5.pt" (dict 5 8 (Some 42) (Some (-3))) 42);
    try (vm_compute; reflexivity).
  apply (optimizer_state_rejected (T := torch) _ _ (-3 : Z) (0 : Z) RuntimeError);
    vm_compute; reflexivity.
Defined.

(** Two runs that differ in the entropy only split the data set alike and
    shuffle it differently. *)
Example shuffle_depends_on_entropy :
  (prepare args0 (world_of 20 12) 7).1 = (prepare args0 (world_of 20 13) 7).1 /\
  f_log (main args0 (world_of 20 12)) <> f_log (main args0 (world_of 20 13)).
Proof. split; [vm_compute; reflexivity|]. vm_compute. discriminate. Qed.

(** ** The further properties on the small instance *)

(** What the command lines give. *)
Example parse_args_examples :
  parse_args true raw_switches = Namespace (with_epochs 100000 true default_args) "cuda" /\
  parse_args false raw_switches = Namespace (with_epochs 100000 true default_args) "cpu" /\
  parse_args true raw_lr_fraction = SystemExit 2 /\
  PyStr.int_of_str <$> ["12"; " +1_000 "; "-7"; "1__0"; "0.001"; "1e3"; ""]
  = [Some 12; Some 1000; Some (-7); None; None; None; None].
Proof. repeat split; vm_compute; reflexivity. Qed.

(** X1 on [--eval_val False]: validation stays enabled. *)
Lemma switches_are_on_unless_empty_witness :
  parse_args true raw_switches = Namespace (with_epochs 100000 true default_args) "cuda" /\
  raw_eval_val raw_switches = Some "False" /\
  (eval_val (with_epochs 100000 true default_args) = true <-> "False" <> EmptyString).
Proof.
  split; [vm_compute; reflexivity|]. split; [reflexivity|].
  refine (proj1 (switches_are_on_unless_empty true raw_switches
                   (with_epochs 100000 true default_args) "cuda" "False" _) _);
    vm_compute; reflexivity.
Defined.

(** X2 on [--lr 0.001]: the process ends. *)
Lemma lr_option_takes_integers_only_witness :
  raw_lr raw_lr_fraction = Some "0.001" /\
  parse_args true raw_lr_fraction = SystemExit 2.
Proof.
  split; [reflexivity|].
  apply (proj1 (lr_option_takes_integers_only true raw_lr_fraction "0.001" eq_refl)).
  vm_compute. reflexivity.
Defined.

(** X3 on the partition of 20 rows. *)
Lemma partition_is_disjoint_cover_witness :
  partition (T := torch) 20 12 7 = (Ok (parts env0), 12) /\
  NoDup (train_set (parts env0) ++ val_set (parts env0) ++ test_set (parts env0)).
Proof.
  split; [vm_compute; reflexivity|].
  refine (proj1 (proj2 (partition_is_disjoint_cover (T := torch) 20 12 (7 : Z) (12 : Z)
                          (parts env0) _))).
  vm_compute. reflexivity.
Defined.

(** X4 on the partition of 20 rows: two validation rows and two test rows. *)
Lemma test_subset_is_not_smaller_than_validation_witness :
  (1 <= length (test_set (parts env0)))%nat /\
  (length (val_set (parts env0)) <= length (test_set (parts env0))
   <= length (val_set (parts env0)) + 2)%nat /\
  (length (train_set (parts env0)) <= 8 * length (val_set (parts env0)) + 7)%nat.
Proof.
  apply (test_subset_is_not_smaller_than_validation (T := torch) 20 12 (7 : Z) (12 : Z)
           (parts env0)); [lia|reflexivity|vm_compute; reflexivity].
Defined.

(** X5 on a data set of five rows. *)
Lemma small_dataset_is_rejected_witness :
  (length (rows 5) < 10)%nat /\
  main args0 (world0 5)
  = {| f_result := Raise ValueError; f_model_saved := model_saved (world0 5);
       f_log := [LogArgs args0] |}.
Proof.
  split; [vm_compute; lia|].
  apply (proj2 (small_dataset_is_rejected args0 (world0 5) (rows 5) eq_refl
                  ltac:(vm_compute; lia))).
Defined.

(** X6 on 20 rows: loaders over 16 and 2 rows. *)
Lemma prepare_returns_loaders_witness :
  exists E,
    prepare args0 (world0 20) 7 = (Ok E, manual_seed (os_entropy (world0 20))) /\
    length (dl_dataset (train_loader E)) = 16%nat /\
    length (dl_dataset (val_loader E)) = 2%nat.
Proof.
  destruct (prepare_returns_loaders args0 (world0 20) (7 : Z) (rows 20))
    as (E & HE & _ & Htr & Hva & _);
    [reflexivity|vm_compute; lia|reflexivity|reflexivity|vm_compute; discriminate|].
  exists E. split; [exact HE|]. split; [exact Htr|exact Hva].
Defined.


(** The latest checkpoint of a few directories. *)
Example latest_path_examples :
  latest_path (TT := types) [] = Raise FileNotFoundError /\
  latest_path [("notes.txt", Corrupt); ("checkpoint_.p", Corrupt)] = Raise FileNotFoundError /\
  latest_path stale = Ok "model_saved/checkpoint_epoch_10.pt" /\
  latest_path [("checkpoint_best.pt", Corrupt); ("checkpoint_epoch_7.pt", Corrupt)]
  = Ok "model_saved/checkpoint_epoch_7.pt".
Proof. repeat split; vm_compute; reflexivity. Qed.

(** X9 on a directory without a checkpoint. *)
Lemma latest_path_found_or_missing_witness :
  latest_path (TT := types) [("notes.txt", Corrupt)] = Raise FileNotFoundError /\
  fnmatch_checkpoint "notes.txt" = false.
Proof.
  split; [vm_compute; reflexivity|].
  refine (proj2 (latest_path_found_or_missing (TT := types) [("notes.txt", Corrupt)])
            "notes.txt" _).
  vm_compute. left.
Defined.

(** X11 on the checkpoints of the first run and an unreadable checkpoint of
    epoch 10: the checkpoint of epoch 2 is not tried. *)
Lemma unreadable_latest_checkpoint_no_fallback_witness :
  is_Some (dir_lookup "checkpoint_epoch_2.pt" stale) /\
  exists s' e,
    resume args1 (state_over stale) = (Ok tt, s') /\
    continue_epoch s' = VInt 0 /\
    model s' = model (state_over stale) /\
    optimizer s' = optimizer (state_over stale) /\
    log s' = LogContinueFrom (VInt 0) :: LogLoadFailed e :: log (state_over stale).
Proof.
  split; [vm_compute; eauto|].
  apply (unreadable_latest_checkpoint_no_fallback args1 (state_over stale)
           "model_saved/checkpoint_epoch_10.pt"); vm_compute; reflexivity.
Defined.

(** X12 on a checkpoint whose epoch is the string ['5']. *)
Lemma non_integer_epoch_stops_the_run_witness :
  continue_epoch (resume args1 (state_over odd_epoch)).2 = VStr "5" /\
  (resume args1 (state_over odd_epoch)).1 = Ok tt /\
  (run args1 env0 (state_over odd_epoch)).1 = Raise TypeError /\
  fs (run args1 env0 (state_over odd_epoch)).2 = fs (state_over odd_epoch).
Proof.
  split; [vm_compute; reflexivity|].
  destruct (non_integer_epoch_stops_the_run args1 env0 (state_over odd_epoch))
    as (H1 & H2 & H3 & _); [intros z; vm_compute; discriminate|].
  split; [exact H1|]. split; [exact H2|exact H3].
Defined.

(** X13 on two batches: the loss left is the loss of the second one. *)
Lemma epoch_loss_is_last_batch_loss_witness :
  exists s_mid loss,
    for_each (zip (seq 0 (length [[1; 2]])) [[1; 2]]) train_batch (state_over [])
    = (Ok tt, s_mid) /\
    train_step (model s_mid) (optimizer s_mid) [3; 4]
    = (model (for_each (zip (seq 0 (length ([[1; 2]] ++ [[3; 4]]))) ([[1; 2]] ++ [[3; 4]]))
                train_batch (state_over [])).2,
       optimizer (for_each (zip (seq 0 (length ([[1; 2]] ++ [[3; 4]])))
                              ([[1; 2]] ++ [[3; 4]]))
                    train_batch (state_over [])).2,
       loss) /\
    v_loss (for_each (zip (seq 0 (length ([[1; 2]] ++ [[3; 4]]))) ([[1; 2]] ++ [[3; 4]]))
              train_batch (state_over [])).2 = Some loss /\
    v_step (for_each (zip (seq 0 (length ([[1; 2]] ++ [[3; 4]]))) ([[1; 2]] ++ [[3; 4]]))
              train_batch (state_over [])).2 = Some (Z.of_nat (length [[1; 2]])).
Proof.
  apply (epoch_loss_is_last_batch_loss (T := torch) [[1; 2]] [3; 4] (state_over [])).
  vm_compute. reflexivity.
Defined.

(** X14 on the first epoch of the first run. *)
Lemma validation_loss_of_record_witness :
  exists m l,
    model epoch0 = train_mode (eval_mode m) /\
    v_loss epoch0 = Some l /\
    log epoch0 =
      LogEpoch 0 ((0 + 1) * loader_len (train_loader env0) - 1) l
        (FloatScalar (forward_loss (eval_mode m) (dl_dataset (val_loader env0))))
      :: log (state_over []).
Proof.
  apply (validation_loss_of_record args0 (world0 20) (7 : Z) (12 : Z) env0 0
           (state_over []) epoch0);
    [vm_compute; reflexivity|vm_compute; discriminate|reflexivity|reflexivity
    |vm_compute; reflexivity].
Defined.

(** X15 on the loop of the first run: the records of the epochs 0, 1 and 2
    at the total steps 3, 7 and 11. *)
Lemma epoch_records_at_log_interval_witness :
  train_loop args0 env0 (state_over []) = (Ok tt, looped0) /\
  epoch_steps (log looped0) = [(2, 11); (1, 7); (0, 3)].
Proof.
  split; [vm_compute; reflexivity|].
  rewrite (epoch_records_at_log_interval args0 env0 (state_over []) looped0 0);
    [|reflexivity|vm_compute; lia|vm_compute; discriminate|vm_compute; reflexivity].
  vm_compute. reflexivity.
Defined.


(** X17 on the state the loop of the first run leaves. *)
Lemma save_then_load_witness :
  exists s' d,
    save_checkpoint looped0 = (Ok tt, s') /\
    checkpoint_path 2 ∈ glob_checkpoints (fs s') /\
    torch_load (checkpoint_path 2) s' = (Ok (ODict d), s') /\
    d !! "epoch" = Some (VInt 2) /\
    d !! "loss" = Some (VTensor 17) /\
    d !! "model_state_dict" = Some (VStateDict (model_state_dict (model looped0))) /\
    d !! "optimizer_state_dict"
    = Some (VStateDict (optimizer_state_dict (optimizer looped0))).
Proof.
  apply (save_then_load looped0 2 (17 : Z)); reflexivity.
Defined.

(** X18 on a negative epoch, and on the epochs 1 and 10. *)
Lemma epoch_number_round_trip_witness :
  PyStr.int_of_str (str_of_int (-3)) = Some (-3) /\
  checkpoint_name 10 <> checkpoint_name 1.
Proof.
  split; [apply (epoch_number_round_trip (-3))|].
  intros H. apply (proj2 (epoch_number_round_trip 10) 1) in H. discriminate.
Defined.

(** X19 on a second run over the directory the first run leaves. *)
Lemma resume_after_save_witness :
  exists s',
    resume args1 (state_over (fs (save_checkpoint looped0).2)) = (Ok tt, s') /\
    continue_epoch s' = VInt 2 /\ model s' = 12 /\ optimizer s' = 12 /\
    log s' = LogContinueFrom (VInt 2) :: LogContinue (VInt 2) 17 ::
             LogLoadCheckpoint (checkpoint_path 2)
             :: log (state_over (fs (save_checkpoint looped0).2)).
Proof.
  apply (resume_after_save args1 looped0 (state_over (fs (save_checkpoint looped0).2))
           2 (17 : Z) [0; 1; 2] (12 : Z) (12 : Z));
    try (vm_compute; reflexivity); try lia.
  repeat constructor; lia.
Defined.

(** X20 on the first run: exactly the checkpoints of the epochs 0, 1 and 2. *)
Lemma run_checkpoint_names_witness :
  run args0 env0 (state_over []) = (Ok tt, final0) /\
  forall name,
    name ∈ (fs final0).*1 <->
    name ∈ (fs (state_over [])).*1 \/
    exists e, 0 <= e < epoch args0 /\
              (e `mod` save_interval args0 = 0 \/ e = epoch args0 - 1) /\
              name = checkpoint_name e.
Proof.
  split; [vm_compute; reflexivity|].
  refine (proj1 (run_checkpoint_names args0 env0 (state_over []) final0 0 _ _ _ _ _));
    [vm_compute; reflexivity|reflexivity|vm_compute; lia|vm_compute; discriminate
    |vm_compute; reflexivity].
Defined.

(** X21 on a run over a directory that holds a file of another name. *)
Lemma run_never_deletes_witness :
  "notes.txt" ∈ (fs (run args0 env0 (state_over [("notes.txt", Corrupt)])).2).*1 /\
  dir_lookup "notes.txt" (fs (run args0 env0 (state_over [("notes.txt", Corrupt)])).2)
  = dir_lookup "notes.txt" (fs (state_over [("notes.txt", Corrupt)])).
Proof.
  destruct (run_never_deletes args0 env0 (state_over [("notes.txt", Corrupt)]) "notes.txt")
    as [Hkeep Hsame].
  split.
  - apply Hkeep. vm_compute. left.
  - apply Hsame. intros e He. vm_compute in He. discriminate.
Defined.


(** With [--lr -1] the run ends at line 91, after the model has been logged
    and before any epoch. *)
Example negative_lr_is_rejected :
  main args_negative_lr (world0 20)
  = {| f_result := Raise ValueError; f_model_saved := [];
       f_log := [LogModel 0; LogTestLen 2; LogValLen 2; LogTrainLen 16;
                 LogArgs args_negative_lr] |}.
Proof. vm_compute. reflexivity. Qed.
